(** * tunisport_scraper: a shallow embedding of [tunisport_scraper.py]

    The script crawls the brand / model / submodel catalogue of one web
    site, stores one image per submodel, writes one spreadsheet per brand
    and keeps a ledger of the brands that are done.

    Python values are modelled as follows.
    - A [str] is the list of its Unicode code points ([N]); [lit] turns an
      ASCII literal into such a list.
    - Python integers are [Z].
    - The process and its surroundings (network, disk, log, clock) are an
      explicit [World]; what the surroundings answer is an [Env] of oracles
      that may look at the whole history kept in the [World].
    - A function that may raise returns a [Result]; functions are state
      passing ([M]). *)

From Stdlib Require Import List ZArith NArith Lia Bool String Ascii.
Import ListNotations.

Set Implicit Arguments.

(** ** Strings *)

Definition char := N.
Definition str := list char.

Definition lit (s : string) : str :=
  map N_of_ascii (list_ascii_of_string s).

Definition ch_nl : char := 10%N.
Definition ch_cr : char := 13%N.
Definition ch_dash : char := 45%N.
Definition ch_dot : char := 46%N.
Definition ch_slash : char := 47%N.
Definition ch_rparen : char := 41%N.

Fixpoint str_eqb (a b : str) : bool :=
  match a, b with
  | [], [] => true
  | x :: a', y :: b' => N.eqb x y && str_eqb a' b'
  | _, _ => false
  end.

(** [x in l] for a list of strings. *)
Definition str_mem (x : str) (l : list str) : bool := existsb (str_eqb x) l.

(** [str.isspace] of one character, which is also what [\s] matches in a
    [str] pattern: the ASCII white space 9-13, 28-31 and 32, and the Unicode
    white space outside ASCII. *)
Definition is_space (c : char) : bool :=
  ((9 <=? c) && (c <=? 13) || (28 <=? c) && (c <=? 32)
   || (c =? 133) || (c =? 160) || (c =? 5760)
   || (8192 <=? c) && (c <=? 8202)
   || (c =? 8232) || (c =? 8233) || (c =? 8239) || (c =? 8287)
   || (c =? 12288))%N.

(** [FORBIDDEN_CHAR_RE]: a character class holding the less-than and
    greater-than signs, the colon, the double quote, the slash, the
    backslash, the vertical bar, the question mark and the asterisk (code
    points 60, 62, 58, 34, 47, 92, 124, 63 and 42). *)
Definition FORBIDDEN_CHARS : list char :=
  [60; 62; 58; 34; 47; 92; 124; 63; 42]%N.

Definition FORBIDDEN_CHAR_RE (c : char) : bool :=
  existsb (N.eqb c) FORBIDDEN_CHARS.

Definition is_dash (c : char) : bool := N.eqb c ch_dash.

(** [re.sub(cls, '-', s)] for a pattern [cls] that is one character class:
    every match is one character. *)
Definition re_sub_class (cls : char -> bool) (s : str) : str :=
  map (fun c => if cls c then ch_dash else c) s.

(** [re.sub(cls+, '-', s)]: every maximal run of characters of the class is
    replaced by one ['-'].  [in_run] tells that the previous character was
    part of a run that is already replaced. *)
Fixpoint re_sub_runs (cls : char -> bool) (in_run : bool) (s : str) : str :=
  match s with
  | [] => []
  | c :: t =>
      if cls c
      then (if in_run then re_sub_runs cls true t
            else ch_dash :: re_sub_runs cls true t)
      else c :: re_sub_runs cls false t
  end.

(** [re.sub] of the pattern dash, dot, dot, dot, end ([$]) by the empty
    string.  Without [re.MULTILINE], [$] matches at
    the end of the string and just before a newline that ends the string, so
    the pattern matches at the one position where the rest of the string is
    a dash and three dots, alone or followed by one newline. *)
Fixpoint re_sub_ellipsis (s : str) : str :=
  match s with
  | [] => []
  | c :: t =>
      if str_eqb s (lit "-...") then []
      else if str_eqb s (lit "-..." ++ [ch_nl]) then [ch_nl]
      else c :: re_sub_ellipsis t
  end.

(** [s.split(sep)] for a separator of one character; [cur] is the piece
    being read, reversed.  The result has at least one piece. *)
Fixpoint split_aux (sep : char) (cur : str) (s : str) : list str :=
  match s with
  | [] => [rev cur]
  | c :: t =>
      if N.eqb c sep then rev cur :: split_aux sep [] t
      else split_aux sep (c :: cur) t
  end.

Definition split (sep : char) (s : str) : list str := split_aux sep [] s.

(** [s.strip()]: white space removed at both ends. *)
Fixpoint lstrip (s : str) : str :=
  match s with
  | [] => []
  | c :: t => if is_space c then lstrip t else s
  end.

Definition rstrip (s : str) : str := rev (lstrip (rev s)).

Definition strip (s : str) : str := rstrip (lstrip s).

(** ** The item that [save_item] receives, and the image file name *)

Record Item := mkItem {
  item_brand : str;
  item_model : str;
  item_submodel : str;
  item_url : str;
  item_image_url : str
}.

(** Lines 254-258 of [save_item]: the name before the extension. *)
Definition image_stem (brand model submodel : str) : str :=
  let image_name := brand ++ lit "-" ++ model ++ lit "-" ++ submodel in
  let image_name := re_sub_class FORBIDDEN_CHAR_RE image_name in
  let image_name := re_sub_runs is_space false image_name in
  let image_name := re_sub_runs is_dash false image_name in
  re_sub_ellipsis image_name.

(** [item['image_url'].split('.')[-1]] *)
Definition image_ext (image_url : str) : str :=
  last (split ch_dot image_url) [].

(** Lines 254-259 of [save_item]. *)
Definition image_name (item : Item) : str :=
  image_stem (item_brand item) (item_model item) (item_submodel item)
  ++ lit "." ++ image_ext (item_image_url item).


(** ** Constants of the script *)

Definition MAX_RETRIES : Z := 3.
Definition SLEEP_TIME : Z := 2.
Definition HOST_URL : str := lit "https://www.tunisport.es".
Definition BRANDS_URL : str := HOST_URL ++ lit "/catalog/chip-tuning".
Definition PROCESSED_BRANDS_FILENAME : str := lit "processed_brands.txt".
Definition LOG_FOLDER : str := lit "logs".
Definition LOG_NAME : str := lit "scraper.log".

(** [requests.codes.ok] *)
Definition codes_ok : Z := 200.

(** [len(l)] *)
Definition len {A : Type} (l : list A) : Z := Z.of_nat (List.length l).

(** [range(a, b)] *)
Definition range (a b : Z) : list Z :=
  map (fun i => (a + Z.of_nat i)%Z) (seq 0 (Z.to_nat (b - a))).

(** ** Exceptions, log records *)

(** The classes of the exceptions that the script meets, as far as its
    [except] clauses tell them apart. *)
Inductive Exn :=
| OSError
| RequestException
| AttributeError
| TypeError
| IndexError
| KeyError
| UnicodeError
| XlsxWriterException.

(** What [except OSError] catches; [requests.exceptions.RequestException]
    derives from [IOError], which is [OSError]. *)
Definition is_OSError (e : Exn) : bool :=
  match e with
  | OSError | RequestException => true
  | _ => false
  end.

Inductive Result (A : Type) :=
| Ret (a : A)
| Raise (e : Exn).

Arguments Ret {A} a.
Arguments Raise {A} e.

Inductive Level := INFO | WARNING | ERROR.

(** One constructor per logging call of the script, with the values that
    its message interpolates; an [Exn] stands for [str(e)]. *)
Inductive Msg :=
| MsgInitialization                      (* line 71 *)
| MsgBrandsListError (e : Exn)           (* line 76, ends with FATAL_ERROR_STR *)
| MsgTotalBrands (n : Z)                 (* line 80 *)
| MsgAlreadyScraped (n : Z)              (* line 82 *)
| MsgFatalError                          (* line 90, FATAL_ERROR_STR *)
| MsgComplete                            (* line 96 *)
| MsgCantCreateLogFolder                 (* line 114 *)
| MsgHttpError (status : Z) (url : str)  (* line 136 *)
| MsgCantExecute (url : str)             (* line 140 *)
| MsgCantSaveImage                       (* line 151 *)
| MsgImageRetrieval (e : Exn)            (* line 154 *)
| MsgCantCreateFolder (brand : str)      (* line 266 *)
| MsgCantSaveWorkbook (xlsx : str) (e : Exn)    (* line 293 *)
| MsgTotalItems (n : Z)                  (* line 295 *)
| MsgBeginBrand (url : str)              (* line 297 *)
| MsgInitialPageFailed (e : Exn)         (* line 303 *)
| MsgTotalModels (n : Z)                 (* line 306 *)
| MsgCantCreateWorkbook (xlsx : str) (e : Exn)  (* line 311 *)
| MsgScrapingModel (url : str)           (* line 325 *)
| MsgModelFailure (e : Exn)              (* line 343 *)
| MsgCantSaveBrands                      (* line 356 *)
| MsgCantLoadBrands.                     (* line 370 *)

(** ** The worksheet of xlsxwriter

    A worksheet lives in memory until its workbook is closed.  The model
    records the calls made on it, the latest first; the checks that
    xlsxwriter makes on its arguments are outside the model. *)

Inductive Cell :=
| CellText (s : str) (bold : bool)
| CellUrl (url : str) (label : str).

Record Worksheet := mkWorksheet {
  cells : list (Z * Z * Cell);
  row_pixels : list (Z * Z);
  column_pixels : list (Z * Z * Z);
  images : list (Z * Z * str)
}.

Definition empty_worksheet : Worksheet := mkWorksheet [] [] [] [].

(** [worksheet.write(row, col, s)] and [worksheet.write(row, col, s, bold)] *)
Definition ws_write (row col : Z) (s : str) (bold : bool) (ws : Worksheet)
  : Worksheet :=
  mkWorksheet ((row, col, CellText s bold) :: cells ws)
              (row_pixels ws) (column_pixels ws) (images ws).

(** [worksheet.write_url(row, col, url, string=label)] *)
Definition ws_write_url (row col : Z) (url label : str) (ws : Worksheet)
  : Worksheet :=
  mkWorksheet ((row, col, CellUrl url label) :: cells ws)
              (row_pixels ws) (column_pixels ws) (images ws).

(** [worksheet.set_row_pixels(row, height)] *)
Definition ws_set_row_pixels (row height : Z) (ws : Worksheet) : Worksheet :=
  mkWorksheet (cells ws) ((row, height) :: row_pixels ws)
              (column_pixels ws) (images ws).

(** [worksheet.set_column_pixels(first, last, width)] *)
Definition ws_set_column_pixels (first last width : Z) (ws : Worksheet)
  : Worksheet :=
  mkWorksheet (cells ws) (row_pixels ws)
              ((first, last, width) :: column_pixels ws) (images ws).

(** [worksheet.insert_image(row, col, path)] *)
Definition ws_insert_image (row col : Z) (path : str) (ws : Worksheet)
  : Worksheet :=
  mkWorksheet (cells ws) (row_pixels ws) (column_pixels ws)
              ((row, col, path) :: images ws).

(** A call on the worksheet, and what it does to the worksheet when it
    does not raise. *)
Inductive SheetCall :=
| CallWrite (row col : Z) (s : str) (bold : bool)
| CallWriteUrl (row col : Z) (url label : str)
| CallSetRowPixels (row height : Z)
| CallSetColumnPixels (first last width : Z)
| CallInsertImage (row col : Z) (path : str).

Definition sheet_apply (c : SheetCall) (ws : Worksheet) : Worksheet :=
  match c with
  | CallWrite row col s bold => ws_write row col s bold ws
  | CallWriteUrl row col url label => ws_write_url row col url label ws
  | CallSetRowPixels row height => ws_set_row_pixels row height ws
  | CallSetColumnPixels first last width =>
      ws_set_column_pixels first last width ws
  | CallInsertImage row col path => ws_insert_image row col path ws
  end.

(** The width in pixels of a column: the latest setting that covers it. *)
Fixpoint lookup_column (col : Z) (l : list (Z * Z * Z)) : option Z :=
  match l with
  | [] => None
  | (first, last, width) :: t =>
      if ((first <=? col) && (col <=? last))%Z then Some width
      else lookup_column col t
  end.

Definition column_width (ws : Worksheet) (col : Z) : option Z :=
  lookup_column col (column_pixels ws).

(** ** Pages as BeautifulSoup shows them

    The HTML parser is outside the model: a response carries the answers to
    the queries that the script makes on its soup. *)

Record Anchor := mkAnchor {
  a_href : option str;          (* item['href']; None: no such attribute *)
  a_div : option (option str);  (* item.div, and its style attribute *)
  a_p : option str              (* item.p, and its get_text() *)
}.

Record Soup := mkSoup {
  (* get_text() of each a.breadcrump, in document order *)
  breadcrumps : list str;
  (* get_text() of the first span.breadcrump__active *)
  breadcrump_active : option str;
  (* the a elements of the first div.row inside the first div.col-md-10 *)
  listing : option (list Anchor)
}.

Record Response := mkResponse {
  status_code : Z;
  soup : Soup;       (* BeautifulSoup(response.text, 'html.parser') *)
  content : str      (* response.content, one byte per element *)
}.

(** ** The world *)

Record World := mkWorld {
  requested : list str;           (* URLs given to requests.get, latest first *)
  slept : list Z;                 (* arguments of time.sleep, latest first *)
  logged : list (Level * Msg);    (* log records, latest first *)
  files : list (str * str);       (* files written with open, latest first *)
  folders : list str;             (* folders *)
  workbooks : list (str * Worksheet);  (* workbooks closed, latest first *)
  opened : list (str * (Z * Z));  (* images read by Image.open, with the
                                     size found, latest first *)
  log_files : list str            (* files opened by the handlers of the
                                     root logger; what the handlers append
                                     to them is the text of [logged] *)
}.

Inductive Newline := LF | CRLF.

(** What becomes of [with open(path, mode) as f: f.write(data)]. *)
Inductive WriteOutcome :=
| Written                            (* the data are in the file *)
| OpenRaises (e : Exn)               (* open raises; the file is as it was *)
| WriteRaises (e : Exn) (kept : nat).
    (* the file is created or truncated, then writing raises with [kept]
       elements of the data in the file *)

(** What the surroundings answer.  Every oracle that can change over time
    receives the world, which holds the history of the run. *)
Record Env := mkEnv {
  (* requests.get(url, ...): None when it raises a RequestException *)
  requests_get : World -> str -> option Response;
  (* os.mkdir(path) raises OSError *)
  mkdir_raises : World -> str -> bool;
  (* opening path for writing and writing to it *)
  write_outcome : World -> str -> WriteOutcome;
  (* opening path for reading, or reading it, raises: an OSError, or a
     UnicodeError when the bytes are no text *)
  read_raises : World -> str -> option Exn;
  (* Image.open(path).size on a file with these bytes *)
  image_size : str -> Result (Z * Z);
  (* xlsxwriter.Workbook(filename) raises *)
  workbook_raises : World -> str -> bool;
  (* workbook.close() raises *)
  close_raises : World -> str -> bool;
  (* a call on a worksheet raises *)
  sheet_raises : World -> Worksheet -> SheetCall -> option Exn;
  (* os.path.join *)
  os_path_join : str -> str -> str;
  (* os.linesep *)
  os_linesep : Newline
}.

Definition M (A : Type) : Type := World -> World * Result A.

Definition do_request (url : str) (w : World) : World :=
  mkWorld (url :: requested w) (slept w) (logged w) (files w) (folders w)
          (workbooks w) (opened w) (log_files w).

(** [time.sleep(seconds)] *)
Definition sleep (seconds : Z) (w : World) : World :=
  mkWorld (requested w) (seconds :: slept w) (logged w) (files w) (folders w)
          (workbooks w) (opened w) (log_files w).

(** [logging.info], [logging.warning], [logging.error] *)
Definition log (lvl : Level) (m : Msg) (w : World) : World :=
  mkWorld (requested w) (slept w) ((lvl, m) :: logged w) (files w) (folders w)
          (workbooks w) (opened w) (log_files w).

Definition write_file (path data : str) (w : World) : World :=
  mkWorld (requested w) (slept w) (logged w) ((path, data) :: files w)
          (folders w) (workbooks w) (opened w) (log_files w).

Definition mkdir (path : str) (w : World) : World :=
  mkWorld (requested w) (slept w) (logged w) (files w) (path :: folders w)
          (workbooks w) (opened w) (log_files w).

Definition write_workbook (path : str) (ws : Worksheet) (w : World) : World :=
  mkWorld (requested w) (slept w) (logged w) (files w) (folders w)
          ((path, ws) :: workbooks w) (opened w) (log_files w).

Definition record_opened (path : str) (size : Z * Z) (w : World) : World :=
  mkWorld (requested w) (slept w) (logged w) (files w) (folders w)
          (workbooks w) ((path, size) :: opened w) (log_files w).

Definition add_log_file (path : str) (w : World) : World :=
  mkWorld (requested w) (slept w) (logged w) (files w) (folders w)
          (workbooks w) (opened w) (path :: log_files w).

Fixpoint lookup_file (path : str) (l : list (str * str)) : option str :=
  match l with
  | [] => None
  | (p, data) :: t => if str_eqb path p then Some data else lookup_file path t
  end.

(** [os.path.exists(path)]: a path names what was created under the very
    same string. *)
Definition os_path_exists (path : str) (w : World) : bool :=
  str_mem path (map fst (files w)) || str_mem path (folders w)
  || str_mem path (map fst (workbooks w)) || str_mem path (log_files w).

(** [with open(path, mode) as f: f.write(data)], and the exception that
    leaves it. *)
Definition open_write (env : Env) (path data : str) (w : World)
  : World * option Exn :=
  match write_outcome env w path with
  | Written => (write_file path data w, None)
  | OpenRaises e => (w, Some e)
  | WriteRaises e kept => (write_file path (firstn kept data) w, Some e)
  end.

(** ** Logging *)

(** [LOG_PATH], which line 25 computes with [os.path.join]. *)
Definition LOG_PATH (env : Env) : str := os_path_join env LOG_FOLDER LOG_NAME.

(** [setup_logging()].  The handler of the console opens nothing.  The
    handler of the log file opens [LOG_PATH] to append to it; an exception
    there leaves [setup_logging]. *)
Definition setup_logging (env : Env) (w : World) : World * Result unit :=
  let w :=
    if negb (os_path_exists LOG_FOLDER w)
    then
      if mkdir_raises env w LOG_FOLDER
      then log WARNING MsgCantCreateLogFolder w
      else mkdir LOG_FOLDER w
    else w in
  if os_path_exists LOG_FOLDER w
  then
    match write_outcome env w (LOG_PATH env) with
    | OpenRaises e => (w, Raise e)
    | _ => (add_log_file (LOG_PATH env) w, Ret tt)
    end
  else (w, Ret tt).

(** ** Fetcher *)

(** The [for attempt in range(0, MAX_RETRIES)] loop of [get_response]; the
    case of the empty list is the code after the loop. *)
Fixpoint get_response_loop (env : Env) (attempts : list Z) (url : str)
  (w : World) : World * option Response :=
  match attempts with
  | [] => (log ERROR (MsgCantExecute url) w, None)
  | _ :: rest =>
      match requests_get env w url with
      | None =>
          get_response_loop env rest url (sleep SLEEP_TIME (do_request url w))
      | Some r =>
          let w := sleep SLEEP_TIME (do_request url w) in
          if negb (status_code r =? codes_ok)%Z
          then (log ERROR (MsgHttpError (status_code r) url) w, None)
          else (w, Some r)
      end
  end.

(** [get_response(url)]; [params] is [None] at every call of the script and
    is left out. *)
Definition get_response (env : Env) (url : str) (w : World)
  : World * option Response :=
  get_response_loop env (range 0 MAX_RETRIES) url w.

(** ** Image store *)

(** The two [except] clauses of [save_image]. *)
Definition save_image_except (e : Exn) (w : World) : World * bool :=
  if is_OSError e
  then (log ERROR MsgCantSaveImage w, false)
  else (log ERROR (MsgImageRetrieval e) w, false).

(** [save_image(url, filename)].  The file is opened before [r.content] is
    evaluated: when no response came, the file is open (and empty) when
    [r.content] raises. *)
Definition save_image (env : Env) (url filename : str) (w : World)
  : World * bool :=
  let (w, r) := get_response env url w in
  match write_outcome env w filename, r with
  | OpenRaises e, _ => save_image_except e w
  | _, None => save_image_except AttributeError (write_file filename [] w)
  | Written, Some r => (write_file filename (content r) w, true)
  | WriteRaises e kept, Some r =>
      save_image_except e (write_file filename (firstn kept (content r)) w)
  end.

(** ** Page extractor *)

Record PageItem := mkPageItem {
  pi_caption : str;
  pi_url : str;
  pi_image_url : str
}.

Record Page := mkPage {
  previous_caption : str;
  current_caption : str;
  items : list PageItem
}.

Record Brand := mkBrand {
  brand_caption : str;
  brand_url : str
}.

Fixpoint strip_prefix (p s : str) : option str :=
  match p, s with
  | [], _ => Some s
  | x :: p', y :: s' => if N.eqb x y then strip_prefix p' s' else None
  | _ :: _, [] => None
  end.

(** [re.findall(IMAGE_RE, style)].  The pattern is anchored at both ends
    and its one group is [.*], which matches no newline; [$] also matches
    before a newline that ends the string. *)
Definition IMAGE_RE (style : str) : list str :=
  match strip_prefix (lit "background-image:url(") style with
  | None => []
  | Some rest =>
      let body :=
        match rev rest with
        | c :: t => if N.eqb c ch_nl then rev t else rest
        | [] => rest
        end in
      match rev body with
      | c :: t =>
          if N.eqb c ch_rparen && negb (existsb (N.eqb ch_nl) t)
          then [rev t] else []
      | [] => []
      end
  end.

(** The body of the loop over the anchors in [scrape_page]. *)
Definition page_item (item : Anchor) : Result PageItem :=
  match a_href item with
  | None => Raise KeyError
  | Some href =>
      match a_div item with
      | None => Raise TypeError
      | Some None => Raise KeyError
      | Some (Some style) =>
          match IMAGE_RE style with
          | [] => Raise IndexError
          | path :: _ =>
              match a_p item with
              | None => Raise AttributeError
              | Some text =>
                  Ret (mkPageItem (strip text) (HOST_URL ++ href)
                                  (HOST_URL ++ path))
              end
          end
      end
  end.

Fixpoint page_items (anchors : list Anchor) : Result (list PageItem) :=
  match anchors with
  | [] => Ret []
  | item :: rest =>
      match page_item item with
      | Raise e => Raise e
      | Ret new_item =>
          match page_items rest with
          | Raise e => Raise e
          | Ret l => Ret (new_item :: l)
          end
      end
  end.

(** [scrape_page] from the soup on. *)
Definition extract_page (s : Soup) : Result Page :=
  match rev (breadcrumps s) with
  | [] => Raise IndexError
  | previous_caption :: _ =>
      match breadcrump_active s with
      | None => Raise AttributeError
      | Some current_caption =>
          match listing s with
          | None => Raise AttributeError
          | Some anchors =>
              match page_items anchors with
              | Raise e => Raise e
              | Ret l =>
                  Ret (mkPage (strip previous_caption)
                              (strip current_caption) l)
              end
          end
      end
  end.

(** [scrape_page(url)]; [Ret None] is the [return None] of line 179. *)
Definition scrape_page (env : Env) (url : str) : M (option Page) :=
  fun w =>
    let (w, response) := get_response env url w in
    match response with
    | None => (w, Ret None)
    | Some r =>
        match extract_page (soup r) with
        | Raise e => (w, Raise e)
        | Ret p => (w, Ret (Some p))
        end
    end.

(** The body of the loop over the anchors in [get_brands]. *)
Definition brand_item (item : Anchor) : Result Brand :=
  match a_href item with
  | None => Raise KeyError
  | Some href =>
      match a_p item with
      | None => Raise AttributeError
      | Some text => Ret (mkBrand (strip text) (HOST_URL ++ href))
      end
  end.

Fixpoint brand_items (anchors : list Anchor) : Result (list Brand) :=
  match anchors with
  | [] => Ret []
  | item :: rest =>
      match brand_item item with
      | Raise e => Raise e
      | Ret new_item =>
          match brand_items rest with
          | Raise e => Raise e
          | Ret l => Ret (new_item :: l)
          end
      end
  end.

(** [get_brands()]; [Ret None] is the [return None] of line 214. *)
Definition get_brands (env : Env) : M (option (list Brand)) :=
  fun w =>
    let (w, response) := get_response env BRANDS_URL w in
    match response with
    | None => (w, Ret None)
    | Some r =>
        match listing (soup r) with
        | None => (w, Raise AttributeError)
        | Some anchors =>
            match brand_items anchors with
            | Raise e => (w, Raise e)
            | Ret brands => (w, Ret (Some brands))
            end
        end
    end.

(** ** Report writer *)

(** The header row that [scrape_brand] writes (lines 316-319); the captions
    are Cyrillic, given by their code points. *)
Definition header_brand_auto : str :=
  [1041; 1088; 1077; 1085; 1076; 32; 43; 32; 1040; 1074; 1090; 1086]%N.
Definition header_model : str := [1052; 1086; 1076; 1077; 1083; 1100]%N.
Definition header_photo : str := [1060; 1086; 1090; 1086]%N.
Definition header_photo_name : str :=
  [1053; 1072; 1079; 1074; 1072; 1085; 1080; 1077; 32;
   1092; 1086; 1090; 1086]%N.

Definition header_worksheet : Worksheet :=
  ws_write 0 3 header_photo_name true
    (ws_write 0 2 header_photo true
       (ws_write 0 1 header_model true
          (ws_write 0 0 header_brand_auto true empty_worksheet))).

(** Lines 275-281 of [save_item]: the calls on the worksheet for the row of
    one item, in their order; [max_image_width] is the value of line 273. *)
Definition row_calls (item : Item) (image_name image_path : str)
  (image_height row max_image_width : Z) : list SheetCall :=
  let brand_model := item_brand item ++ lit " " ++ item_model item in
  [ CallWriteUrl row 0 (item_url item) brand_model;
    CallWrite row 1 (item_submodel item) false;
    CallSetRowPixels row image_height;
    CallSetColumnPixels 2 2 max_image_width;
    CallInsertImage row 2 image_path;
    CallWrite row 3 image_name false ].

(** Calls made one after the other on a worksheet.  The worksheet is an
    object: when a call raises, it keeps what the calls before did. *)
Fixpoint sheet_calls (env : Env) (w : World) (calls : list SheetCall)
  (worksheet : Worksheet) : Worksheet * option Exn :=
  match calls with
  | [] => (worksheet, None)
  | c :: rest =>
      match sheet_raises env w worksheet c with
      | Some e => (worksheet, Some e)
      | None => sheet_calls env w rest (sheet_apply c worksheet)
      end
  end.

(** [Image.open(path).size]; a path that names no file cannot be
    opened. *)
Definition image_open_size (env : Env) (path : str) (w : World)
  : World * Result (Z * Z) :=
  match lookup_file path (files w) with
  | None => (w, Raise OSError)
  | Some data =>
      match image_size env data with
      | Raise e => (w, Raise e)
      | Ret size => (record_opened path size w, Ret size)
      end
  end.

(** [save_item(item, worksheet, row, max_image_width)].  The worksheet is
    an object that the function changes; the model returns it next to the
    outcome, which is an exception, [None] or the new maximum image
    width. *)
Definition save_item (env : Env) (item : Item) (worksheet : Worksheet)
  (row max_image_width : Z) (w : World)
  : World * (Worksheet * Result (option Z)) :=
  let image_name := image_name item in
  let image_path := os_path_join env (item_brand item) image_name in
  let made :=
    if negb (os_path_exists (item_brand item) w)
    then
      if mkdir_raises env w (item_brand item)
      then (log ERROR (MsgCantCreateFolder (item_brand item)) w, false)
      else (mkdir (item_brand item) w, true)
    else (w, true) in
  let (w, ok) := made in
  if negb ok then (w, (worksheet, Ret None))
  else
    let (w, saved) := save_image env (item_image_url item) image_path w in
    if negb saved then (w, (worksheet, Ret None))
    else
      match image_open_size env image_path w with
      | (w, Raise e) => (w, (worksheet, Raise e))
      | (w, Ret (image_width, image_height)) =>
          let max_image_width := Z.max image_width max_image_width in
          match sheet_calls env w
                  (row_calls item image_name image_path image_height row
                             max_image_width) worksheet with
          | (worksheet, Some e) => (w, (worksheet, Raise e))
          | (worksheet, None) => (w, (worksheet, Ret (Some max_image_width)))
          end
      end.

(** ** One brand *)

(** [finish_brand_scraping()], with the variables of [scrape_brand] that it
    reads.  It returns [False] or, by falling off its end, [None]. *)
Definition finish_brand_scraping (env : Env) (xlsx_filename : str)
  (worksheet : Worksheet) (row_count : Z) (w : World) : World * option bool :=
  if close_raises env w xlsx_filename
  then (log ERROR (MsgCantSaveWorkbook xlsx_filename XlsxWriterException) w,
        Some false)
  else (log INFO (MsgTotalItems row_count)
            (write_workbook xlsx_filename worksheet w), None).

(** How a loop of [scrape_brand] ends. *)
Inductive LoopExit :=
| LoopDone                  (* the loop ran to its end *)
| LoopItemFailed            (* save_item returned None, line 339 *)
| LoopRaised (e : Exn).     (* an exception left the loop *)

(** The variables of [scrape_brand] that its loops change. *)
Record Locals := mkLocals {
  l_worksheet : Worksheet;
  l_row_count : Z;
  l_max_image_width : Z
}.

(** The loop [for submodel in model_page['items']]. *)
Fixpoint submodels_loop (env : Env) (model_page : Page)
  (submodels : list PageItem) (v : Locals) (w : World)
  : World * (LoopExit * Locals) :=
  match submodels with
  | [] => (w, (LoopDone, v))
  | submodel :: rest =>
      let row_count := (l_row_count v + 1)%Z in
      let item_to_save :=
        mkItem (previous_caption model_page) (current_caption model_page)
               (pi_caption submodel) (pi_url submodel)
               (pi_image_url submodel) in
      match save_item env item_to_save (l_worksheet v) row_count
                      (l_max_image_width v) w with
      | (w, (worksheet, Raise e)) =>
          (w, (LoopRaised e,
               mkLocals worksheet row_count (l_max_image_width v)))
      | (w, (worksheet, Ret None)) =>
          (w, (LoopItemFailed,
               mkLocals worksheet row_count (l_max_image_width v)))
      | (w, (worksheet, Ret (Some max_image_width))) =>
          submodels_loop env model_page rest
                         (mkLocals worksheet row_count max_image_width) w
      end
  end.

(** The loop [for model in scrape_page(url)['items']]. *)
Fixpoint models_loop (env : Env) (models : list PageItem) (v : Locals)
  (w : World) : World * (LoopExit * Locals) :=
  match models with
  | [] => (w, (LoopDone, v))
  | model :: rest =>
      let w := log INFO (MsgScrapingModel (pi_url model)) w in
      match scrape_page env (pi_url model) w with
      | (w, Raise e) => (w, (LoopRaised e, v))
      | (w, Ret None) => (w, (LoopRaised TypeError, v))
      | (w, Ret (Some model_page)) =>
          match submodels_loop env model_page (items model_page) v w with
          | (w, (LoopDone, v)) => models_loop env rest v w
          | out => out
          end
      end
  end.

(** The [return] statement by which [scrape_brand] ends. *)
Inductive BrandExit :=
| ExitInitialPage      (* line 304 *)
| ExitWorkbook         (* line 312 *)
| ExitItemFailed       (* line 341 *)
| ExitException        (* line 345 *)
| ExitDone.            (* line 348 *)

(** The value that [scrape_brand] returns at each of them. *)
Definition exit_value (x : BrandExit) : bool :=
  match x with
  | ExitDone => true
  | _ => false
  end.

(** [scrape_brand(url)], with the [return] statement it took.  The calls of
    lines 314-319 have constant arguments. *)
Definition scrape_brand_exit (env : Env) (url : str) (w : World)
  : World * BrandExit :=
  let w := log INFO (MsgBeginBrand url) w in
  match scrape_page env url w with
  | (w, Raise e) => (log ERROR (MsgInitialPageFailed e) w, ExitInitialPage)
  | (w, Ret None) =>
      (log ERROR (MsgInitialPageFailed TypeError) w, ExitInitialPage)
  | (w, Ret (Some scraped_page)) =>
      let xlsx_filename := current_caption scraped_page ++ lit ".xlsx" in
      let w := log INFO (MsgTotalModels (len (items scraped_page))) w in
      if workbook_raises env w xlsx_filename
      then (log ERROR (MsgCantCreateWorkbook xlsx_filename XlsxWriterException)
                w, ExitWorkbook)
      else
        let v := mkLocals header_worksheet 0 0 in
        let looped :=
          match scrape_page env url w with
          | (w, Raise e) => (w, (LoopRaised e, v))
          | (w, Ret None) => (w, (LoopRaised TypeError, v))
          | (w, Ret (Some p)) => models_loop env (items p) v w
          end in
        match looped with
        | (w, (LoopRaised e, v)) =>
            let w := log ERROR (MsgModelFailure e) w in
            let (w, _) :=
              finish_brand_scraping env xlsx_filename (l_worksheet v)
                                    (l_row_count v) w in
            (w, ExitException)
        | (w, (LoopItemFailed, v)) =>
            let (w, _) :=
              finish_brand_scraping env xlsx_filename (l_worksheet v)
                                    (l_row_count v) w in
            (w, ExitItemFailed)
        | (w, (LoopDone, v)) =>
            let (w, _) :=
              finish_brand_scraping env xlsx_filename (l_worksheet v)
                                    (l_row_count v) w in
            (w, ExitDone)
        end
  end.

(** [scrape_brand(url)] *)
Definition scrape_brand (env : Env) (url : str) (w : World) : World * bool :=
  let (w, x) := scrape_brand_exit env url w in (w, exit_value x).

(** ** Progress ledger *)

Definition newline_str (n : Newline) : str :=
  match n with
  | LF => [ch_nl]
  | CRLF => [ch_cr; ch_nl]
  end.

(** What a file opened in text mode for writing stores: every newline
    written becomes [os.linesep]. *)
Definition text_out (n : Newline) (s : str) : str :=
  flat_map (fun c => if N.eqb c ch_nl then newline_str n else [c]) s.

(** What a file opened in text mode for reading gives (universal
    newlines): a carriage return with or without a newline after it is
    read as one newline. *)
Fixpoint text_in (s : str) : str :=
  match s with
  | [] => []
  | c :: t =>
      if N.eqb c ch_cr
      then ch_nl :: match t with
                    | [] => []
                    | d :: t' => if N.eqb d ch_nl then text_in t' else text_in t
                    end
      else c :: text_in t
  end.

(** [f.readlines()] on the text read: the lines with their newline; [cur]
    is the line being read, reversed. *)
Fixpoint readlines_aux (cur : str) (s : str) : list str :=
  match s with
  | [] => match cur with [] => [] | _ => [rev cur] end
  | c :: t =>
      if N.eqb c ch_nl then rev (c :: cur) :: readlines_aux [] t
      else readlines_aux (c :: cur) t
  end.

Definition readlines (s : str) : list str := readlines_aux [] s.

(** [f.writelines(lines)] *)
Definition writelines (lines : list str) : str := List.concat lines.

(** [save_brand_list(brands)].  An exception that is no [OSError] leaves the
    function. *)
Definition save_brand_list (env : Env) (brands : list str) (w : World)
  : World * Result bool :=
  match open_write env PROCESSED_BRANDS_FILENAME
          (text_out (os_linesep env)
             (writelines (map (fun brand => brand ++ [ch_nl]) brands))) w with
  | (w, None) => (w, Ret true)
  | (w, Some e) =>
      if is_OSError e
      then (log WARNING MsgCantSaveBrands w, Ret false)
      else (w, Raise e)
  end.

(** [load_brand_list()].  A path that exists and is no file cannot be
    opened; an exception that is no [OSError] leaves the function. *)
Definition load_brand_list (env : Env) (w : World)
  : World * Result (list str) :=
  if os_path_exists PROCESSED_BRANDS_FILENAME w
  then
    match lookup_file PROCESSED_BRANDS_FILENAME (files w) with
    | None => (log WARNING MsgCantLoadBrands w, Ret [])
    | Some data =>
        match read_raises env w PROCESSED_BRANDS_FILENAME with
        | Some e =>
            if is_OSError e
            then (log WARNING MsgCantLoadBrands w, Ret [])
            else (w, Raise e)
        | None => (w, Ret (map strip (readlines (text_in data))))
        end
    end
  else (w, Ret []).

(** ** Orchestrator *)

(** How [main] ends. *)
Inductive MainExit :=
| MainNoBrands            (* the return of line 78 *)
| MainRaised (e : Exn)    (* an exception leaves main *)
| MainFatal               (* the return of line 91 *)
| MainComplete.           (* the end of main, line 96 *)

(** A run of [main]: how it ended, [processed_brands] at that moment, the
    calls of [scrape_brand] that it made, in their order, with the [return]
    each of them took ([run_scraped]) and with the world each of them
    started in ([run_calls]), and the world it leaves. *)
Record Run := mkRun {
  run_exit : MainExit;
  run_processed : list str;
  run_scraped : list (str * BrandExit);
  run_calls : list (str * World);
  run_world : World
}.

(** The loop [for brand in brands] of [main] and the code after it;
    [scraped] and [calls] are the records of the calls made so far. *)
Fixpoint main_loop (env : Env) (brands : list Brand)
  (processed_brands : list str) (scraped : list (str * BrandExit))
  (calls : list (str * World)) (w : World) : Run :=
  match brands with
  | [] =>
      mkRun MainComplete processed_brands scraped calls
            (log INFO MsgComplete w)
  | brand :: rest =>
      if negb (str_mem (brand_url brand) processed_brands)
      then
        let calls := calls ++ [(brand_url brand, w)] in
        let (w, x) := scrape_brand_exit env (brand_url brand) w in
        let scraped := scraped ++ [(brand_url brand, x)] in
        if exit_value x
        then
          let processed_brands := processed_brands ++ [brand_url brand] in
          match save_brand_list env processed_brands w with
          | (w, Raise e) =>
              mkRun (MainRaised e) processed_brands scraped calls w
          | (w, Ret _) =>
              if (len processed_brands >? 4)%Z
              then mkRun MainComplete processed_brands scraped calls
                         (log INFO MsgComplete w)
              else main_loop env rest processed_brands scraped calls w
          end
        else
          mkRun MainFatal processed_brands scraped calls
                (log ERROR MsgFatalError w)
      else
        if (len processed_brands >? 4)%Z
        then mkRun MainComplete processed_brands scraped calls
                   (log INFO MsgComplete w)
        else main_loop env rest processed_brands scraped calls w
  end.

(** [main()] *)
Definition main (env : Env) (w : World) : Run :=
  match setup_logging env w with
  | (w, Raise e) => mkRun (MainRaised e) [] [] [] w
  | (w, Ret _) =>
      let w := log INFO MsgInitialization w in
      match get_brands env w with
      | (w, Raise e) =>
          mkRun MainNoBrands [] [] [] (log ERROR (MsgBrandsListError e) w)
      | (w, Ret None) => mkRun (MainRaised TypeError) [] [] [] w
      | (w, Ret (Some brands)) =>
          let w := log INFO (MsgTotalBrands (len brands)) w in
          match load_brand_list env w with
          | (w, Raise e) => mkRun (MainRaised e) [] [] [] w
          | (w, Ret processed_brands) =>
              let w :=
                log INFO (MsgAlreadyScraped (len processed_brands)) w in
              main_loop env brands processed_brands [] [] w
          end
      end
  end.

(** ** The properties of the specification, as it words them *)

(** What [main] reads at its start: the brands of the catalogue page and the
    ledger; [None] when the run ends before it has both. *)
Definition main_inputs (env : Env) (w : World)
  : option (list Brand * list str) :=
  match setup_logging env w with
  | (w, Ret _) =>
      match get_brands env (log INFO MsgInitialization w) with
      | (w, Ret (Some brands)) =>
          match load_brand_list env
                  (log INFO (MsgTotalBrands (len brands)) w) with
          | (_, Ret processed_brands) => Some (brands, processed_brands)
          | _ => None
          end
      | _ => None
      end
  | _ => None
  end.



(** Unique file names, as the specification words it. *)
Definition image_names_injective_as_stated : Prop :=
  forall i1 i2 : Item,
    item_brand i1 = item_brand i2 ->
    (item_model i1, item_submodel i1) <> (item_model i2, item_submodel i2) ->
    image_name i1 <> image_name i2.

(** A caption that the substitutions of [save_item] leave as it is: no
    forbidden character, no white space, no dash. *)
Definition plain_char (c : char) : bool :=
  negb (FORBIDDEN_CHAR_RE c) && negb (is_space c) && negb (is_dash c).

Definition plain (s : str) : Prop := Forall (fun c => plain_char c = true) s.

Definition has_forbidden (s : str) : bool := existsb FORBIDDEN_CHAR_RE s.

(** Two dashes next to each other. *)
Fixpoint has_double_dash (s : str) : bool :=
  match s with
  | [] => false
  | c :: t =>
      match t with
      | [] => false
      | d :: _ => (is_dash c && is_dash d) || has_double_dash t
      end
  end.

(** The item of the sanitation example; the example leaves its two URLs
    open. *)
Definition example_item (url image_url : str) : Item :=
  mkItem (lit "A/B") (lit "C:D") (lit "E ") url image_url.

(** File name sanitation, as the specification words it. *)
Definition sanitation_as_stated : Prop :=
  forall url image_url ext,
    (exists before, image_url = before ++ [ch_dot] ++ ext) ->
    ~ In ch_dot ext ->
    has_forbidden (image_name (example_item url image_url)) = false /\
    has_double_dash (image_name (example_item url image_url)) = false /\
    exists stem,
      image_name (example_item url image_url) = stem ++ [ch_dot] ++ ext.

(** The item that [scrape_brand] builds for a submodel of a model page. *)
Definition item_of (page : Page) (submodel : PageItem) : Item :=
  mkItem (previous_caption page) (current_caption page)
         (pi_caption submodel) (pi_url submodel) (pi_image_url submodel).

(** [m] is the maximum of the non-empty list [l]. *)
Definition is_maximum (m : Z) (l : list Z) : Prop :=
  In m l /\ forall x, In x l -> (x <= m)%Z.

(** The widths of the images read, the latest first. *)
Definition image_widths (l : list (str * (Z * Z))) : list Z :=
  map (fun o => fst (snd o)) l.

(** In the loop over the submodels of a model page, a call of [save_item]
    returns [None]: the loop runs through the submodels before it and the
    call for the next one returns [None]. *)
Definition save_item_none_in_submodels (env : Env) (page : Page)
  (submodels : list PageItem) (v : Locals) (w : World) : Prop :=
  exists before submodel after w0 v0 w1 ws,
    submodels = before ++ submodel :: after /\
    submodels_loop env page before v w = (w0, (LoopDone, v0)) /\
    save_item env (item_of page submodel) (l_worksheet v0)
              (l_row_count v0 + 1) (l_max_image_width v0) w0
    = (w1, (ws, Ret None)).

(** The same in the loop over the models. *)
Definition save_item_none_in_models (env : Env) (models : list PageItem)
  (v : Locals) (w : World) : Prop :=
  exists before model after w0 v0 w1 page,
    models = before ++ model :: after /\
    models_loop env before v w = (w0, (LoopDone, v0)) /\
    scrape_page env (pi_url model)
                (log INFO (MsgScrapingModel (pi_url model)) w0)
    = (w1, Ret (Some page)) /\
    save_item_none_in_submodels env page (items page) v0 w1.

(** In the call [scrape_brand(url)] that starts in [w], a call of
    [save_item] returns [None]. *)
Definition save_item_none_in_brand (env : Env) (url : str) (w : World)
  : Prop :=
  exists w1 scraped_page w2 p,
    scrape_page env url (log INFO (MsgBeginBrand url) w)
    = (w1, Ret (Some scraped_page)) /\
    workbook_raises env
      (log INFO (MsgTotalModels (len (items scraped_page))) w1)
      (current_caption scraped_page ++ lit ".xlsx") = false /\
    scrape_page env url
                (log INFO (MsgTotalModels (len (items scraped_page))) w1)
    = (w2, Ret (Some p)) /\
    save_item_none_in_models env (items p) (mkLocals header_worksheet 0 0) w2.

(** The ledger file holds the URL: it is one of the entries that
    [load_brand_list] makes of the text of the file. *)
Definition ledger_holds (url : str) (w : World) : Prop :=
  exists data,
    lookup_file PROCESSED_BRANDS_FILENAME (files w) = Some data /\
    In url (map strip (readlines (text_in data))).

(** Atomic brand completion, as the specification words it, for the calls
    of [scrape_brand] of a run: after the run the ledger, in memory and on
    the disk, is without the URL of a brand for which [save_item] returned
    [None], and that call of [scrape_brand] is the last of the run. *)
Definition atomic_brand_completion_as_stated (env : Env) (w : World) : Prop :=
  forall url w1,
    In (url, w1) (run_calls (main env w)) ->
    save_item_none_in_brand env url w1 ->
    ~ In url (run_processed (main env w)) /\
    ~ ledger_holds url (run_world (main env w)) /\
    exists earlier, run_calls (main env w) = earlier ++ [(url, w1)].

(** ** Fixtures: a small site and its surroundings *)

Definition world0 : World := mkWorld [] [] [] [] [] [] [] [].

Fixpoint lookup_response (url : str) (site : list (str * Response))
  : option Response :=
  match site with
  | [] => None
  | (u, r) :: t => if str_eqb url u then Some r else lookup_response url t
  end.

(** An image of the fixtures holds its width and its height as its two
    bytes. *)
Definition fake_image_size (data : str) : Result (Z * Z) :=
  match data with
  | [width; height] => Ret (Z.of_N width, Z.of_N height)
  | _ => Raise OSError
  end.

(** Surroundings in which the site answers from a table, every URL outside
    the table is unreachable and the disk never fails; [closing_raises]
    tells whether closing a workbook raises. *)
Definition fake_env (site : list (str * Response)) (closing_raises : bool)
  : Env :=
  mkEnv (fun _ url => lookup_response url site)
        (fun _ _ => false) (fun _ _ => Written) (fun _ _ => None)
        fake_image_size
        (fun _ _ => false) (fun _ _ => closing_raises)
        (fun _ _ _ => None)
        (fun a b => a ++ lit "/" ++ b) LF.

(** The same surroundings with a ledger file that cannot be read. *)
Definition unreadable_env (site : list (str * Response)) : Env :=
  mkEnv (fun _ url => lookup_response url site)
        (fun _ _ => false) (fun _ _ => Written) (fun _ _ => Some OSError)
        fake_image_size
        (fun _ _ => false) (fun _ _ => false)
        (fun _ _ _ => None)
        (fun a b => a ++ lit "/" ++ b) LF.

Definition no_soup : Soup := mkSoup [] None None.

Definition html (crumbs : list str) (active : str) (anchors : list Anchor)
  : Response :=
  mkResponse 200 (mkSoup crumbs (Some active) (Some anchors)) [].

Definition picture (width height : N) : Response :=
  mkResponse 200 no_soup [width; height].

Definition tile (href image caption : string) : Anchor :=
  mkAnchor (Some (lit href))
           (Some (Some (lit "background-image:url(" ++ lit image ++ lit ")")))
           (Some (lit caption)).

Definition at_host (path : string) : str := HOST_URL ++ lit path.

(** One brand with one model and five submodels; the image of the third
    submodel is not on the site. *)
Definition audi_site : list (str * Response) :=
  [ (BRANDS_URL,
     html [lit "Home"] (lit "Chip tuning") [tile "/audi" "/img/audi.png" " Audi "]);
    (at_host "/audi",
     html [lit "Home"; lit "Chip tuning"] (lit "Audi")
          [tile "/audi/a4" "/img/a4.png" "A4"]);
    (at_host "/audi/a4",
     html [lit "Chip tuning"; lit "Audi"] (lit "A4")
          [tile "/audi/a4/s1" "/img/s1.jpg" "1.8 T";
           tile "/audi/a4/s2" "/img/s2.jpg" "2.0 TDI";
           tile "/audi/a4/s3" "/img/s3.jpg" "2.5 TDI";
           tile "/audi/a4/s4" "/img/s4.jpg" "3.0 TDI";
           tile "/audi/a4/s5" "/img/s5.jpg" "RS4"]);
    (at_host "/img/s1.jpg", picture 100 60);
    (at_host "/img/s2.jpg", picture 50 60);
    (at_host "/img/s4.jpg", picture 200 60);
    (at_host "/img/s5.jpg", picture 10 60) ].

(** The same site with all its images. *)
Definition audi_site_whole : list (str * Response) :=
  (at_host "/img/s3.jpg", picture 120 60) :: audi_site.

(** Six brands without models. *)
Definition six_brands : list string :=
  ["/b1"; "/b2"; "/b3"; "/b4"; "/b5"; "/b6"]%string.

Definition six_site : list (str * Response) :=
  (BRANDS_URL,
   html [lit "Home"] (lit "Chip tuning")
        (map (fun b => tile b "/img/b.png" b) six_brands))
  :: map (fun b => (at_host b, html [lit "Home"; lit "Chip tuning"] (lit b) []))
         six_brands.

(** A world whose ledger file holds the given text. *)
Definition world_with_ledger (text : str) : World :=
  mkWorld [] [] [] [(PROCESSED_BRANDS_FILENAME, text)] [] [] [] [].

(** One brand with one model and four submodels, whose images are 100, 50,
    200 and 10 pixels wide. *)
Definition widths_site : list (str * Response) :=
  [ (BRANDS_URL,
     html [lit "Home"] (lit "Chip tuning") [tile "/audi" "/img/audi.png" "Audi"]);
    (at_host "/audi",
     html [lit "Home"; lit "Chip tuning"] (lit "Audi")
          [tile "/audi/a4" "/img/a4.png" "A4"]);
    (at_host "/audi/a4",
     html [lit "Chip tuning"; lit "Audi"] (lit "A4")
          [tile "/audi/a4/s1" "/img/s1.jpg" "1.8 T";
           tile "/audi/a4/s2" "/img/s2.jpg" "2.0 TDI";
           tile "/audi/a4/s3" "/img/s3.jpg" "3.0 TDI";
           tile "/audi/a4/s4" "/img/s4.jpg" "RS4"]);
    (at_host "/img/s1.jpg", picture 100 60);
    (at_host "/img/s2.jpg", picture 50 60);
    (at_host "/img/s3.jpg", picture 200 60);
    (at_host "/img/s4.jpg", picture 10 60) ].

(** The site [audi_site] with one more brand, listed first, that has no
    model. *)
Definition two_site : list (str * Response) :=
  [ (BRANDS_URL,
     html [lit "Home"] (lit "Chip tuning")
          [tile "/b1" "/img/b1.png" "B1"; tile "/audi" "/img/audi.png" "Audi"]);
    (at_host "/b1", html [lit "Home"; lit "Chip tuning"] (lit "B1") []) ]
  ++ audi_site.

(** Two brands whose URLs differ by a space at the end: the first has no
    model, the second is the brand of [audi_site]. *)
Definition spaced_site : list (str * Response) :=
  [ (BRANDS_URL,
     html [lit "Home"] (lit "Chip tuning")
          [tile "/audi " "/img/b1.png" "B1"; tile "/audi" "/img/audi.png" "Audi"]);
    (at_host "/audi ", html [lit "Home"; lit "Chip tuning"] (lit "B1") []) ]
  ++ audi_site.

(** Two brands of which the URL of the second begins the URL of the first:
    the first has no model, the second is the brand of [audi_site]. *)
Definition longer_site : list (str * Response) :=
  [ (BRANDS_URL,
     html [lit "Home"] (lit "Chip tuning")
          [tile "/audi2" "/img/b1.png" "B1"; tile "/audi" "/img/audi.png" "Audi"]);
    (at_host "/audi2", html [lit "Home"; lit "Chip tuning"] (lit "B1") []) ]
  ++ audi_site.

(** Surroundings like [fake_env] in which writing the ledger raises with
    [kept] characters in the file. *)
Definition partial_env (site : list (str * Response)) (kept : nat) : Env :=
  mkEnv (fun _ url => lookup_response url site)
        (fun _ _ => false)
        (fun _ path =>
           if str_eqb path PROCESSED_BRANDS_FILENAME
           then WriteRaises OSError kept else Written)
        (fun _ _ => None)
        fake_image_size
        (fun _ _ => false) (fun _ _ => false)
        (fun _ _ _ => None)
        (fun a b => a ++ lit "/" ++ b) LF.

(** The world in which the call of [scrape_brand] for the second brand
    starts in the run on [two_site] with no ledger. *)
Definition failing_call : World :=
  match run_calls (main (fake_env two_site false) world0) with
  | _ :: (_, w) :: _ => w
  | _ => world0
  end.

(** The world in which the one call of [scrape_brand] starts in the run on
    [audi_site] with a ledger that holds the brand and cannot be read. *)
Definition unreadable_call : World :=
  match run_calls (main (unreadable_env audi_site)
                        (world_with_ledger (at_host "/audi" ++ [ch_nl]))) with
  | (_, w) :: _ => w
  | [] => world0
  end.

(** The world that scraping this brand leaves, and the worksheet of the
    workbook written. *)
Definition widths_world : World :=
  fst (scrape_brand_exit (fake_env widths_site false) (at_host "/audi") world0).

Definition widths_sheet : Worksheet :=
  match workbooks widths_world with
  | (_, ws) :: _ => ws
  | [] => empty_worksheet
  end.

(** ** Auxiliary notions of the proofs *)

Definition no_space (s : str) : Prop := Forall (fun c => is_space c = false) s.

(** No character of the string is in the class. *)
Definition outside (cls : char -> bool) (s : str) : Prop :=
  Forall (fun c => cls c = false) s.

(** What the brand and the dash after it become in the name of an image. *)
Definition stem_prefix (b : str) : str :=
  re_sub_runs is_dash false
    (re_sub_runs is_space false (re_sub_class FORBIDDEN_CHAR_RE b)
     ++ [ch_dash]).

(** The world after [k] attempts of [get_response] on the URL that did not
    end the call: a request and a sleep each. *)
Definition retry_world (url : str) (k : nat) (w : World) : World :=
  Nat.iter k (fun w => sleep SLEEP_TIME (do_request url w)) w.

(** Surroundings like [fake_env] whose network is down for the first
    [failures] requests of the run. *)
Definition flaky_env (failures : nat) (site : list (str * Response)) : Env :=
  mkEnv (fun w url =>
           if (List.length (requested w) <? failures)%nat then None
           else lookup_response url site)
        (fun _ _ => false) (fun _ _ => Written) (fun _ _ => None)
        fake_image_size
        (fun _ _ => false) (fun _ _ => false)
        (fun _ _ _ => None)
        (fun a b => a ++ lit "/" ++ b) LF.

(** The item that [scrape_page] makes of one anchor of the listing. *)
Definition item_from_anchor (a : Anchor) (i : PageItem) : Prop :=
  exists href style path others text,
    a_href a = Some href /\
    a_div a = Some (Some style) /\
    IMAGE_RE style = path :: others /\
    a_p a = Some text /\
    i = mkPageItem (strip text) (HOST_URL ++ href) (HOST_URL ++ path).

(** The brand that [get_brands] makes of one anchor of the listing. *)
Definition brand_from_anchor (a : Anchor) (b : Brand) : Prop :=
  exists href text,
    a_href a = Some href /\
    a_p a = Some text /\
    b = mkBrand (strip text) (HOST_URL ++ href).

(** The call of [scrape_brand] returned [True]. *)
Definition call_ok (e : str * BrandExit) : bool := exit_value (snd e).

(** The text that [save_brand_list] stores for a ledger. *)
Definition ledger_text (env : Env) (brands : list str) : str :=
  text_out (os_linesep env)
           (writelines (map (fun brand => brand ++ [ch_nl]) brands)).

(** The URL is the text of [HOST_URL] followed by some text. *)
Definition begins_with_HOST_URL (url : str) : Prop :=
  exists rest, url = HOST_URL ++ rest.

(** From [w] to [w'], requests were made on URLs that satisfy [P], with one
    sleep of [SLEEP_TIME] for each of them, and nothing else happened on
    the network or to the clock. *)
Definition crawled (P : str -> Prop) (w w' : World) : Prop :=
  exists urls,
    requested w' = urls ++ requested w /\
    slept w' = repeat SLEEP_TIME (List.length urls) ++ slept w /\
    Forall P urls.

(** How many of the requests were for the URL. *)
Definition count_url (url : str) (l : list str) : nat :=
  List.length (filter (str_eqb url) l).

(** From [w] to [w'], at least [k] requests for [url] were made. *)
Definition fetched (url : str) (k : nat) (w w' : World) : Prop :=
  (k + count_url url (requested w) <= count_url url (requested w'))%nat.

(** The number of rows with an image in a worksheet. *)
Definition rows_written (ws : Worksheet) : Z := len (images ws).

(** The rows written against [row_count] when a loop of [scrape_brand]
    ends: equal when the loop ran to its end, one row short when
    [save_item] returned [None] (the item is counted, its row is not
    written), and one or the other when an exception left the loop. *)
Definition loop_rows (x : LoopExit) (v : Locals) : Prop :=
  match x with
  | LoopDone => rows_written (l_worksheet v) = l_row_count v
  | LoopItemFailed => (rows_written (l_worksheet v) + 1)%Z = l_row_count v
  | LoopRaised _ =>
      rows_written (l_worksheet v) = l_row_count v \/
      (rows_written (l_worksheet v) + 1)%Z = l_row_count v
  end.

(** The same for the [return] statements of [scrape_brand] that follow the
    loops, against the total that [finish_brand_scraping] logs. *)
Definition exit_rows (x : BrandExit) (ws : Worksheet) (total : Z) : Prop :=
  match x with
  | ExitDone => rows_written ws = total
  | ExitItemFailed => (rows_written ws + 1)%Z = total
  | _ => rows_written ws = total \/ (rows_written ws + 1)%Z = total
  end.

(** The maximum image widths that a sequence of rows gives, the latest
    first like the widths; [a] is the maximum before the first row. *)
Fixpoint running_maxima (widths : list Z) (a : Z) : list Z :=
  match widths with
  | [] => []
  | x :: older => Z.max x (hd a (running_maxima older a)) :: running_maxima older a
  end.

(** An entry that comes back from the ledger file as it is: no newline, no
    carriage return, and no white space at its ends. *)
Definition ledger_entry (s : str) : Prop :=
  ~ In ch_nl s /\ ~ In ch_cr s /\ strip s = s.

(** An image read has the size that the decoder found in some file. *)
Definition decoded (env : Env) (o : str * (Z * Z)) : Prop :=
  exists data, image_size env data = Ret (snd o).

(** From [v] and [w] to [v'] and [w'], the rows whose images were read
    ([seen], the latest first) were appended: each of them set the width of
    column 2 to the maximum so far. *)
Definition appended (env : Env) (v : Locals) (w : World) (v' : Locals)
  (w' : World) : Prop :=
  exists seen,
    opened w' = seen ++ opened w /\
    Forall (decoded env) seen /\
    column_pixels (l_worksheet v')
    = map (fun m => (2, 2, m)%Z)
          (running_maxima (image_widths seen) (l_max_image_width v))
      ++ column_pixels (l_worksheet v) /\
    l_max_image_width v'
    = hd (l_max_image_width v)
         (running_maxima (image_widths seen) (l_max_image_width v)) /\
    workbooks w' = workbooks w.
(** * Properties *)

Unset Implicit Arguments.

(** ** Strings: basic facts *)

Lemma str_eqb_eq (a b : str) : str_eqb a b = true <-> a = b.
Proof.
  revert b.
  induction a as [|x a IH]; intros [|y b]; simpl; split; intro H;
    try reflexivity; try discriminate.
  - apply andb_true_iff in H. destruct H as [Hx Ha].
    apply N.eqb_eq in Hx. apply IH in Ha. now subst.
  - injection H as -> ->. rewrite N.eqb_refl. simpl. now apply IH.
Qed.

Lemma str_eqb_refl (a : str) : str_eqb a a = true.
Proof. now apply str_eqb_eq. Qed.

Lemma str_eqb_neq (a b : str) : str_eqb a b = false <-> a <> b.
Proof.
  split.
  - intros H E. apply str_eqb_eq in E. congruence.
  - intro H. destruct (str_eqb a b) eqn:E; [|reflexivity].
    apply str_eqb_eq in E. contradiction.
Qed.

Lemma str_mem_In (x : str) (l : list str) : str_mem x l = true <-> In x l.
Proof.
  unfold str_mem. rewrite existsb_exists. split.
  - intros [y [Hy E]]. apply str_eqb_eq in E. now subst.
  - intro H. exists x. split; [assumption | apply str_eqb_refl].
Qed.

Lemma str_mem_not_In (x : str) (l : list str) :
  str_mem x l = false <-> ~ In x l.
Proof.
  rewrite <- str_mem_In. destruct (str_mem x l); split; intro H;
    try reflexivity; try discriminate; try congruence.
Qed.

(** ** Fetcher *)

(** C5.  When every attempt of [requests.get] on the URL raises a transport
    error, [get_response] makes exactly [MAX_RETRIES] = 3 requests, sleeps
    after each of them, logs that the request cannot be executed and returns
    [None]; being a total function, it ends. *)
Theorem get_response_retry_ceiling (env : Env) (url : str) (w : World)
  (Hdown : forall w', requests_get env w' url = None) :
  snd (get_response env url w) = None /\
  requested (fst (get_response env url w))
  = repeat url (Z.to_nat MAX_RETRIES) ++ requested w /\
  List.length (requested (fst (get_response env url w)))
  = (3 + List.length (requested w))%nat /\
  slept (fst (get_response env url w))
  = [SLEEP_TIME; SLEEP_TIME; SLEEP_TIME] ++ slept w /\
  logged (fst (get_response env url w))
  = (ERROR, MsgCantExecute url) :: logged w.
Proof.
  unfold get_response. simpl.
  rewrite !Hdown. simpl.
  repeat split; reflexivity.
Qed.

Lemma get_response_retry_ceiling_witness :
  snd (get_response (fake_env [] false) BRANDS_URL world0) = None /\
  requested (fst (get_response (fake_env [] false) BRANDS_URL world0))
  = repeat BRANDS_URL (Z.to_nat MAX_RETRIES) ++ requested world0 /\
  List.length (requested (fst (get_response (fake_env [] false) BRANDS_URL
                                            world0)))
  = (3 + List.length (requested world0))%nat /\
  slept (fst (get_response (fake_env [] false) BRANDS_URL world0))
  = [SLEEP_TIME; SLEEP_TIME; SLEEP_TIME] ++ slept world0 /\
  logged (fst (get_response (fake_env [] false) BRANDS_URL world0))
  = (ERROR, MsgCantExecute BRANDS_URL) :: logged world0.
Proof.
  apply (get_response_retry_ceiling (fake_env [] false) BRANDS_URL world0).
  intro w'. reflexivity.
Defined.

(** C6.  When the first attempt gets a response whose status is not 200,
    [get_response] makes that one request, sleeps once, logs the status and
    returns [None] without another attempt. *)
Theorem get_response_status_not_retried (env : Env) (url : str) (w : World)
  (r : Response)
  (Hfirst : requests_get env w url = Some r)
  (Hstatus : status_code r <> codes_ok) :
  snd (get_response env url w) = None /\
  requested (fst (get_response env url w)) = url :: requested w /\
  slept (fst (get_response env url w)) = SLEEP_TIME :: slept w /\
  logged (fst (get_response env url w))
  = (ERROR, MsgHttpError (status_code r) url) :: logged w.
Proof.
  unfold get_response. simpl. rewrite Hfirst.
  destruct (Z.eqb_spec (status_code r) codes_ok) as [E|_];
    [contradiction|].
  simpl. repeat split; reflexivity.
Qed.

Lemma get_response_status_not_retried_witness :
  snd (get_response
         (fake_env [(BRANDS_URL, mkResponse 404 no_soup [])] false)
         BRANDS_URL world0) = None /\
  requested (fst (get_response
                    (fake_env [(BRANDS_URL, mkResponse 404 no_soup [])] false)
                    BRANDS_URL world0)) = BRANDS_URL :: requested world0 /\
  slept (fst (get_response
                (fake_env [(BRANDS_URL, mkResponse 404 no_soup [])] false)
                BRANDS_URL world0)) = SLEEP_TIME :: slept world0 /\
  logged (fst (get_response
                 (fake_env [(BRANDS_URL, mkResponse 404 no_soup [])] false)
                 BRANDS_URL world0))
  = (ERROR, MsgHttpError 404 BRANDS_URL) :: logged world0.
Proof.
  apply (get_response_status_not_retried
           (fake_env [(BRANDS_URL, mkResponse 404 no_soup [])] false)
           BRANDS_URL world0 (mkResponse 404 no_soup [])).
  - reflexivity.
  - discriminate.
Defined.
(** ** What a call leaves untouched *)

Section Frames.

Variable env : Env.

(** What [get_response] does to the world: some requests on the URL, at
    most one per attempt and at least one when there is a response; the
    disk is not touched. *)
Lemma get_response_loop_effect (attempts : list Z) (url : str) :
  forall w : World,
    exists n,
      (n <= List.length attempts)%nat /\
      (snd (get_response_loop env attempts url w) <> None -> (1 <= n)%nat) /\
      requested (fst (get_response_loop env attempts url w))
      = repeat url n ++ requested w /\
      files (fst (get_response_loop env attempts url w)) = files w /\
      folders (fst (get_response_loop env attempts url w)) = folders w /\
      workbooks (fst (get_response_loop env attempts url w)) = workbooks w /\
      opened (fst (get_response_loop env attempts url w)) = opened w /\
      log_files (fst (get_response_loop env attempts url w)) = log_files w.
Proof.
  induction attempts as [|a rest IH]; intro w; cbn [get_response_loop].
  - exists 0%nat. simpl. repeat split; try reflexivity; try lia. congruence.
  - destruct (requests_get env w url) as [r|].
    + exists 1%nat.
      destruct (negb (status_code r =? codes_ok)%Z); simpl;
        repeat split; try reflexivity; lia.
    + destruct (IH (sleep SLEEP_TIME (do_request url w)))
        as [n [Hn [Hsome [Hreq [Hf [Hd [Hb [Ho Hl]]]]]]]].
      exists (S n). simpl in *.
      repeat split; try assumption; try lia.
      rewrite Hreq. clear. induction n as [|n IHn]; simpl; congruence.
Qed.

(** [get_response] leaves the disk, the workbooks and the images read as
    they are. *)
Lemma get_response_disk (url : str) (w w' : World) (r : option Response) :
  get_response env url w = (w', r) ->
  files w' = files w /\ folders w' = folders w /\
  workbooks w' = workbooks w /\ opened w' = opened w /\
  log_files w' = log_files w.
Proof.
  intro H. unfold get_response in H.
  destruct (get_response_loop_effect (range 0 MAX_RETRIES) url w)
    as [n [_ [_ [_ [Hf [Hd [Hb [Ho Hl]]]]]]]].
  rewrite H in *. cbn [fst] in *. repeat split; assumption.
Qed.

Lemma save_image_except_disk (e : Exn) (w : World) :
  files (fst (save_image_except e w)) = files w /\
  folders (fst (save_image_except e w)) = folders w /\
  workbooks (fst (save_image_except e w)) = workbooks w /\
  opened (fst (save_image_except e w)) = opened w /\
  log_files (fst (save_image_except e w)) = log_files w /\
  snd (save_image_except e w) = false.
Proof.
  unfold save_image_except. destruct (is_OSError e); repeat split.
Qed.

(** [save_image] writes at most the file of the image. *)
Lemma save_image_disk (url path : str) (w w' : World) (saved : bool) :
  save_image env url path w = (w', saved) ->
  (files w' = files w \/ exists data, files w' = (path, data) :: files w) /\
  folders w' = folders w /\ workbooks w' = workbooks w /\
  opened w' = opened w /\ log_files w' = log_files w.
Proof.
  unfold save_image.
  destruct (get_response env url w) as [w1 r] eqn:Hget.
  apply get_response_disk in Hget.
  destruct Hget as [Hf [Hd [Hb [Ho Hl]]]].
  destruct (write_outcome env w1 path) as [|e|e kept], r as [r|];
    intro H;
    try (injection H as <- <-; cbn [files folders workbooks opened log_files
                                    write_file];
         rewrite Hf; repeat split; try assumption; right; eexists;
         reflexivity).
  - destruct (save_image_except_disk AttributeError (write_file path [] w1))
      as [Ef [Ed [Eb [Eo [El _]]]]].
    rewrite H in *. cbn [fst files folders workbooks opened log_files
                         write_file] in *.
    rewrite Ef, Ed, Eb, Eo, El, Hf. repeat split; try assumption.
    right. eexists. reflexivity.
  - destruct (save_image_except_disk e w1) as [Ef [Ed [Eb [Eo [El _]]]]].
    rewrite H in *. cbn [fst] in *.
    rewrite Ef, Ed, Eb, Eo, El. repeat split; try assumption. now left.
  - destruct (save_image_except_disk e w1) as [Ef [Ed [Eb [Eo [El _]]]]].
    rewrite H in *. cbn [fst] in *.
    rewrite Ef, Ed, Eb, Eo, El. repeat split; try assumption. now left.
  - destruct (save_image_except_disk e
                (write_file path (firstn kept (content r)) w1))
      as [Ef [Ed [Eb [Eo [El _]]]]].
    rewrite H in *. cbn [fst files folders workbooks opened log_files
                         write_file] in *.
    rewrite Ef, Ed, Eb, Eo, El, Hf. repeat split; try assumption.
    right. eexists. reflexivity.
  - destruct (save_image_except_disk AttributeError (write_file path [] w1))
      as [Ef [Ed [Eb [Eo [El _]]]]].
    rewrite H in *. cbn [fst files folders workbooks opened log_files
                         write_file] in *.
    rewrite Ef, Ed, Eb, Eo, El, Hf. repeat split; try assumption.
    right. eexists. reflexivity.
Qed.

(** [scrape_page] leaves the disk as it is. *)
Lemma scrape_page_disk (url : str) (w w' : World) (res : Result (option Page)) :
  scrape_page env url w = (w', res) ->
  files w' = files w /\ folders w' = folders w /\
  workbooks w' = workbooks w /\ opened w' = opened w /\
  log_files w' = log_files w.
Proof.
  unfold scrape_page.
  destruct (get_response env url w) as [w1 r] eqn:Hget.
  apply get_response_disk in Hget.
  destruct r as [r|]; [destruct (extract_page (soup r))|];
    intro H; injection H as <- _; assumption.
Qed.

(** Calls that do not raise do to the worksheet what each of them does. *)
Lemma sheet_calls_done (w : World) (calls : list SheetCall) :
  forall ws ws' : Worksheet,
    sheet_calls env w calls ws = (ws', None) ->
    ws' = fold_left (fun ws c => sheet_apply c ws) calls ws.
Proof.
  induction calls as [|c rest IH]; intros ws ws' H; cbn [sheet_calls] in H.
  - now injection H as <-.
  - destruct (sheet_raises env w ws c); [discriminate|].
    cbn [fold_left]. now apply IH.
Qed.

(** Calls of which one raises do to the worksheet what the calls before it
    do. *)
Lemma sheet_calls_raised (w : World) (calls : list SheetCall) :
  forall (ws ws' : Worksheet) (e : Exn),
    sheet_calls env w calls ws = (ws', Some e) ->
    exists done c rest,
      calls = done ++ c :: rest /\
      ws' = fold_left (fun ws c => sheet_apply c ws) done ws /\
      sheet_raises env w ws' c = Some e.
Proof.
  induction calls as [|c rest IH]; intros ws ws' e H; cbn [sheet_calls] in H.
  - discriminate.
  - destruct (sheet_raises env w ws c) as [e'|] eqn:Hc.
    + injection H as <- <-. exists [], c, rest. repeat split. assumption.
    + apply IH in H. destruct H as [done [c' [rest' [-> [-> Hr]]]]].
      exists (c :: done), c', rest'. repeat split. assumption.
Qed.

(** [Image.open] reads the file that is on the disk under the path. *)
Lemma image_open_size_ret (path : str) (w w' : World) (size : Z * Z) :
  image_open_size env path w = (w', Ret size) ->
  w' = record_opened path size w /\
  exists data,
    lookup_file path (files w) = Some data /\ image_size env data = Ret size.
Proof.
  unfold image_open_size.
  destruct (lookup_file path (files w)) as [data|]; [|discriminate].
  destruct (image_size env data) as [s|e] eqn:Hs; [|discriminate].
  intro H. injection H as <- <-. split; [reflexivity|]. now exists data.
Qed.

Lemma image_open_size_raise (path : str) (w w' : World) (e : Exn) :
  image_open_size env path w = (w', Raise e) -> w' = w.
Proof.
  unfold image_open_size.
  destruct (lookup_file path (files w)) as [data|];
    [destruct (image_size env data)|]; intro H;
    try discriminate; now injection H as <- _.
Qed.

(** A call of [save_item] that returns a width has stored the image, read
    its size, and made the six calls of the row on the worksheet. *)
Lemma save_item_some (item : Item) (ws ws' : Worksheet) (row mw mw' : Z)
  (w w' : World) :
  save_item env item ws row mw w = (w', (ws', Ret (Some mw'))) ->
  exists width height w1,
    w' = record_opened (os_path_join env (item_brand item) (image_name item))
                       (width, height) w1 /\
    opened w1 = opened w /\
    workbooks w1 = workbooks w /\
    log_files w1 = log_files w /\
    (exists data,
        lookup_file (os_path_join env (item_brand item) (image_name item))
                    (files w1) = Some data /\
        image_size env data = Ret (width, height)) /\
    mw' = Z.max width mw /\
    ws' = fold_left (fun ws c => sheet_apply c ws)
            (row_calls item (image_name item)
               (os_path_join env (item_brand item) (image_name item))
               height row mw') ws.
Proof.
  unfold save_item.
  set (path := os_path_join env (item_brand item) (image_name item)).
  set (made :=
         if negb (os_path_exists (item_brand item) w)
         then
           if mkdir_raises env w (item_brand item)
           then (log ERROR (MsgCantCreateFolder (item_brand item)) w, false)
           else (mkdir (item_brand item) w, true)
         else (w, true)).
  assert (Hmade : opened (fst made) = opened w /\
                  workbooks (fst made) = workbooks w /\
                  log_files (fst made) = log_files w).
  { unfold made. destruct (negb (os_path_exists (item_brand item) w));
      [destruct (mkdir_raises env w (item_brand item))|]; repeat split. }
  destruct made as [w0 ok]. cbn [fst] in Hmade.
  destruct Hmade as [Ho [Hb Hl]].
  destruct ok; cbn [negb]; [|discriminate].
  destruct (save_image env (item_image_url item) path w0) as [w1 saved] eqn:Hs.
  apply save_image_disk in Hs. destruct Hs as [_ [_ [Sb [So Sl]]]].
  destruct saved; cbn [negb]; [|discriminate].
  destruct (image_open_size env path w1) as [w2 [[width height]|e]] eqn:Hi;
    [|discriminate].
  apply image_open_size_ret in Hi. destruct Hi as [-> Hdata].
  destruct (sheet_calls env (record_opened path (width, height) w1)
              (row_calls item (image_name item) path height row
                         (Z.max width mw)) ws) as [ws1 [e|]] eqn:Hc;
    [discriminate|].
  apply sheet_calls_done in Hc.
  intro H. injection H as <- <- <-.
  exists width, height, w1.
  repeat split; try congruence; try exact Hdata.
Qed.

(** A call of [save_item] that returns [None] leaves the worksheet as it
    is. *)
Lemma save_item_none (item : Item) (ws ws' : Worksheet) (row mw : Z)
  (w w' : World) :
  save_item env item ws row mw w = (w', (ws', Ret None)) ->
  ws' = ws /\ opened w' = opened w /\ workbooks w' = workbooks w /\
  log_files w' = log_files w.
Proof.
  unfold save_item.
  set (path := os_path_join env (item_brand item) (image_name item)).
  set (made :=
         if negb (os_path_exists (item_brand item) w)
         then
           if mkdir_raises env w (item_brand item)
           then (log ERROR (MsgCantCreateFolder (item_brand item)) w, false)
           else (mkdir (item_brand item) w, true)
         else (w, true)).
  assert (Hmade : opened (fst made) = opened w /\
                  workbooks (fst made) = workbooks w /\
                  log_files (fst made) = log_files w).
  { unfold made. destruct (negb (os_path_exists (item_brand item) w));
      [destruct (mkdir_raises env w (item_brand item))|]; repeat split. }
  destruct made as [w0 ok]. cbn [fst] in Hmade.
  destruct Hmade as [Ho [Hb Hl]].
  destruct ok; cbn [negb].
  - destruct (save_image env (item_image_url item) path w0) as [w1 saved] eqn:Hs.
    apply save_image_disk in Hs. destruct Hs as [_ [_ [Sb [So Sl]]]].
    destruct saved; cbn [negb].
    + destruct (image_open_size env path w1) as [w2 [[width height]|e]];
        [|discriminate].
      destruct (sheet_calls env w2
                  (row_calls item (image_name item) path height row
                             (Z.max width mw)) ws) as [ws1 [e|]];
        discriminate.
    + intro H. injection H as <- <-. repeat split; congruence.
  - intro H. injection H as <- <-. repeat split; congruence.
Qed.

(** Whatever its outcome, [save_item] writes no workbook. *)
Lemma save_item_books (item : Item) (ws : Worksheet) (row mw : Z) (w : World) :
  workbooks (fst (save_item env item ws row mw w)) = workbooks w /\
  log_files (fst (save_item env item ws row mw w)) = log_files w.
Proof.
  unfold save_item.
  set (path := os_path_join env (item_brand item) (image_name item)).
  set (made :=
         if negb (os_path_exists (item_brand item) w)
         then
           if mkdir_raises env w (item_brand item)
           then (log ERROR (MsgCantCreateFolder (item_brand item)) w, false)
           else (mkdir (item_brand item) w, true)
         else (w, true)).
  assert (Hmade : workbooks (fst made) = workbooks w /\
                  log_files (fst made) = log_files w).
  { unfold made. destruct (negb (os_path_exists (item_brand item) w));
      [destruct (mkdir_raises env w (item_brand item))|]; repeat split. }
  destruct made as [w0 ok]. cbn [fst] in Hmade. destruct Hmade as [Hb Hl].
  destruct ok; cbn [negb]; [|now split].
  destruct (save_image env (item_image_url item) path w0) as [w1 saved] eqn:Hs.
  apply save_image_disk in Hs. destruct Hs as [_ [_ [Sb [So Sl]]]].
  destruct saved; cbn [negb]; [|cbn [fst]; split; congruence].
  destruct (image_open_size env path w1) as [w2 [[width height]|e]] eqn:Hi.
  - apply image_open_size_ret in Hi. destruct Hi as [-> _].
    destruct (sheet_calls env (record_opened path (width, height) w1)
                (row_calls item (image_name item) path height row
                           (Z.max width mw)) ws) as [ws1 [e|]];
      cbn [fst workbooks log_files record_opened]; split; congruence.
  - apply image_open_size_raise in Hi. subst w2.
    cbn [fst]. split; congruence.
Qed.

End Frames.
(** ** Report writer: the width of the image column *)

Lemma running_maxima_length (l : list Z) (a : Z) :
  List.length (running_maxima l a) = List.length l.
Proof. induction l as [|x l IH]; cbn [running_maxima List.length]; congruence. Qed.

(** The widths [l2] come after the widths [l1]. *)
Lemma running_maxima_app (l2 l1 : list Z) (a : Z) :
  running_maxima (l2 ++ l1) a
  = running_maxima l2 (hd a (running_maxima l1 a)) ++ running_maxima l1 a.
Proof.
  induction l2 as [|x l2 IH]; [reflexivity|].
  cbn [app running_maxima]. rewrite IH.
  destruct (running_maxima l2 (hd a (running_maxima l1 a))); reflexivity.
Qed.

Lemma running_maxima_app_hd (l2 l1 : list Z) (a : Z) :
  hd a (running_maxima (l2 ++ l1) a)
  = hd (hd a (running_maxima l1 a))
       (running_maxima l2 (hd a (running_maxima l1 a))).
Proof.
  rewrite running_maxima_app.
  destruct (running_maxima l2 (hd a (running_maxima l1 a))); reflexivity.
Qed.

(** Each of the maxima is the maximum of the widths up to its row. *)
Lemma running_maxima_is_maximum (l : list Z) :
  Forall (fun x => (0 <= x)%Z) l ->
  forall k m,
    nth_error (running_maxima l 0) k = Some m -> is_maximum m (skipn k l).
Proof.
  induction 1 as [|x l Hx Hl IH]; intros k m Hk.
  - destruct k; discriminate.
  - destruct k as [|k]; [|exact (IH k m Hk)].
    cbn [running_maxima nth_error] in Hk. injection Hk as <-.
    cbn [skipn].
    destruct l as [|y l].
    + cbn [running_maxima hd]. rewrite Z.max_l by assumption.
      split; [now left | intros z [<-|[]]; lia].
    + specialize (IH 0%nat (hd 0%Z (running_maxima (y :: l) 0))).
      cbn [running_maxima nth_error hd skipn] in IH |- *.
      destruct (IH eq_refl) as [Hin Hub].
      set (m := Z.max y (hd 0%Z (running_maxima l 0))) in *.
      split.
      * destruct (Z.max_spec x m) as [[_ ->]|[_ ->]]; [now right | now left].
      * intros z [<-|Hz]; [lia|]. apply Hub in Hz. lia.
Qed.

(** The maxima do not go down from a row to the next. *)
Lemma running_maxima_monotone (l : list Z) (a : Z) :
  forall k m m',
    nth_error (running_maxima l a) (S k) = Some m ->
    nth_error (running_maxima l a) k = Some m' ->
    (m <= m')%Z.
Proof.
  induction l as [|x l IH]; intros k m m' Hm Hm'.
  - destruct k; discriminate.
  - destruct k as [|k]; [|exact (IH k m m' Hm Hm')].
    cbn [running_maxima nth_error] in Hm, Hm'. injection Hm' as <-.
    destruct (running_maxima l a) as [|y t]; [discriminate|].
    cbn [nth_error hd] in *. injection Hm as <-. lia.
Qed.

Section Columns.

Variable env : Env.

Lemma appended_refl (v : Locals) (w : World) : appended env v w v w.
Proof. exists []. repeat split. constructor. Qed.

Lemma appended_trans (v1 v2 v3 : Locals) (w1 w2 w3 : World) :
  appended env v1 w1 v2 w2 -> appended env v2 w2 v3 w3 -> appended env v1 w1 v3 w3.
Proof.
  intros [s1 [O1 [D1 [C1 [M1 B1]]]]] [s2 [O2 [D2 [C2 [M2 B2]]]]].
  exists (s2 ++ s1).
  split; [rewrite O2, O1; apply app_assoc|].
  split; [apply Forall_app; now split|].
  unfold image_widths in *. rewrite map_app.
  split; [|split].
  - rewrite C2, C1, M1, running_maxima_app, map_app. now rewrite app_assoc.
  - rewrite M2, M1. symmetry. apply running_maxima_app_hd.
  - congruence.
Qed.

Lemma save_item_appended (item : Item) (ws ws' : Worksheet) (row rc mw mw' : Z)
  (w w' : World) :
  save_item env item ws row mw w = (w', (ws', Ret (Some mw'))) ->
  appended env (mkLocals ws rc mw) w (mkLocals ws' row mw') w'.
Proof.
  intro H. apply save_item_some in H.
  destruct H as [width [height [w1 [-> [Ho [Hb [_ [Hdata [-> ->]]]]]]]]].
  exists [(os_path_join env (item_brand item) (image_name item),
           (width, height))].
  cbn [opened record_opened workbooks l_worksheet l_max_image_width app].
  split; [now rewrite Ho|].
  split.
  { constructor; [|constructor]. destruct Hdata as [data [_ Hd]].
    now exists data. }
  repeat split. assumption.
Qed.

Lemma save_item_none_appended (item : Item) (ws ws' : Worksheet)
  (row rc mw : Z) (w w' : World) :
  save_item env item ws row mw w = (w', (ws', Ret None)) ->
  appended env (mkLocals ws rc mw) w (mkLocals ws' row mw) w'.
Proof.
  intro H. apply save_item_none in H. destruct H as [-> [Ho [Hb _]]].
  exists []. cbn [l_worksheet l_max_image_width app image_widths map
                    running_maxima hd].
  repeat split; try assumption. constructor.
Qed.

(** The loops append rows as long as no exception leaves them. *)
Lemma submodels_loop_appended (page : Page) (submodels : list PageItem) :
  forall (x : LoopExit) (v v' : Locals) (w w' : World),
    submodels_loop env page submodels v w = (w', (x, v')) ->
    x = LoopDone \/ x = LoopItemFailed ->
    appended env v w v' w'.
Proof.
  induction submodels as [|s rest IH]; intros x v v' w w' H Hx;
    cbn [submodels_loop] in H.
  - injection H as <- _ <-. apply appended_refl.
  - destruct v as [ws rc mw].
    cbn [l_worksheet l_row_count l_max_image_width] in *.
    destruct (save_item env
                (mkItem (previous_caption page) (current_caption page)
                        (pi_caption s) (pi_url s) (pi_image_url s))
                ws (rc + 1) mw w)
      as [w1 [ws1 [[mw1|]|e]]] eqn:Hs.
    + apply save_item_appended with (rc := rc) in Hs.
      apply IH in H; [|assumption].
      exact (appended_trans _ _ _ _ _ _ Hs H).
    + injection H as <- _ <-.
      exact (save_item_none_appended _ _ _ _ _ _ _ _ Hs).
    + injection H as _ <- _. destruct Hx; discriminate.
Qed.

Lemma models_loop_appended (models : list PageItem) :
  forall (x : LoopExit) (v v' : Locals) (w w' : World),
    models_loop env models v w = (w', (x, v')) ->
    x = LoopDone \/ x = LoopItemFailed ->
    appended env v w v' w'.
Proof.
  induction models as [|m rest IH]; intros x v v' w w' H Hx;
    cbn [models_loop] in H.
  - injection H as <- _ <-. apply appended_refl.
  - destruct (scrape_page env (pi_url m)
                (log INFO (MsgScrapingModel (pi_url m)) w))
      as [w1 [[page|]|e]] eqn:Hp;
      try (injection H as _ <- _; destruct Hx; discriminate).
    apply scrape_page_disk in Hp. destruct Hp as [_ [_ [Pb [Po _]]]].
    cbn [workbooks opened log] in Pb, Po.
    assert (Hstep : forall v2 w2,
               appended env v w1 v2 w2 -> appended env v w v2 w2).
    { intros v2 w2 [seen [O [D [C [M B]]]]].
      exists seen. repeat split; try assumption; congruence. }
    destruct (submodels_loop env page (items page) v w1)
      as [w2 [[| |e] v2]] eqn:Hs.
    + apply submodels_loop_appended in Hs; [|now left].
      apply IH in H; [|assumption].
      apply Hstep. exact (appended_trans _ _ _ _ _ _ Hs H).
    + injection H as <- _ <-.
      apply submodels_loop_appended in Hs; [|now right].
      now apply Hstep.
    + injection H as _ <- _. destruct Hx; discriminate.
Qed.

(** The workbook that a call of [scrape_brand] has written when no
    exception left its loops: the settings of its column 2 are the running
    maxima of the widths of the images that the call read. *)
Lemma scrape_brand_exit_columns (url : str) (w w' : World) (x : BrandExit)
  (xlsx : str) (ws : Worksheet) :
  scrape_brand_exit env url w = (w', x) ->
  x = ExitDone \/ x = ExitItemFailed ->
  workbooks w' = (xlsx, ws) :: workbooks w ->
  exists seen,
    opened w' = seen ++ opened w /\
    Forall (decoded env) seen /\
    column_pixels ws
    = map (fun m => (2, 2, m)%Z) (running_maxima (image_widths seen) 0).
Proof.
  unfold scrape_brand_exit.
  destruct (scrape_page env url (log INFO (MsgBeginBrand url) w))
    as [w1 [[page|]|e]] eqn:Hp;
    try (intros H [->| ->]; discriminate H).
  apply scrape_page_disk in Hp. destruct Hp as [_ [_ [Pb [Po _]]]].
  cbn [workbooks opened log] in Pb, Po.
  set (xlsx' := current_caption page ++ lit ".xlsx").
  set (w2 := log INFO (MsgTotalModels (len (items page))) w1).
  destruct (workbook_raises env w2 xlsx');
    [intros H [->| ->]; discriminate H|].
  set (v := mkLocals header_worksheet 0 0).
  assert (Hloop : forall w3 x3 v3,
             match scrape_page env url w2 with
             | (w, Raise e) => (w, (LoopRaised e, v))
             | (w, Ret None) => (w, (LoopRaised TypeError, v))
             | (w, Ret (Some p)) => models_loop env (items p) v w
             end = (w3, (x3, v3)) ->
             x3 = LoopDone \/ x3 = LoopItemFailed ->
             appended env v w v3 w3).
  { intros w3 x3 v3 H Hx3.
    destruct (scrape_page env url w2) as [w2' [[p|]|e]] eqn:Hp2;
      try (injection H as _ <- _; destruct Hx3; discriminate).
    apply scrape_page_disk in Hp2. destruct Hp2 as [_ [_ [Qb [Qo _]]]].
    unfold w2 in Qb, Qo. cbn [workbooks opened log] in Qb, Qo.
    apply models_loop_appended in H; [|assumption].
    destruct H as [seen [O [D [C [M B]]]]].
    exists seen. repeat split; try assumption; congruence. }
  destruct (match scrape_page env url w2 with
            | (w, Raise e) => (w, (LoopRaised e, v))
            | (w, Ret None) => (w, (LoopRaised TypeError, v))
            | (w, Ret (Some p)) => models_loop env (items p) v w
            end) as [w3 [x3 v3]].
  assert (Hfinish : forall w4,
             appended env v w v3 w3 ->
             fst (finish_brand_scraping env xlsx' (l_worksheet v3)
                                        (l_row_count v3) w3) = w4 ->
             workbooks w4 = (xlsx, ws) :: workbooks w ->
             exists seen,
               opened w4 = seen ++ opened w /\
               Forall (decoded env) seen /\
               column_pixels ws
               = map (fun m => (2, 2, m)%Z)
                     (running_maxima (image_widths seen) 0)).
  { intros w4 [seen [O [D [C [M B]]]]].
    unfold finish_brand_scraping.
    destruct (close_raises env w3 xlsx'); cbn [fst]; intros <- Hbook.
    - cbn [workbooks log] in Hbook. rewrite B in Hbook.
      apply (f_equal (@List.length _)) in Hbook.
      cbn [List.length] in Hbook. lia.
    - cbn [workbooks opened log write_workbook] in Hbook |- *.
      rewrite B in Hbook. injection Hbook as _ <-.
      exists seen. repeat split; try assumption.
      rewrite C. unfold v. cbn [l_worksheet l_max_image_width header_worksheet
                                ws_write column_pixels empty_worksheet].
      apply app_nil_r. }
  destruct x3 as [| |e].
  - destruct (finish_brand_scraping env xlsx' (l_worksheet v3)
                (l_row_count v3) w3) as [w4 r] eqn:Hf.
    intros H _ Hbook. injection H as <- _.
    apply Hfinish; [apply (Hloop w3 LoopDone v3 eq_refl); now left | |exact Hbook].
    reflexivity.
  - destruct (finish_brand_scraping env xlsx' (l_worksheet v3)
                (l_row_count v3) w3) as [w4 r] eqn:Hf.
    intros H _ Hbook. injection H as <- _.
    apply Hfinish;
      [apply (Hloop w3 LoopItemFailed v3 eq_refl); now right | |exact Hbook].
    reflexivity.
  - destruct (finish_brand_scraping env xlsx' (l_worksheet v3)
                (l_row_count v3) (log ERROR (MsgModelFailure e) w3)).
    intros H [->| ->]; discriminate H.
Qed.

End Columns.

(** C7.  In the workbook that a call of [scrape_brand] writes, after rows
    that were all appended (the call returns [True], or it stops at an item
    for which [save_item] returned [None]), column 2 was set once for each
    image read, to the maximum of the image widths read up to that row; the
    settings do not go down from a row to the next, and the width of the
    column is the last of them.  The lists have the latest row first.  On a
    brand whose images are 100, 50, 200 and 10 pixels wide the column ends
    200 pixels wide.  The decoder gives no negative width. *)
Theorem image_column_running_maximum (env : Env) (url : str) (w w' : World)
  (x : BrandExit) (xlsx : str) (ws : Worksheet)
  (Hsizes : forall data size,
      image_size env data = Ret size -> (0 <= fst size)%Z)
  (Hexit : scrape_brand_exit env url w = (w', x))
  (Hrows : x = ExitDone \/ x = ExitItemFailed)
  (Hbook : workbooks w' = (xlsx, ws) :: workbooks w) :
  (exists seen maxima,
      opened w' = seen ++ opened w /\
      column_pixels ws = map (fun m => (2, 2, m)%Z) maxima /\
      List.length maxima = List.length seen /\
      (forall k m,
          nth_error maxima k = Some m ->
          is_maximum m (skipn k (image_widths seen))) /\
      (forall k m m',
          nth_error maxima (S k) = Some m ->
          nth_error maxima k = Some m' -> (m <= m')%Z) /\
      column_width ws 2 = hd_error maxima) /\
  (exists ws4,
      workbooks (fst (scrape_brand_exit (fake_env widths_site false)
                                        (at_host "/audi") world0))
      = [(lit "Audi.xlsx", ws4)] /\
      image_widths (opened (fst (scrape_brand_exit
                                   (fake_env widths_site false)
                                   (at_host "/audi") world0)))
      = [10; 200; 50; 100]%Z /\
      column_width ws4 2 = Some 200%Z).
Proof.
  split.
  - destruct (scrape_brand_exit_columns env url w w' x xlsx ws Hexit Hrows
                                        Hbook)
      as [seen [O [D C]]].
    exists seen, (running_maxima (image_widths seen) 0).
    split; [assumption|]. split; [assumption|].
    split; [unfold image_widths; now rewrite running_maxima_length, length_map|].
    split; [|split].
    + apply running_maxima_is_maximum.
      unfold image_widths. apply Forall_map.
      eapply Forall_impl; [|exact D].
      intros [path size] [data Hd]. exact (Hsizes data size Hd).
    + apply running_maxima_monotone.
    + unfold column_width. rewrite C.
      destruct (running_maxima (image_widths seen) 0); reflexivity.
  - eexists. split; [vm_compute; reflexivity|].
    split; vm_compute; reflexivity.
Qed.

Lemma image_column_running_maximum_witness :
  (exists seen maxima,
      opened widths_world = seen ++ opened world0 /\
      column_pixels widths_sheet = map (fun m => (2, 2, m)%Z) maxima /\
      List.length maxima = List.length seen /\
      (forall k m,
          nth_error maxima k = Some m ->
          is_maximum m (skipn k (image_widths seen))) /\
      (forall k m m',
          nth_error maxima (S k) = Some m ->
          nth_error maxima k = Some m' -> (m <= m')%Z) /\
      column_width widths_sheet 2 = hd_error maxima) /\
  (exists ws4,
      workbooks (fst (scrape_brand_exit (fake_env widths_site false)
                                        (at_host "/audi") world0))
      = [(lit "Audi.xlsx", ws4)] /\
      image_widths (opened (fst (scrape_brand_exit
                                   (fake_env widths_site false)
                                   (at_host "/audi") world0)))
      = [10; 200; 50; 100]%Z /\
      column_width ws4 2 = Some 200%Z).
Proof.
  apply (image_column_running_maximum
           (fake_env widths_site false) (at_host "/audi") world0
           widths_world ExitDone (lit "Audi.xlsx") widths_sheet).
  - intros data size H. unfold fake_env, image_size, fake_image_size in H.
    destruct data as [|a [|b [|c t]]]; try discriminate.
    injection H as <-. cbn [fst]. lia.
  - vm_compute. reflexivity.
  - now left.
  - vm_compute. reflexivity.
Defined.

(** ** Orchestrator *)

Section Orchestrator.

Variable env : Env.

(** The number of calls of [scrape_brand] that the loop still makes is
    bounded by the room left in the ledger, and by one when there is none. *)
Lemma main_loop_cap (brands : list Brand) :
  forall (p : list str) (s : list (str * BrandExit)) (c : list (str * World))
         (w : World),
    (List.length (run_scraped (main_loop env brands p s c w))
     <= List.length s + Nat.max 1 (5 - List.length p))%nat.
Proof.
  induction brands as [|b rest IH]; intros p s c w; cbn [main_loop].
  - cbn [run_scraped]. lia.
  - destruct (str_mem (brand_url b) p); cbn [negb].
    + destruct (Z.gtb_spec (len p) 4) as [Hgt|Hle].
      * cbn [run_scraped]. lia.
      * specialize (IH p s c w). lia.
    + destruct (scrape_brand_exit env (brand_url b) w) as [w1 x].
      destruct (exit_value x).
      * destruct (save_brand_list env (p ++ [brand_url b]) w1)
          as [w2 [saved|e]].
        -- destruct (Z.gtb_spec (len (p ++ [brand_url b])) 4) as [Hgt|Hle].
           ++ cbn [run_scraped]. rewrite length_app. cbn [List.length]. lia.
           ++ specialize (IH (p ++ [brand_url b]) (s ++ [(brand_url b, x)])
                             (c ++ [(brand_url b, w)]) w2).
              unfold len in Hle. rewrite !length_app in *.
              cbn [List.length] in *. lia.
        -- cbn [run_scraped]. rewrite length_app. cbn [List.length]. lia.
      * cbn [run_scraped]. rewrite length_app. cbn [List.length]. lia.
Qed.

(** The two records of the calls go together: the same URLs in the same
    order, and each return is the one that the call takes in the world it
    started in. *)
Lemma main_loop_records (brands : list Brand) :
  forall (p : list str) (s : list (str * BrandExit)) (c : list (str * World))
         (w : World),
    s = map (fun e => (fst e, snd (scrape_brand_exit env (fst e) (snd e)))) c ->
    run_scraped (main_loop env brands p s c w)
    = map (fun e => (fst e, snd (scrape_brand_exit env (fst e) (snd e))))
          (run_calls (main_loop env brands p s c w)).
Proof.
  induction brands as [|b rest IH]; intros p s c w Hs; cbn [main_loop].
  - assumption.
  - destruct (str_mem (brand_url b) p); cbn [negb].
    + destruct (len p >? 4)%Z; [assumption | now apply IH].
    + destruct (scrape_brand_exit env (brand_url b) w) as [w1 x] eqn:Hx.
      assert (Hs' : s ++ [(brand_url b, x)]
                    = map (fun e => (fst e,
                                     snd (scrape_brand_exit env (fst e) (snd e))))
                          (c ++ [(brand_url b, w)])).
      { rewrite map_app. cbn [map fst snd]. rewrite Hx. cbn [snd].
        now rewrite Hs. }
      destruct (exit_value x).
      * destruct (save_brand_list env (p ++ [brand_url b]) w1)
          as [w2 [saved|e]]; [|assumption].
        destruct (len (p ++ [brand_url b]) >? 4)%Z;
          [assumption | now apply IH].
      * assumption.
Qed.

(** A call of [scrape_brand] that returns [False] is the last call of the
    run; the run ends at line 91 and the URL is not in the ledger. *)
Lemma main_loop_failed (brands : list Brand) :
  forall (p : list str) (s : list (str * BrandExit)) (c : list (str * World))
         (w : World) (u : str) (x : BrandExit),
    (forall e, In e s -> exit_value (snd e) = true) ->
    In (u, x) (run_scraped (main_loop env brands p s c w)) ->
    exit_value x = false ->
    run_exit (main_loop env brands p s c w) = MainFatal /\
    ~ In u (run_processed (main_loop env brands p s c w)) /\
    exists before,
      run_scraped (main_loop env brands p s c w) = before ++ [(u, x)].
Proof.
  induction brands as [|b rest IH]; intros p s c w u x Hs Hin Hx;
    cbn [main_loop] in *.
  - simpl in Hin. apply Hs in Hin. simpl in Hin. congruence.
  - destruct (str_mem (brand_url b) p) eqn:Hmem; cbn [negb] in *.
    + destruct (len p >? 4)%Z.
      * simpl in Hin. apply Hs in Hin. simpl in Hin. congruence.
      * now apply IH.
    + destruct (scrape_brand_exit env (brand_url b) w) as [w1 x0].
      destruct (exit_value x0) eqn:Hx0.
      * assert (Hs' : forall e, In e (s ++ [(brand_url b, x0)]) ->
                                exit_value (snd e) = true).
        { intros e He. apply in_app_or in He. destruct He as [He|[<-|[]]];
            [now apply Hs | assumption]. }
        destruct (save_brand_list env (p ++ [brand_url b]) w1)
          as [w2 [saved|e]].
        -- destruct (len (p ++ [brand_url b]) >? 4)%Z.
           ++ simpl in Hin. apply Hs' in Hin. simpl in Hin. congruence.
           ++ now apply IH.
        -- simpl in Hin. apply Hs' in Hin. simpl in Hin. congruence.
      * simpl in *. apply in_app_or in Hin.
        destruct Hin as [Hin|[E|[]]].
        -- apply Hs in Hin. simpl in Hin. congruence.
        -- injection E as <- <-.
           split; [reflexivity|]. split; [now apply str_mem_not_In|].
           now exists s.
Qed.


(** [setup_logging] makes no request and writes no file of the script. *)
Lemma setup_logging_frame (w : World) :
  requested (fst (setup_logging env w)) = requested w /\
  slept (fst (setup_logging env w)) = slept w /\
  files (fst (setup_logging env w)) = files w /\
  workbooks (fst (setup_logging env w)) = workbooks w /\
  opened (fst (setup_logging env w)) = opened w.
Proof.
  unfold setup_logging.
  set (w1 := if negb (os_path_exists LOG_FOLDER w)
             then if mkdir_raises env w LOG_FOLDER
                  then log WARNING MsgCantCreateLogFolder w
                  else mkdir LOG_FOLDER w
             else w).
  assert (H1 : requested w1 = requested w /\ slept w1 = slept w /\
               files w1 = files w /\ workbooks w1 = workbooks w /\
               opened w1 = opened w).
  { unfold w1. destruct (negb (os_path_exists LOG_FOLDER w));
      [destruct (mkdir_raises env w LOG_FOLDER)|]; repeat split. }
  destruct (os_path_exists LOG_FOLDER w1); [|exact H1].
  destruct (write_outcome env w1 (LOG_PATH env));
    exact H1.
Qed.

(** [load_brand_list] changes the log at most. *)
Lemma load_brand_list_frame (w : World) :
  requested (fst (load_brand_list env w)) = requested w /\
  slept (fst (load_brand_list env w)) = slept w /\
  files (fst (load_brand_list env w)) = files w /\
  folders (fst (load_brand_list env w)) = folders w /\
  workbooks (fst (load_brand_list env w)) = workbooks w /\
  opened (fst (load_brand_list env w)) = opened w /\
  log_files (fst (load_brand_list env w)) = log_files w.
Proof.
  unfold load_brand_list.
  destruct (os_path_exists PROCESSED_BRANDS_FILENAME w);
    [|repeat split; reflexivity].
  destruct (lookup_file PROCESSED_BRANDS_FILENAME (files w));
    [|repeat split; reflexivity].
  destruct (read_raises env w PROCESSED_BRANDS_FILENAME) as [e|];
    [destruct (is_OSError e)|]; repeat split; reflexivity.
Qed.

(** [get_brands] makes one to three requests for the catalogue page when it
    returns a list, and leaves the disk as it is. *)
Lemma get_brands_frame (w w' : World) (brands : list Brand) :
  get_brands env w = (w', Ret (Some brands)) ->
  (exists n, (1 <= n <= 3)%nat /\
             requested w' = repeat BRANDS_URL n ++ requested w) /\
  files w' = files w /\ workbooks w' = workbooks w /\ opened w' = opened w.
Proof.
  unfold get_brands, get_response. intro Hget.
  destruct (get_response_loop_effect env (range 0 MAX_RETRIES) BRANDS_URL w)
    as [n [Hn [Hsome [Hreq [Hf [Hd [Hb [Ho Hl]]]]]]]].
  destruct (get_response_loop env (range 0 MAX_RETRIES) BRANDS_URL w)
    as [w1 [r|]]; [|discriminate].
  assert (w1 = w') as ->.
  { destruct (listing (soup r)) as [anchors|]; [|congruence].
    destruct (brand_items anchors); congruence. }
  change (List.length (range 0 MAX_RETRIES)) with 3%nat in Hn.
  cbn [fst snd] in *.
  split; [|repeat split; assumption].
  exists n. split; [split; [apply Hsome; discriminate | exact Hn]|assumption].
Qed.

(** A run that reads the catalogue and the ledger goes into the loop over
    the brands with them, after one to three requests for the catalogue
    page; a run that does not calls [scrape_brand] for no brand. *)
Lemma main_start (w : World) :
  match main_inputs env w with
  | Some (brands, p) =>
      exists w',
        main env w = main_loop env brands p [] [] w' /\
        (exists n, (1 <= n <= 3)%nat /\
                   requested w' = repeat BRANDS_URL n ++ requested w) /\
        files w' = files w /\ workbooks w' = workbooks w /\
        opened w' = opened w
  | None =>
      run_scraped (main env w) = [] /\ run_calls (main env w) = [] /\
      run_processed (main env w) = [] /\
      run_exit (main env w) <> MainFatal /\
      run_exit (main env w) <> MainComplete
  end.
Proof.
  unfold main_inputs, main.
  destruct (setup_logging_frame w) as [Sr [_ [Sf [Sb So]]]].
  destruct (setup_logging env w) as [w1 [[]|e]]; cbn [fst] in *;
    [|repeat split; discriminate].
  destruct (get_brands env (log INFO MsgInitialization w1))
    as [w2 [[brands|]|e]] eqn:Hget;
    [|repeat split; discriminate|repeat split; discriminate].
  apply get_brands_frame in Hget.
  destruct Hget as [[n [Hn Gr]] [Gf [Gb Go]]].
  cbn [requested files workbooks opened log] in Gr, Gf, Gb, Go.
  destruct (load_brand_list_frame (log INFO (MsgTotalBrands (len brands)) w2))
    as [Lr [_ [Lf [_ [Lb [Lo _]]]]]].
  destruct (load_brand_list env (log INFO (MsgTotalBrands (len brands)) w2))
    as [w3 [p|e]]; cbn [fst] in *; [|repeat split; discriminate].
  cbn [requested files workbooks opened log] in Lr, Lf, Lb, Lo.
  eexists. split; [reflexivity|].
  cbn [requested files workbooks opened log].
  split; [|repeat split; congruence].
  exists n. split; [assumption | congruence].
Qed.

End Orchestrator.

(** C9.  A run calls [scrape_brand] at most five times, whatever the
    catalogue, the ledger and the surroundings are, so the run stops
    visiting brands once five are processed; a run on a catalogue of six
    brands with an empty ledger processes five of them. *)
Theorem brands_per_run_capped :
  (forall (env : Env) (w : World),
      (List.length (run_scraped (main env w)) <= 5)%nat) /\
  (exists brands,
      main_inputs (fake_env six_site false) world0 = Some (brands, []) /\
      List.length brands = 6%nat /\
      List.length (run_scraped (main (fake_env six_site false) world0))
      = 5%nat).
Proof.
  split.
  - intros env w. pose proof (main_start env w) as H.
    destruct (main_inputs env w) as [[brands p]|].
    + destruct H as [w' [-> _]].
      pose proof (main_loop_cap env brands p [] [] w') as H.
      cbn [List.length] in H. lia.
    + destruct H as [-> _]. cbn [List.length]. lia.
  - eexists. split; [vm_compute; reflexivity|].
    split; vm_compute; reflexivity.
Qed.

(** C1.  The code at a failing input: on a site whose pages and images are
    all there, in surroundings where closing the workbook raises,
    [finish_brand_scraping] logs the error and returns [False], no workbook
    is written, and yet [scrape_brand] returns [True] and [main] puts the
    URL of the brand in the ledger and saves the ledger. *)
Theorem close_failure_is_not_surfaced :
  snd (scrape_brand (fake_env audi_site_whole true) (at_host "/audi") world0)
  = true /\
  hd_error (logged (fst (scrape_brand (fake_env audi_site_whole true)
                                      (at_host "/audi") world0)))
  = Some (ERROR, MsgCantSaveWorkbook (lit "Audi.xlsx") XlsxWriterException) /\
  workbooks (fst (scrape_brand (fake_env audi_site_whole true)
                               (at_host "/audi") world0)) = [] /\
  run_scraped (main (fake_env audi_site_whole true) world0)
  = [(at_host "/audi", ExitDone)] /\
  run_processed (main (fake_env audi_site_whole true) world0)
  = [at_host "/audi"] /\
  lookup_file PROCESSED_BRANDS_FILENAME
              (files (run_world (main (fake_env audi_site_whole true) world0)))
  = Some (at_host "/audi" ++ [ch_nl]).
Proof. repeat split; vm_compute; reflexivity. Qed.

(** The value of [finish_brand_scraping] never reaches the caller: whenever
    the loops of [scrape_brand] run to their end, it returns [True]. *)
Lemma finish_brand_scraping_false_on_raise (env : Env) (xlsx : str)
  (ws : Worksheet) (rc : Z) (w : World) :
  close_raises env w xlsx = true ->
  snd (finish_brand_scraping env xlsx ws rc w) = Some false /\
  workbooks (fst (finish_brand_scraping env xlsx ws rc w)) = workbooks w.
Proof. unfold finish_brand_scraping. intros ->. split; reflexivity. Qed.




(** ** Progress ledger: writing and reading back *)

Lemma lstrip_incl (s : str) (c : char) : In c (lstrip s) -> In c s.
Proof.
  induction s as [|x s IH]; simpl; [tauto|].
  destruct (is_space x); [intro H; right; now apply IH | tauto].
Qed.

Lemma lstrip_head (s : str) :
  match lstrip s with
  | c :: _ => is_space c = false
  | [] => True
  end.
Proof.
  induction s as [|x s IH]; simpl; [trivial|].
  destruct (is_space x) eqn:E; [exact IH | exact E].
Qed.

Lemma lstrip_fixed (s : str) :
  match s with
  | c :: _ => is_space c = false
  | [] => True
  end -> lstrip s = s.
Proof. destruct s as [|c s]; simpl; [reflexivity | now intros ->]. Qed.

Lemma lstrip_snoc_kept (a : str) (c : char) :
  is_space c = false -> exists a', lstrip (a ++ [c]) = a' ++ [c].
Proof.
  intro Hc. induction a as [|x a IH]; simpl.
  - rewrite Hc. now exists [].
  - destruct (is_space x); [exact IH | now exists (x :: a)].
Qed.

Lemma lstrip_snoc_space (b : str) (c : char) :
  is_space c = true ->
  lstrip (b ++ [c])
  = match lstrip b with
    | [] => []
    | _ :: _ => lstrip b ++ [c]
    end.
Proof.
  intro Hc. induction b as [|x b IH]; simpl.
  - now rewrite Hc.
  - destruct (is_space x); [exact IH | reflexivity].
Qed.

Lemma rstrip_incl (s : str) (c : char) : In c (rstrip s) -> In c s.
Proof.
  unfold rstrip. rewrite <- in_rev. intro H. apply lstrip_incl in H.
  now rewrite <- in_rev in H.
Qed.

Lemma rstrip_snoc_space (s : str) (c : char) :
  is_space c = true -> rstrip (s ++ [c]) = rstrip s.
Proof. intro Hc. unfold rstrip. rewrite rev_unit. simpl. now rewrite Hc. Qed.

Lemma strip_incl (s : str) (c : char) : In c (strip s) -> In c s.
Proof. unfold strip. intro H. now apply lstrip_incl, rstrip_incl. Qed.

Lemma strip_snoc_space (s : str) (c : char) :
  is_space c = true -> strip (s ++ [c]) = strip s.
Proof.
  intro Hc. unfold strip. rewrite lstrip_snoc_space by assumption.
  destruct (lstrip s) as [|x t]; [reflexivity|].
  now apply rstrip_snoc_space.
Qed.

(** A stripped string is not changed by another [strip]. *)
Lemma strip_strip (s : str) : strip (strip s) = strip s.
Proof.
  unfold strip.
  assert (H : lstrip (rstrip (lstrip s)) = rstrip (lstrip s)).
  { pose proof (lstrip_head s) as Hh.
    destruct (lstrip s) as [|c z]; [reflexivity|].
    apply lstrip_fixed. unfold rstrip.
    cbn [rev]. destruct (lstrip_snoc_kept (rev z) c Hh) as [a' ->].
    rewrite rev_unit. exact Hh. }
  rewrite H. unfold rstrip at 1 2. rewrite rev_involutive.
  rewrite lstrip_fixed by apply lstrip_head. reflexivity.
Qed.

(** The text read holds no carriage return. *)
Lemma text_in_no_return (n : nat) :
  forall s, (List.length s <= n)%nat -> ~ In ch_cr (text_in s).
Proof.
  induction n as [|n IH]; intros s Hn.
  - destruct s; [intros [] | simpl in Hn; lia].
  - destruct s as [|c t]; [intros []|].
    cbn [text_in]. cbn [List.length] in Hn.
    destruct (N.eqb_spec c ch_cr) as [->|Hc].
    + destruct t as [|d t'].
      * intros [H|[]]. discriminate H.
      * cbn [List.length] in Hn.
        destruct (N.eqb d ch_nl).
        -- intros [H|H]; [discriminate H|]. revert H. apply IH. lia.
        -- intros [H|H]; [discriminate H|]. revert H. apply IH.
           cbn [List.length]. lia.
    + intros [H|H]; [congruence|]. revert H. apply IH. lia.
Qed.

(** Every line that [readlines] gives is made of characters of the text
    and holds no newline but, at most, a last one. *)
Lemma readlines_aux_lines (s : str) :
  forall cur line,
    ~ In ch_nl cur ->
    In line (readlines_aux cur s) ->
    exists body,
      ~ In ch_nl body /\
      (line = body \/ line = body ++ [ch_nl]) /\
      forall c, In c body -> In c cur \/ In c s.
Proof.
  induction s as [|c s IH]; intros cur line Hcur Hin; cbn [readlines_aux] in Hin.
  - destruct cur as [|x cur]; [destruct Hin|].
    destruct Hin as [<-|[]]. exists (rev (x :: cur)).
    split; [now rewrite <- in_rev|]. split; [now left|].
    intros c Hc. left. now rewrite in_rev.
  - destruct (N.eqb_spec c ch_nl) as [->|Hc].
    + destruct Hin as [<-|Hin].
      * exists (rev cur). split; [now rewrite <- in_rev|].
        split; [right; reflexivity|].
        intros c Hc. left. now rewrite in_rev.
      * destruct (IH [] line (fun H => H) Hin) as [body [Hb [Hl Hc]]].
        exists body. split; [assumption|]. split; [assumption|].
        intros c Hcb. destruct (Hc c Hcb) as [[]|H]. right. now right.
    + destruct (IH (c :: cur) line) as [body [Hb [Hl Hcs]]];
        try assumption.
      * intros [E|H]; [congruence | now apply Hcur].
      * exists body. split; [assumption|]. split; [assumption|].
        intros x Hx. destruct (Hcs x Hx) as [[<-|H]|H].
        -- right. now left.
        -- now left.
        -- right. now right.
Qed.

Lemma no_space_not_newline (c : char) :
  is_space c = false -> N.eqb c ch_nl = false /\ N.eqb c ch_cr = false.
Proof.
  intro H. split.
  - destruct (N.eqb_spec c ch_nl) as [->|]; [discriminate H | reflexivity].
  - destruct (N.eqb_spec c ch_cr) as [->|]; [discriminate H | reflexivity].
Qed.

Lemma lstrip_no_space (s : str) : no_space s -> lstrip s = s.
Proof.
  intro H. destruct H as [|c s Hc Hs]; [reflexivity|].
  simpl. now rewrite Hc.
Qed.

Lemma no_space_rev (s : str) : no_space s -> no_space (rev s).
Proof. unfold no_space. apply Forall_rev. Qed.

(** A string without white space is an entry that comes back as it is. *)
Lemma no_space_ledger_entry (s : str) : no_space s -> ledger_entry s.
Proof.
  intro H. split; [|split].
  - intro Hin. unfold no_space in H. rewrite Forall_forall in H.
    apply H in Hin. discriminate Hin.
  - intro Hin. unfold no_space in H. rewrite Forall_forall in H.
    apply H in Hin. discriminate Hin.
  - unfold strip, rstrip. rewrite (lstrip_no_space s H).
    rewrite lstrip_no_space by now apply no_space_rev.
    apply rev_involutive.
Qed.

Lemma strip_line (b : str) : ledger_entry b -> strip (b ++ [ch_nl]) = b.
Proof.
  intros [_ [_ H]]. rewrite strip_snoc_space by reflexivity. exact H.
Qed.

Lemma text_out_app (n : Newline) (a b : str) :
  text_out n (a ++ b) = text_out n a ++ text_out n b.
Proof. unfold text_out. apply flat_map_app. Qed.

Lemma text_out_no_newline (n : Newline) (b : str) :
  ~ In ch_nl b -> text_out n b = b.
Proof.
  unfold text_out. induction b as [|c b IH]; intro H; [reflexivity|].
  cbn [flat_map].
  destruct (N.eqb_spec c ch_nl) as [->|_]; [exfalso; apply H; now left|].
  cbn [app]. rewrite IH; [reflexivity|]. intro Hin. apply H. now right.
Qed.

Lemma text_in_line (n : Newline) (b rest : str) :
  ~ In ch_cr b ->
  text_in (b ++ newline_str n ++ rest) = b ++ ch_nl :: text_in rest.
Proof.
  induction b as [|c b IH]; intro H.
  - destruct n; reflexivity.
  - change ((c :: b) ++ newline_str n ++ rest)
      with (c :: (b ++ newline_str n ++ rest)).
    cbn [text_in].
    destruct (N.eqb_spec c ch_cr) as [->|_]; [exfalso; apply H; now left|].
    rewrite IH; [reflexivity|]. intro Hin. apply H. now right.
Qed.

Lemma readlines_aux_line (b rest : str) :
  ~ In ch_nl b ->
  forall cur,
    readlines_aux cur (b ++ ch_nl :: rest)
    = (rev cur ++ b ++ [ch_nl]) :: readlines_aux [] rest.
Proof.
  induction b as [|c b IH]; intros H cur.
  - simpl. reflexivity.
  - change ((c :: b) ++ ch_nl :: rest) with (c :: (b ++ ch_nl :: rest)).
    cbn [readlines_aux].
    destruct (N.eqb_spec c ch_nl) as [->|_]; [exfalso; apply H; now left|].
    rewrite IH by (intro Hin; apply H; now right).
    simpl. now rewrite <- app_assoc.
Qed.

(** The text of a ledger, written and read back in text mode, gives the
    ledger, whatever [os.linesep] is. *)
Lemma ledger_text_round_trip (n : Newline) (brands : list str) :
  Forall ledger_entry brands ->
  map strip
      (readlines
         (text_in
            (text_out n
               (writelines (map (fun brand => brand ++ [ch_nl]) brands)))))
  = brands.
Proof.
  induction 1 as [|b brands Hb Hbrands IH]; [reflexivity|].
  unfold writelines in *. cbn [map List.concat].
  pose proof Hb as [Hnl [Hcr _]].
  rewrite text_out_app, text_out_app, text_out_no_newline by assumption.
  replace (text_out n [ch_nl]) with (newline_str n) by now destruct n.
  rewrite <- app_assoc, text_in_line by assumption.
  unfold readlines in *. rewrite readlines_aux_line by assumption.
  cbn [map rev app]. rewrite strip_line by assumption.
  now rewrite IH.
Qed.

Lemma lookup_file_written (path data : str) (w : World) :
  lookup_file path (files (write_file path data w)) = Some data /\
  os_path_exists path (write_file path data w) = true.
Proof.
  unfold os_path_exists, str_mem. simpl. now rewrite str_eqb_refl.
Qed.

(** What [save_brand_list] returns, by what becomes of the write. *)
Lemma save_brand_list_cases (env : Env) (brands : list str) (w : World) :
  match write_outcome env w PROCESSED_BRANDS_FILENAME with
  | Written =>
      save_brand_list env brands w
      = (write_file PROCESSED_BRANDS_FILENAME (ledger_text env brands) w,
         Ret true)
  | OpenRaises e =>
      save_brand_list env brands w
      = if is_OSError e
        then (log WARNING MsgCantSaveBrands w, Ret false)
        else (w, Raise e)
  | WriteRaises e kept =>
      save_brand_list env brands w
      = if is_OSError e
        then (log WARNING MsgCantSaveBrands
                  (write_file PROCESSED_BRANDS_FILENAME
                              (firstn kept (ledger_text env brands)) w),
              Ret false)
        else (write_file PROCESSED_BRANDS_FILENAME
                         (firstn kept (ledger_text env brands)) w, Raise e)
  end.
Proof.
  unfold save_brand_list, open_write, ledger_text.
  destruct (write_outcome env w PROCESSED_BRANDS_FILENAME) as [|e|e kept];
    reflexivity.
Qed.

(** C10.  For a list of non-empty URLs without white space: when
    [save_brand_list] succeeds and [load_brand_list] can then read the file,
    it returns that list, in the same order. *)
Theorem ledger_round_trip (env : Env) (brands : list str) (w : World)
  (Hurls : Forall (fun b => b <> [] /\ no_space b) brands)
  (Hsaved : snd (save_brand_list env brands w) = Ret true)
  (Hread : read_raises env (fst (save_brand_list env brands w))
                       PROCESSED_BRANDS_FILENAME = None) :
  snd (load_brand_list env (fst (save_brand_list env brands w))) = Ret brands.
Proof.
  pose proof (save_brand_list_cases env brands w) as Hcases.
  destruct (write_outcome env w PROCESSED_BRANDS_FILENAME) as [|e|e kept];
    rewrite Hcases in *;
    try (destruct (is_OSError e); discriminate Hsaved).
  cbn [fst snd] in *. unfold load_brand_list.
  destruct (lookup_file_written PROCESSED_BRANDS_FILENAME
              (ledger_text env brands) w) as [-> ->].
  rewrite Hread. cbn [snd]. f_equal.
  apply ledger_text_round_trip.
  eapply Forall_impl; [|exact Hurls].
  intros b [_ Hb]. now apply no_space_ledger_entry.
Qed.

Lemma ledger_round_trip_witness :
  snd (load_brand_list
         (fake_env [] false)
         (fst (save_brand_list (fake_env [] false)
                               [at_host "/audi"; at_host "/bmw"] world0)))
  = Ret [at_host "/audi"; at_host "/bmw"].
Proof.
  apply (ledger_round_trip (fake_env [] false)
                           [at_host "/audi"; at_host "/bmw"] world0).
  - repeat constructor; try discriminate.
  - reflexivity.
  - reflexivity.
Defined.

(** ** Image file names: the extension *)

Lemma split_aux_not_nil (sep : char) (s cur : str) : split_aux sep cur s <> [].
Proof.
  revert cur. induction s as [|c s IH]; intro cur; simpl.
  - discriminate.
  - destruct (N.eqb c sep); [discriminate | apply IH].
Qed.

Lemma last_cons_not_nil {A : Type} (x d : A) (l : list A) :
  l <> [] -> last (x :: l) d = last l d.
Proof. destruct l; [contradiction | reflexivity]. Qed.

Lemma split_aux_no_sep (sep : char) (s : str) :
  ~ In sep s ->
  forall cur, split_aux sep cur s = [rev cur ++ s].
Proof.
  induction s as [|c s IH]; intros Hsep cur; simpl.
  - now rewrite app_nil_r.
  - destruct (N.eqb_spec c sep) as [->|Hc].
    + exfalso. apply Hsep. now left.
    + rewrite IH by (intro H; apply Hsep; now right).
      simpl. now rewrite <- app_assoc.
Qed.

(** The last piece of a split is what follows the last separator. *)
Lemma split_aux_last (sep : char) (before ext : str) :
  ~ In sep ext ->
  forall cur, last (split_aux sep cur (before ++ sep :: ext)) [] = ext.
Proof.
  intro Hext. induction before as [|c before IH]; intro cur; simpl.
  - rewrite N.eqb_refl.
    rewrite last_cons_not_nil by apply split_aux_not_nil.
    now rewrite split_aux_no_sep.
  - destruct (N.eqb c sep).
    + rewrite last_cons_not_nil by apply split_aux_not_nil. apply IH.
    + apply IH.
Qed.

Lemma split_aux_last_no_sep (sep : char) (s : str) :
  forall cur, ~ In sep cur -> ~ In sep (last (split_aux sep cur s) []).
Proof.
  induction s as [|c s IH]; intros cur Hcur; simpl.
  - now rewrite <- in_rev.
  - destruct (N.eqb_spec c sep) as [->|Hc].
    + rewrite last_cons_not_nil by apply split_aux_not_nil.
      apply IH. intros [].
    + apply IH. intros [E|H]; [now apply Hc | now apply Hcur].
Qed.

Lemma image_ext_after_last_dot (before ext : str) :
  ~ In ch_dot ext -> image_ext (before ++ [ch_dot] ++ ext) = ext.
Proof. intro H. unfold image_ext, split. now apply split_aux_last. Qed.

Lemma image_ext_no_dot (image_url : str) : ~ In ch_dot (image_ext image_url).
Proof. unfold image_ext, split. apply split_aux_last_no_sep. intros []. Qed.

(** C4, as worded, fails: an image URL without a dot in its path gives an
    extension, and so a file name, with slashes. *)
Lemma sanitation_counterexample : ~ sanitation_as_stated.
Proof.
  intro H.
  destruct (H [] (at_host "/img/e") (lit "es/img/e")) as [Hforbidden _].
  - exists (lit "https://www.tunisport"). reflexivity.
  - intro Hin. vm_compute in Hin.
    repeat (destruct Hin as [Hin|Hin]; [discriminate Hin|]).
    exact Hin.
  - vm_compute in Hforbidden. discriminate Hforbidden.
Qed.

(** C4, amended.  For the item with brand A/B, model C:D and submodel E
    followed by a space, the name before the extension is A-B-C-D-E-, which
    has no forbidden character and no two dashes in a row; the file name is
    that name, a dot, and what follows the last dot of the image URL, and
    it has a forbidden character, or two dashes in a row, exactly when that
    extension has. *)
Theorem example_item_sanitized (url image_url before ext : str)
  (Hurl : image_url = before ++ [ch_dot] ++ ext)
  (Hext : ~ In ch_dot ext) :
  image_name (example_item url image_url)
  = lit "A-B-C-D-E-" ++ [ch_dot] ++ ext /\
  has_forbidden (lit "A-B-C-D-E-") = false /\
  has_double_dash (lit "A-B-C-D-E-") = false /\
  has_forbidden (image_name (example_item url image_url))
  = has_forbidden ext /\
  has_double_dash (image_name (example_item url image_url))
  = has_double_dash ext.
Proof.
  assert (E : image_name (example_item url image_url)
              = lit "A-B-C-D-E-" ++ [ch_dot] ++ ext).
  { unfold image_name, example_item. cbn [item_brand item_model item_submodel
                                           item_image_url].
    rewrite Hurl, image_ext_after_last_dot by assumption. reflexivity. }
  rewrite E. repeat split; try reflexivity.
  destruct ext as [|d ext]; reflexivity.
Qed.

Lemma example_item_sanitized_witness :
  image_name (example_item (at_host "/audi/a4/s1") (at_host "/img/e.jpg"))
  = lit "A-B-C-D-E-" ++ [ch_dot] ++ lit "jpg" /\
  has_forbidden (lit "A-B-C-D-E-") = false /\
  has_double_dash (lit "A-B-C-D-E-") = false /\
  has_forbidden (image_name (example_item (at_host "/audi/a4/s1")
                                          (at_host "/img/e.jpg")))
  = has_forbidden (lit "jpg") /\
  has_double_dash (image_name (example_item (at_host "/audi/a4/s1")
                                            (at_host "/img/e.jpg")))
  = has_double_dash (lit "jpg").
Proof.
  apply (example_item_sanitized (at_host "/audi/a4/s1") (at_host "/img/e.jpg")
                                (lit "https://www.tunisport.es/img/e")
                                (lit "jpg")).
  - reflexivity.
  - simpl. intros [H|[H|[H|[]]]]; discriminate H.
Defined.

(** ** Image file names: what the substitutions keep *)

Section Substitutions.

Variable cls : char -> bool.

Lemma re_sub_class_outside (s : str) :
  outside cls s -> re_sub_class cls s = s.
Proof.
  induction 1 as [|c s Hc Hs IH]; [reflexivity|].
  simpl. rewrite Hc. now f_equal.
Qed.

Lemma re_sub_runs_outside (s : str) :
  outside cls s -> forall f, re_sub_runs cls f s = s.
Proof.
  induction 1 as [|c s Hc Hs IH]; intro f; [reflexivity|].
  simpl. rewrite Hc. now f_equal.
Qed.

(** Characters outside the class at the end of the string stay. *)
Lemma re_sub_runs_app_outside (a t : str) :
  outside cls t -> forall f, re_sub_runs cls f (a ++ t) = re_sub_runs cls f a ++ t.
Proof.
  intro Ht. induction a as [|c a IH]; intro f; simpl.
  - now apply re_sub_runs_outside.
  - destruct (cls c), f; simpl; now rewrite IH.
Qed.

(** After a character of the class, the rest is read inside a run. *)
Lemma re_sub_runs_app_inside (a : str) (c : char) (t : str) :
  cls c = true ->
  forall f,
    re_sub_runs cls f (a ++ c :: t)
    = re_sub_runs cls f (a ++ [c]) ++ re_sub_runs cls true t.
Proof.
  intro Hc. induction a as [|x a IH]; intro f; simpl.
  - rewrite Hc. destruct f; reflexivity.
  - destruct (cls x), f; simpl; now rewrite IH.
Qed.

(** A non-empty start outside the class stays and ends every run. *)
Lemma re_sub_runs_outside_app (x : char) (a t : str) :
  outside cls (x :: a) ->
  forall f, re_sub_runs cls f ((x :: a) ++ t)
            = (x :: a) ++ re_sub_runs cls false t.
Proof.
  intro H. inversion H as [|? ? Hx Ha]; subst. intro f.
  simpl. rewrite Hx. f_equal. clear H Hx x f.
  induction Ha as [|c a Hc Ha IH]; [reflexivity|].
  simpl. rewrite Hc. now f_equal.
Qed.

End Substitutions.

Lemma plain_char_spec (c : char) :
  plain_char c = true ->
  FORBIDDEN_CHAR_RE c = false /\ is_space c = false /\ is_dash c = false.
Proof.
  unfold plain_char. intro H.
  apply andb_true_iff in H. destruct H as [H Hd].
  apply andb_true_iff in H. destruct H as [Hf Hs].
  now rewrite negb_true_iff in *.
Qed.

Lemma plain_outside (s : str) :
  plain s ->
  outside FORBIDDEN_CHAR_RE s /\ outside is_space s /\ outside is_dash s.
Proof.
  unfold plain, outside. intro H. repeat split;
    (eapply Forall_impl; [|exact H]); intros c Hc;
    now apply plain_char_spec in Hc.
Qed.

Lemma plain_no_dash (s : str) : plain s -> ~ In ch_dash s.
Proof.
  intros H Hin. unfold plain in H. rewrite Forall_forall in H.
  apply H in Hin. discriminate Hin.
Qed.

Lemma plain_no_newline (s : str) : plain s -> ~ In ch_nl s.
Proof.
  intros H Hin. unfold plain in H. rewrite Forall_forall in H.
  apply H in Hin. discriminate Hin.
Qed.

(** The name before the last substitution, for plain captions. *)
Lemma image_stem_before_ellipsis (b m s : str) :
  plain m -> m <> [] -> plain s ->
  re_sub_runs is_dash false
    (re_sub_runs is_space false
       (re_sub_class FORBIDDEN_CHAR_RE (b ++ lit "-" ++ m ++ lit "-" ++ s)))
  = stem_prefix b ++ m ++ ch_dash :: s.
Proof.
  intros Hm Hne Hs.
  destruct (plain_outside m Hm) as [Hmf [Hms Hmd]].
  destruct (plain_outside s Hs) as [Hsf [Hss Hsd]].
  change (lit "-") with [ch_dash].
  assert (Hf : outside FORBIDDEN_CHAR_RE ([ch_dash] ++ m ++ [ch_dash] ++ s)).
  { apply Forall_app. split; [now repeat constructor|].
    apply Forall_app. split; [assumption|].
    apply Forall_app. split; [now repeat constructor | assumption]. }
  assert (Hsp : outside is_space ([ch_dash] ++ m ++ [ch_dash] ++ s)).
  { apply Forall_app. split; [now repeat constructor|].
    apply Forall_app. split; [assumption|].
    apply Forall_app. split; [now repeat constructor | assumption]. }
  unfold re_sub_class at 1. rewrite map_app.
  fold (re_sub_class FORBIDDEN_CHAR_RE b).
  fold (re_sub_class FORBIDDEN_CHAR_RE ([ch_dash] ++ m ++ [ch_dash] ++ s)).
  rewrite (re_sub_class_outside _ _ Hf).
  rewrite (re_sub_runs_app_outside _ _ _ Hsp).
  cbn [app].
  rewrite re_sub_runs_app_inside by reflexivity.
  unfold stem_prefix. f_equal.
  destruct m as [|x m]; [contradiction|].
  rewrite (re_sub_runs_outside_app _ x m (ch_dash :: s) Hmd).
  cbn [re_sub_runs]. change (is_dash ch_dash) with true. cbv iota.
  now rewrite (re_sub_runs_outside _ _ Hsd).
Qed.

(** ** Image file names: the trailing dash and three dots *)

Lemma re_sub_ellipsis_none (s : str) :
  (forall p q, s = p ++ q ->
               q <> lit "-..." /\ q <> lit "-..." ++ [ch_nl]) ->
  re_sub_ellipsis s = s.
Proof.
  induction s as [|c s IH]; intro H; [reflexivity|].
  cbn [re_sub_ellipsis].
  destruct (H [] (c :: s) eq_refl) as [H1 H2].
  apply str_eqb_neq in H1, H2. rewrite H1, H2.
  f_equal. apply IH. intros p q E. apply (H (c :: p) q). now rewrite E.
Qed.

Lemma re_sub_ellipsis_tail (pre : str) :
  re_sub_ellipsis (pre ++ lit "-...") = pre.
Proof.
  induction pre as [|c pre IH]; [reflexivity|].
  change ((c :: pre) ++ lit "-...") with (c :: (pre ++ lit "-...")).
  cbn [re_sub_ellipsis].
  assert (H1 : c :: pre ++ lit "-..." <> lit "-...").
  { intro E. apply (f_equal (@List.length _)) in E.
    simpl in E. rewrite length_app in E. simpl in E. lia. }
  assert (H2 : c :: pre ++ lit "-..." <> lit "-..." ++ [ch_nl]).
  { intro E. apply (f_equal (fun l => last l 0%N)) in E.
    change (c :: pre ++ lit "-...")
      with ((c :: pre) ++ lit "-.." ++ [ch_dot]) in E.
    rewrite app_assoc, !last_last in E. discriminate E. }
  apply str_eqb_neq in H1, H2. rewrite H1, H2.
  now rewrite IH.
Qed.

(** Behind a dash, a plain caption other than three dots is kept. *)
Lemma re_sub_ellipsis_plain (pre s : str) :
  plain s -> s <> lit "..." ->
  re_sub_ellipsis (pre ++ ch_dash :: s) = pre ++ ch_dash :: s.
Proof.
  intros Hs Hne. apply re_sub_ellipsis_none.
  assert (Hhead : forall q, q = ch_dash :: s ->
            q <> lit "-..." /\ q <> lit "-..." ++ [ch_nl]).
  { intros q ->. split; intro E; injection E as E.
    - contradiction.
    - apply (plain_no_newline s Hs). rewrite E. simpl. tauto. }
  assert (Hin : forall q, In ch_dash (tl q) ->
            q <> lit "-..." /\ q <> lit "-..." ++ [ch_nl]).
  { intros q Hq. split; intros ->; simpl in Hq;
      repeat (destruct Hq as [Hq|Hq]; [discriminate Hq|]); exact Hq. }
  intros p q E.
  destruct (app_eq_app _ _ _ _ E) as [l [[Hpre Hq]|[Hp Hq]]].
  - destruct l as [|x l].
    + now apply Hhead.
    + apply Hin. rewrite Hq. simpl. apply in_or_app. right. now left.
  - destruct l as [|x l].
    + apply Hhead. now rewrite Hq.
    + injection Hq as _ Hq. split; intros ->;
        apply (plain_no_dash s Hs); rewrite Hq;
        apply in_or_app; right; now left.
Qed.

(** The name before the extension, for plain captions. *)
Lemma image_stem_plain (b m s : str) :
  plain m -> m <> [] -> plain s ->
  image_stem b m s
  = if str_eqb s (lit "...") then stem_prefix b ++ m
    else stem_prefix b ++ m ++ ch_dash :: s.
Proof.
  intros Hm Hne Hs. unfold image_stem.
  rewrite image_stem_before_ellipsis by assumption.
  destruct (str_eqb s (lit "...")) eqn:E.
  - apply str_eqb_eq in E. subst s.
    rewrite app_assoc. apply re_sub_ellipsis_tail.
  - apply str_eqb_neq in E. rewrite app_assoc.
    now apply re_sub_ellipsis_plain.
Qed.

Lemma first_separator_unique (sep : char) (a1 : str) :
  forall a2 t1 t2 : str,
    ~ In sep a1 -> ~ In sep a2 ->
    a1 ++ sep :: t1 = a2 ++ sep :: t2 -> a1 = a2 /\ t1 = t2.
Proof.
  induction a1 as [|x a1 IH]; intros [|y a2] t1 t2 H1 H2 E; simpl in E.
  - injection E as E. now split.
  - injection E as E _. exfalso. apply H2. now left.
  - injection E as E _. exfalso. apply H1. now left.
  - injection E as -> E.
    destruct (IH a2 t1 t2) as [-> ->]; try assumption.
    + intro H. apply H1. now right.
    + intro H. apply H2. now right.
    + now split.
Qed.

Lemma last_separator_unique (sep : char) (a1 a2 e1 e2 : str) :
  ~ In sep e1 -> ~ In sep e2 ->
  a1 ++ sep :: e1 = a2 ++ sep :: e2 -> a1 = a2 /\ e1 = e2.
Proof.
  intros H1 H2 E. apply (f_equal (@rev _)) in E.
  rewrite !rev_app_distr in E. simpl in E. rewrite <- !app_assoc in E.
  simpl in E.
  destruct (first_separator_unique sep (rev e1) (rev e2) (rev a1) (rev a2))
    as [He Ha]; try assumption; try (now rewrite <- in_rev).
  split; apply rev_inj; assumption.
Qed.

(** For plain captions and a model that is not empty, the name before the
    extension tells the model and the submodel. *)
Lemma image_stem_injective (b m1 s1 m2 s2 : str) :
  plain m1 -> m1 <> [] -> plain s1 ->
  plain m2 -> m2 <> [] -> plain s2 ->
  image_stem b m1 s1 = image_stem b m2 s2 ->
  m1 = m2 /\ s1 = s2.
Proof.
  intros Hm1 Hn1 Hs1 Hm2 Hn2 Hs2 E.
  rewrite !image_stem_plain in E by assumption.
  destruct (str_eqb s1 (lit "...")) eqn:E1;
    destruct (str_eqb s2 (lit "...")) eqn:E2;
    apply app_inv_head in E.
  - apply str_eqb_eq in E1, E2. split; congruence.
  - exfalso. apply (plain_no_dash m1 Hm1). rewrite E.
    apply in_or_app. right. now left.
  - exfalso. apply (plain_no_dash m2 Hm2). rewrite <- E.
    apply in_or_app. right. now left.
  - apply (first_separator_unique ch_dash); try assumption;
      now apply plain_no_dash.
Qed.

(** C3, as worded, fails: a space and a dash in the submodel give the same
    file name. *)
Lemma image_names_injective_counterexample : ~ image_names_injective_as_stated.
Proof.
  intro H.
  apply (H (mkItem (lit "Audi") (lit "A4") (lit "2.0 TDI")
                   (at_host "/audi/a4/s2") (at_host "/img/s2.jpg"))
           (mkItem (lit "Audi") (lit "A4") (lit "2.0-TDI")
                   (at_host "/audi/a4/s6") (at_host "/img/s6.jpg"))).
  - reflexivity.
  - discriminate.
  - reflexivity.
Qed.

(** C3, amended.  Two items of the same brand whose models and submodels
    hold no forbidden character, no white space and no dash, and whose
    models are not empty, get different file names when their (model,
    submodel) pairs differ. *)
Theorem image_names_injective_on_plain (i1 i2 : Item)
  (Hbrand : item_brand i1 = item_brand i2)
  (Hmodel1 : plain (item_model i1)) (Hnonempty1 : item_model i1 <> [])
  (Hsubmodel1 : plain (item_submodel i1))
  (Hmodel2 : plain (item_model i2)) (Hnonempty2 : item_model i2 <> [])
  (Hsubmodel2 : plain (item_submodel i2))
  (Hdistinct : (item_model i1, item_submodel i1)
               <> (item_model i2, item_submodel i2)) :
  image_name i1 <> image_name i2.
Proof.
  intro E. unfold image_name in E. change (lit ".") with [ch_dot] in E.
  apply last_separator_unique in E; try apply image_ext_no_dot.
  destruct E as [E _]. rewrite Hbrand in E.
  apply image_stem_injective in E; try assumption.
  destruct E as [Em Es]. apply Hdistinct. congruence.
Qed.

Lemma image_names_injective_on_plain_witness :
  image_name (mkItem (lit "Audi") (lit "A4") (lit "RS4")
                     (at_host "/audi/a4/s5") (at_host "/img/s5.jpg"))
  <> image_name (mkItem (lit "Audi") (lit "A4") (lit "RS6")
                        (at_host "/audi/a4/s6") (at_host "/img/s5.jpg")).
Proof.
  apply (image_names_injective_on_plain
           (mkItem (lit "Audi") (lit "A4") (lit "RS4")
                   (at_host "/audi/a4/s5") (at_host "/img/s5.jpg"))
           (mkItem (lit "Audi") (lit "A4") (lit "RS6")
                   (at_host "/audi/a4/s6") (at_host "/img/s5.jpg"))).
  - reflexivity.
  - repeat constructor.
  - discriminate.
  - repeat constructor.
  - repeat constructor.
  - discriminate.
  - repeat constructor.
  - discriminate.
Defined.

(** ** One brand: where the exits come from *)

Section Brand.

Variable env : Env.

(** When the loop over the submodels comes to a submodel for which
    [save_item] returns [None], it ends there with that exit. *)
Lemma submodels_loop_item_failed (page : Page) (before : list PageItem) :
  forall (submodel : PageItem) (after : list PageItem) (v v0 : Locals)
         (w w0 w1 : World) (ws : Worksheet),
    submodels_loop env page before v w = (w0, (LoopDone, v0)) ->
    save_item env (item_of page submodel) (l_worksheet v0)
              (l_row_count v0 + 1) (l_max_image_width v0) w0
    = (w1, (ws, Ret None)) ->
    submodels_loop env page (before ++ submodel :: after) v w
    = (w1, (LoopItemFailed,
            mkLocals ws (l_row_count v0 + 1) (l_max_image_width v0))).
Proof.
  induction before as [|s before IH];
    intros submodel after v v0 w w0 w1 ws Hbefore Hsave.
  - cbn [submodels_loop] in Hbefore. injection Hbefore as <- <-.
    cbn [app submodels_loop]. fold (item_of page submodel).
    now rewrite Hsave.
  - cbn [app submodels_loop] in *. fold (item_of page s) in *.
    destruct (save_item env (item_of page s) (l_worksheet v)
                        (l_row_count v + 1) (l_max_image_width v) w)
      as [w2 [ws2 [[mw2|]|e]]]; try discriminate Hbefore.
    now apply IH with (v0 := v0) (w0 := w0).
Qed.

(** The exit of line 339 comes from nowhere else. *)
Lemma submodels_loop_item_failed_inv (page : Page)
  (submodels : list PageItem) :
  forall (v v' : Locals) (w w' : World),
    submodels_loop env page submodels v w = (w', (LoopItemFailed, v')) ->
    save_item_none_in_submodels env page submodels v w.
Proof.
  induction submodels as [|s submodels IH]; intros v v' w w' H;
    cbn [submodels_loop] in H.
  - discriminate H.
  - fold (item_of page s) in H.
    destruct (save_item env (item_of page s) (l_worksheet v)
                        (l_row_count v + 1) (l_max_image_width v) w)
      as [w2 [ws2 [[mw2|]|e]]] eqn:Hsave.
    + destruct (IH _ _ _ _ H)
        as [before [sub [after [w0 [v0 [w1 [ws [-> [Hb Hs]]]]]]]]].
      exists (s :: before), sub, after, w0, v0, w1, ws.
      split; [reflexivity|]. split; [|assumption].
      cbn [submodels_loop]. fold (item_of page s). now rewrite Hsave.
    + exists [], s, submodels, w, v, w2, ws2.
      split; [reflexivity|]. split; [reflexivity | assumption].
    + discriminate H.
Qed.

(** In the loop over the submodels, a call of [save_item] returns [None]
    exactly when the loop ends at line 341. *)
Lemma submodels_loop_none (page : Page) (submodels : list PageItem)
  (v : Locals) (w : World) :
  save_item_none_in_submodels env page submodels v w <->
  exists w' v',
    submodels_loop env page submodels v w = (w', (LoopItemFailed, v')).
Proof.
  split.
  - intros [before [sub [after [w0 [v0 [w1 [ws [-> [Hb Hs]]]]]]]]].
    eexists. eexists.
    exact (submodels_loop_item_failed page before sub after v v0 w w0 w1 ws
             Hb Hs).
  - intros [w' [v' H]]. exact (submodels_loop_item_failed_inv _ _ _ _ _ _ H).
Qed.

(** The loop over the models, after the models it ran through. *)
Lemma models_loop_app (before rest : list PageItem) :
  forall (v v0 : Locals) (w w0 : World),
    models_loop env before v w = (w0, (LoopDone, v0)) ->
    models_loop env (before ++ rest) v w = models_loop env rest v0 w0.
Proof.
  induction before as [|m before IH]; intros v v0 w w0 H;
    cbn [app models_loop] in *.
  - now injection H as <- <-.
  - destruct (scrape_page env (pi_url m)
                (log INFO (MsgScrapingModel (pi_url m)) w))
      as [w1 [[page|]|e]]; try discriminate H.
    destruct (submodels_loop env page (items page) v w1)
      as [w2 [[| |e] v2]]; try discriminate H.
    now apply IH.
Qed.

Lemma models_loop_none (models : list PageItem) :
  forall (v : Locals) (w : World),
    save_item_none_in_models env models v w <->
    exists w' v', models_loop env models v w = (w', (LoopItemFailed, v')).
Proof.
  intros v w. split.
  - intros [before [m [after [w0 [v0 [w1 [page [-> [Hb [Hp Hs]]]]]]]]]].
    apply submodels_loop_none in Hs. destruct Hs as [w' [v' Hs]].
    exists w', v'.
    rewrite (models_loop_app before (m :: after) v v0 w w0 Hb).
    cbn [models_loop]. now rewrite Hp, Hs.
  - revert v w.
    induction models as [|m models IH]; intros v w [w' [v' H]];
      cbn [models_loop] in H; [discriminate H|].
    destruct (scrape_page env (pi_url m)
                (log INFO (MsgScrapingModel (pi_url m)) w))
      as [w1 [[page|]|e]] eqn:Hp; try discriminate H.
    destruct (submodels_loop env page (items page) v w1)
      as [w2 [[| |e] v2]] eqn:Hs; try discriminate H.
    + destruct (IH v2 w2 (ex_intro _ w' (ex_intro _ v' H)))
        as [before [m' [after [w0 [v0 [w3 [page' [-> [Hb [Hp' Hs']]]]]]]]]].
      exists (m :: before), m', after, w0, v0, w3, page'.
      split; [reflexivity|]. split; [|now split].
      cbn [models_loop]. now rewrite Hp, Hs.
    + exists [], m, models, w, v, w1, page.
      split; [reflexivity|]. split; [reflexivity|]. split; [assumption|].
      apply submodels_loop_none. now exists w2, v2.
Qed.

(** In a call of [scrape_brand], a call of [save_item] returns [None]
    exactly when [scrape_brand] returns at line 341. *)
Lemma scrape_brand_exit_none (url : str) (w : World) :
  save_item_none_in_brand env url w <->
  snd (scrape_brand_exit env url w) = ExitItemFailed.
Proof.
  unfold save_item_none_in_brand, scrape_brand_exit. split.
  - intros [w1 [page [w2 [p [Hp [Hb [Hp2 Hm]]]]]]].
    rewrite Hp, Hb, Hp2.
    apply models_loop_none in Hm. destruct Hm as [w' [v' ->]].
    destruct (finish_brand_scraping env _ (l_worksheet v') (l_row_count v') w').
    reflexivity.
  - destruct (scrape_page env url (log INFO (MsgBeginBrand url) w))
      as [w1 [[page|]|e]]; try discriminate.
    destruct (workbook_raises env
                (log INFO (MsgTotalModels (len (items page))) w1)
                (current_caption page ++ lit ".xlsx")) eqn:Hb;
      [discriminate|].
    destruct (scrape_page env url
                (log INFO (MsgTotalModels (len (items page))) w1))
      as [w2 [[p|]|e]] eqn:Hp2.
    + destruct (models_loop env (items p) (mkLocals header_worksheet 0 0) w2)
        as [w3 [[| |e] v3]] eqn:Hm;
        destruct (finish_brand_scraping env _ (l_worksheet v3)
                    (l_row_count v3) _); try discriminate.
      intros _. exists w1, page, w2, p.
      repeat split; try assumption.
      apply models_loop_none. now exists w3, v3.
    + destruct (finish_brand_scraping env _ _ _ _); discriminate.
    + destruct (finish_brand_scraping env _ _ _ _); discriminate.
Qed.

End Brand.

(** ** Orchestrator: a call of [save_item] that returns [None] ends the run *)

Lemma lookup_file_other (path p data : str) (l : list (str * str)) :
  p <> path -> lookup_file path ((p, data) :: l) = lookup_file path l.
Proof.
  intro H. cbn [lookup_file].
  destruct (str_eqb path p) eqn:E; [|reflexivity].
  apply str_eqb_eq in E. congruence.
Qed.

(** What the ledger file holds depends on the ledger file alone. *)
Lemma ledger_holds_same (u : str) (w w' : World) :
  lookup_file PROCESSED_BRANDS_FILENAME (files w')
  = lookup_file PROCESSED_BRANDS_FILENAME (files w) ->
  ledger_holds u w' -> ledger_holds u w.
Proof. unfold ledger_holds. now intros ->. Qed.

(** The entries that [load_brand_list] returns come back from the ledger
    file as they are. *)
Lemma load_brand_list_ledger_entries (env : Env) (w w' : World)
  (p : list str) :
  load_brand_list env w = (w', Ret p) -> Forall ledger_entry p.
Proof.
  unfold load_brand_list.
  destruct (os_path_exists PROCESSED_BRANDS_FILENAME w);
    [|intro H; injection H as _ <-; constructor].
  destruct (lookup_file PROCESSED_BRANDS_FILENAME (files w)) as [data|];
    [|intro H; injection H as _ <-; constructor].
  destruct (read_raises env w PROCESSED_BRANDS_FILENAME) as [e|].
  { destruct (is_OSError e); intro H; [|discriminate H].
    injection H as _ <-. constructor. }
  intro H. injection H as _ <-.
  apply Forall_forall. intros brand Hin.
  apply in_map_iff in Hin. destruct Hin as [line [<- Hline]].
  unfold readlines in Hline.
  destruct (readlines_aux_lines (text_in data) [] line (fun H => H) Hline)
    as [body [Hnl [Hshape Hchars]]].
  assert (Hstrip : strip line = strip body).
  { destruct Hshape as [->| ->]; [reflexivity|].
    now apply strip_snoc_space. }
  rewrite Hstrip. split; [|split].
  - intro H. apply strip_incl in H. contradiction.
  - intro H. apply strip_incl in H.
    destruct (Hchars _ H) as [[]|Hd].
    revert Hd. apply (text_in_no_return (List.length data)). lia.
  - apply strip_strip.
Qed.

Section FailedItem.

Variable env : Env.

(** The images are stored under paths other than that of the ledger. *)
Hypothesis image_paths :
  forall item : Item,
    os_path_join env (item_brand item) (image_name item)
    <> PROCESSED_BRANDS_FILENAME.

Lemma save_item_ledger_file (item : Item) (ws : Worksheet) (row mw : Z)
  (w : World) :
  lookup_file PROCESSED_BRANDS_FILENAME
              (files (fst (save_item env item ws row mw w)))
  = lookup_file PROCESSED_BRANDS_FILENAME (files w).
Proof.
  unfold save_item.
  set (path := os_path_join env (item_brand item) (image_name item)).
  set (made :=
         if negb (os_path_exists (item_brand item) w)
         then
           if mkdir_raises env w (item_brand item)
           then (log ERROR (MsgCantCreateFolder (item_brand item)) w, false)
           else (mkdir (item_brand item) w, true)
         else (w, true)).
  assert (Hmade : files (fst made) = files w).
  { unfold made. destruct (negb (os_path_exists (item_brand item) w));
      [destruct (mkdir_raises env w (item_brand item))|]; reflexivity. }
  destruct made as [w0 ok]. cbn [fst] in Hmade.
  destruct ok; cbn [negb]; [|cbn [fst]; now rewrite Hmade].
  destruct (save_image env (item_image_url item) path w0) as [w1 saved] eqn:Hs.
  apply save_image_disk in Hs. destruct Hs as [Sf _].
  assert (H1 : lookup_file PROCESSED_BRANDS_FILENAME (files w1)
               = lookup_file PROCESSED_BRANDS_FILENAME (files w)).
  { rewrite <- Hmade.
    destruct Sf as [->|[data ->]]; [reflexivity|].
    apply lookup_file_other. apply image_paths. }
  destruct saved; cbn [negb]; [|exact H1].
  destruct (image_open_size env path w1) as [w2 [[width height]|e]] eqn:Hi.
  - apply image_open_size_ret in Hi. destruct Hi as [-> _].
    destruct (sheet_calls env _ _ ws) as [ws1 [e|]]; exact H1.
  - apply image_open_size_raise in Hi. subst w2. exact H1.
Qed.

Lemma submodels_loop_ledger_file (page : Page) (submodels : list PageItem) :
  forall (v : Locals) (w : World),
    lookup_file PROCESSED_BRANDS_FILENAME
                (files (fst (submodels_loop env page submodels v w)))
    = lookup_file PROCESSED_BRANDS_FILENAME (files w).
Proof.
  induction submodels as [|s rest IH]; intros v w; cbn [submodels_loop];
    [reflexivity|].
  pose proof (save_item_ledger_file
                (mkItem (previous_caption page) (current_caption page)
                        (pi_caption s) (pi_url s) (pi_image_url s))
                (l_worksheet v) (l_row_count v + 1) (l_max_image_width v) w)
    as Hs.
  destruct (save_item env _ (l_worksheet v) (l_row_count v + 1)
                      (l_max_image_width v) w) as [w1 [ws1 [[mw1|]|e]]];
    cbn [fst] in *; try assumption.
  now rewrite IH.
Qed.

Lemma models_loop_ledger_file (models : list PageItem) :
  forall (v : Locals) (w : World),
    lookup_file PROCESSED_BRANDS_FILENAME
                (files (fst (models_loop env models v w)))
    = lookup_file PROCESSED_BRANDS_FILENAME (files w).
Proof.
  induction models as [|m rest IH]; intros v w; cbn [models_loop];
    [reflexivity|].
  destruct (scrape_page env (pi_url m)
              (log INFO (MsgScrapingModel (pi_url m)) w))
    as [w1 [[page|]|e]] eqn:Hp;
    apply scrape_page_disk in Hp; destruct Hp as [Pf _];
    cbn [files log] in Pf; cbn [fst]; try now rewrite Pf.
  pose proof (submodels_loop_ledger_file page (items page) v w1) as Hs.
  destruct (submodels_loop env page (items page) v w1) as [w2 [[| |e] v2]];
    cbn [fst] in *; rewrite ?IH; now rewrite Hs, Pf.
Qed.

Lemma finish_brand_scraping_files (xlsx : str) (ws : Worksheet) (rc : Z)
  (w : World) :
  files (fst (finish_brand_scraping env xlsx ws rc w)) = files w.
Proof.
  unfold finish_brand_scraping. now destruct (close_raises env w xlsx).
Qed.

(** A call of [scrape_brand] leaves the ledger file as it is. *)
Lemma scrape_brand_exit_ledger_file (url : str) (w : World) :
  lookup_file PROCESSED_BRANDS_FILENAME
              (files (fst (scrape_brand_exit env url w)))
  = lookup_file PROCESSED_BRANDS_FILENAME (files w).
Proof.
  unfold scrape_brand_exit.
  destruct (scrape_page env url (log INFO (MsgBeginBrand url) w))
    as [w1 [[page|]|e]] eqn:Hp;
    apply scrape_page_disk in Hp; destruct Hp as [Pf _];
    cbn [files log] in Pf; cbn [fst files log]; try now rewrite Pf.
  set (xlsx := current_caption page ++ lit ".xlsx").
  set (w2 := log INFO (MsgTotalModels (len (items page))) w1).
  destruct (workbook_raises env w2 xlsx);
    [unfold w2; cbn [fst files log]; now rewrite Pf|].
  set (v := mkLocals header_worksheet 0 0).
  assert (Hloop :
            lookup_file PROCESSED_BRANDS_FILENAME
              (files (fst (match scrape_page env url w2 with
                           | (w, Raise e) => (w, (LoopRaised e, v))
                           | (w, Ret None) => (w, (LoopRaised TypeError, v))
                           | (w, Ret (Some p)) => models_loop env (items p) v w
                           end)))
            = lookup_file PROCESSED_BRANDS_FILENAME (files w)).
  { destruct (scrape_page env url w2) as [w3 [[p|]|e]] eqn:Hp2;
      apply scrape_page_disk in Hp2; destruct Hp2 as [Qf _];
      unfold w2 in Qf; cbn [files log] in Qf; cbn [fst];
      rewrite ?models_loop_ledger_file; now rewrite Qf, Pf. }
  destruct (match scrape_page env url w2 with
            | (w, Raise e) => (w, (LoopRaised e, v))
            | (w, Ret None) => (w, (LoopRaised TypeError, v))
            | (w, Ret (Some p)) => models_loop env (items p) v w
            end) as [w3 [[| |e] v3]]; cbn [fst] in Hloop.
  - pose proof (finish_brand_scraping_files xlsx (l_worksheet v3)
                  (l_row_count v3) w3) as Hf.
    destruct (finish_brand_scraping env xlsx (l_worksheet v3)
                (l_row_count v3) w3) as [w4 r]. cbn [fst] in *.
    now rewrite Hf.
  - pose proof (finish_brand_scraping_files xlsx (l_worksheet v3)
                  (l_row_count v3) w3) as Hf.
    destruct (finish_brand_scraping env xlsx (l_worksheet v3)
                (l_row_count v3) w3) as [w4 r]. cbn [fst] in *.
    now rewrite Hf.
  - pose proof (finish_brand_scraping_files xlsx (l_worksheet v3)
                  (l_row_count v3) (log ERROR (MsgModelFailure e) w3)) as Hf.
    destruct (finish_brand_scraping env xlsx (l_worksheet v3)
                (l_row_count v3) (log ERROR (MsgModelFailure e) w3))
      as [w4 r]. cbn [fst files log] in *.
    now rewrite Hf.
Qed.

(** A call of [scrape_brand] that returns [False] is the last call of the
    run, which ends at line 91 in the world that the call left, with the
    ledger in memory as it was before the call. *)
Lemma main_loop_failed_call (brands : list Brand) :
  forall (p : list str) (s : list (str * BrandExit)) (c : list (str * World))
         (w : World) (u : str) (w1 : World),
    (forall e, In e c ->
               exit_value (snd (scrape_brand_exit env (fst e) (snd e))) = true) ->
    In (u, w1) (run_calls (main_loop env brands p s c w)) ->
    exit_value (snd (scrape_brand_exit env u w1)) = false ->
    run_exit (main_loop env brands p s c w) = MainFatal /\
    ~ In u (run_processed (main_loop env brands p s c w)) /\
    exists earlier,
      run_calls (main_loop env brands p s c w) = earlier ++ [(u, w1)].
Proof.
  induction brands as [|b rest IH]; intros p s c w u w1 Hc Hin Hx;
    cbn [main_loop] in *.
  - cbn [run_calls] in Hin. apply Hc in Hin. cbn [fst snd] in Hin. congruence.
  - destruct (str_mem (brand_url b) p) eqn:Hmem; cbn [negb] in *.
    + destruct (len p >? 4)%Z.
      * cbn [run_calls] in Hin. apply Hc in Hin. cbn [fst snd] in Hin.
        congruence.
      * now apply IH.
    + destruct (scrape_brand_exit env (brand_url b) w) as [w2 x0] eqn:Hb.
      destruct (exit_value x0) eqn:Hx0.
      * assert (Hc' : forall e, In e (c ++ [(brand_url b, w)]) ->
                  exit_value (snd (scrape_brand_exit env (fst e) (snd e)))
                  = true).
        { intros e He. apply in_app_or in He. destruct He as [He|[<-|[]]];
            [now apply Hc|]. cbn [fst snd]. now rewrite Hb. }
        destruct (save_brand_list env (p ++ [brand_url b]) w2)
          as [w3 [saved|e]].
        -- destruct (len (p ++ [brand_url b]) >? 4)%Z.
           ++ cbn [run_calls] in Hin. apply Hc' in Hin. cbn [fst snd] in Hin.
              congruence.
           ++ now apply IH.
        -- cbn [run_calls] in Hin. apply Hc' in Hin. cbn [fst snd] in Hin.
           congruence.
      * cbn [run_calls run_exit run_processed] in *. apply in_app_or in Hin.
        destruct Hin as [Hin|[E|[]]].
        -- apply Hc in Hin. cbn [fst snd] in Hin. congruence.
        -- injection E as <- <-.
           split; [reflexivity|]. split; [now apply str_mem_not_In|].
           now exists c.
Qed.

(** The ledger is written whole or not at all. *)
Hypothesis ledger_writes :
  forall (w : World) (e : Exn) (kept : nat),
    write_outcome env w PROCESSED_BRANDS_FILENAME <> WriteRaises e kept.

(** Every entry of the ledger file, at the end of the loop over the brands,
    is in the ledger in memory or was in the file that an earlier world
    [w0] had. *)
Lemma main_loop_ledger_origin (w0 : World) (brands : list Brand) :
  forall (p : list str) (s : list (str * BrandExit)) (c : list (str * World))
         (w : World),
    Forall ledger_entry p ->
    Forall (fun b => ledger_entry (brand_url b)) brands ->
    (forall u, ledger_holds u w -> In u p \/ ledger_holds u w0) ->
    forall u,
      ledger_holds u (run_world (main_loop env brands p s c w)) ->
      In u (run_processed (main_loop env brands p s c w)) \/
      ledger_holds u w0.
Proof.
  induction brands as [|b rest IH]; intros p s c w Hp Hbrands Hinv;
    cbn [main_loop].
  - exact Hinv.
  - inversion Hbrands as [|b' rest' Hb Hrest]; subst.
    destruct (str_mem (brand_url b) p) eqn:Hmem; cbn [negb].
    + destruct (len p >? 4)%Z; [exact Hinv | now apply IH].
    + pose proof (scrape_brand_exit_ledger_file (brand_url b) w) as Hfile.
      destruct (scrape_brand_exit env (brand_url b) w) as [w1 x].
      cbn [fst] in Hfile.
      assert (Hinv1 : forall u, ledger_holds u w1 ->
                                In u p \/ ledger_holds u w0).
      { intros u Hu. apply Hinv. exact (ledger_holds_same u w w1 Hfile Hu). }
      destruct (exit_value x); [|exact Hinv1].
      assert (Hp' : Forall ledger_entry (p ++ [brand_url b])).
      { apply Forall_app. split; [assumption | now constructor]. }
      pose proof (save_brand_list_cases env (p ++ [brand_url b]) w1) as Hsave.
      destruct (write_outcome env w1 PROCESSED_BRANDS_FILENAME)
        as [|e|e kept] eqn:Hout;
        [| |exfalso; exact (ledger_writes w1 e kept Hout)].
      * rewrite Hsave.
        assert (Hinv2 : forall u,
                   ledger_holds u
                     (write_file PROCESSED_BRANDS_FILENAME
                        (ledger_text env (p ++ [brand_url b])) w1) ->
                   In u (p ++ [brand_url b]) \/ ledger_holds u w0).
        { intros u [data [Hd Hu]].
          destruct (lookup_file_written PROCESSED_BRANDS_FILENAME
                      (ledger_text env (p ++ [brand_url b])) w1) as [E _].
          rewrite E in Hd. injection Hd as <-.
          unfold ledger_text in Hu.
          rewrite ledger_text_round_trip in Hu by assumption. now left. }
        destruct (len (p ++ [brand_url b]) >? 4)%Z;
          [exact Hinv2 | now apply IH].
      * assert (Hinv2 : forall u, ledger_holds u w1 ->
                                  In u (p ++ [brand_url b]) \/
                                  ledger_holds u w0).
        { intros u Hu. destruct (Hinv1 u Hu) as [H|H]; [left|now right].
          apply in_or_app. now left. }
        rewrite Hsave. destruct (is_OSError e); [|exact Hinv2].
        destruct (len (p ++ [brand_url b]) >? 4)%Z;
          [exact Hinv2 | now apply IH].
Qed.

End FailedItem.

(** C8, as worded, fails: when the ledger file cannot be read, it is taken
    as empty; a brand that it holds is scraped again, and when [save_item]
    returns [None] for it the file still holds its URL after the run. *)
Lemma atomic_brand_completion_counterexample :
  ~ atomic_brand_completion_as_stated
      (unreadable_env audi_site)
      (world_with_ledger (at_host "/audi" ++ [ch_nl])).
Proof.
  intro H.
  destruct (H (at_host "/audi") unreadable_call) as [_ [Hfile _]].
  - vm_compute. left. reflexivity.
  - apply scrape_brand_exit_none. vm_compute. reflexivity.
  - apply Hfile. exists (at_host "/audi" ++ [ch_nl]).
    split; [vm_compute; reflexivity|].
    vm_compute. left. reflexivity.
Qed.

(** Why the file is spoken of under conditions.  A URL with a space at its
    end comes back from the file without it, and a ledger whose writing
    stops midway holds the beginning of a URL: in both runs the first brand
    succeeds, [save_item] returns [None] for the second, and the ledger
    file, which was not there before the run, holds the URL of the second
    brand after it. *)
Lemma ledger_file_conditions_needed :
  (In (at_host "/audi", ExitItemFailed)
      (run_scraped (main (fake_env spaced_site false) world0)) /\
   ledger_holds (at_host "/audi")
                (run_world (main (fake_env spaced_site false) world0))) /\
  (In (at_host "/audi", ExitItemFailed)
      (run_scraped (main (partial_env longer_site 29) world0)) /\
   ledger_holds (at_host "/audi")
                (run_world (main (partial_env longer_site 29) world0))) /\
  ~ ledger_holds (at_host "/audi") world0.
Proof.
  split; [|split].
  - split; [vm_compute; right; left; reflexivity|].
    exists (at_host "/audi " ++ [ch_nl]).
    split; [vm_compute; reflexivity|]. vm_compute. left. reflexivity.
  - split; [vm_compute; right; left; reflexivity|].
    exists (at_host "/audi").
    split; [vm_compute; reflexivity|]. vm_compute. left. reflexivity.
  - intros [data [H _]]. discriminate H.
Qed.

Lemma fake_env_image_paths (site : list (str * Response)) (closing : bool)
  (item : Item) :
  os_path_join (fake_env site closing) (item_brand item) (image_name item)
  <> PROCESSED_BRANDS_FILENAME.
Proof.
  cbn [os_path_join fake_env]. intro E.
  assert (Hin : In ch_slash PROCESSED_BRANDS_FILENAME).
  { rewrite <- E. apply in_or_app. right. now left. }
  vm_compute in Hin. intuition discriminate.
Qed.

(** C8, amended.  When a call of [save_item] returns [None] in a call of
    [scrape_brand] of a run, that call of [scrape_brand] returns [False] and
    is the last of the run, the run ends at the fatal return, and the URL of
    the brand is not in the ledger in memory.  The ledger file holds the URL
    after the run only if it held it before the run; this last part is for
    a catalogue whose URLs are without white space, a ledger that is written
    whole or not at all, and images stored under paths other than that of
    the ledger. *)
Theorem failed_image_halts_run (env : Env) (w : World) (url : str)
  (w1 : World)
  (Hcall : In (url, w1) (run_calls (main env w)))
  (Hnone : save_item_none_in_brand env url w1) :
  snd (scrape_brand env url w1) = false /\
  (exists earlier, run_calls (main env w) = earlier ++ [(url, w1)]) /\
  run_exit (main env w) = MainFatal /\
  ~ In url (run_processed (main env w)) /\
  ((forall brands p,
       main_inputs env w = Some (brands, p) ->
       Forall (fun b => no_space (brand_url b)) brands) ->
   (forall (w' : World) (e : Exn) (kept : nat),
       write_outcome env w' PROCESSED_BRANDS_FILENAME <> WriteRaises e kept) ->
   (forall item : Item,
       os_path_join env (item_brand item) (image_name item)
       <> PROCESSED_BRANDS_FILENAME) ->
   ledger_holds url (run_world (main env w)) -> ledger_holds url w).
Proof.
  apply scrape_brand_exit_none in Hnone.
  assert (Hfalse : exit_value (snd (scrape_brand_exit env url w1)) = false)
    by now rewrite Hnone.
  split.
  { unfold scrape_brand.
    destruct (scrape_brand_exit env url w1) as [w2 x]. exact Hfalse. }
  pose proof (main_start env w) as Hstart.
  destruct (main_inputs env w) as [[brands p]|] eqn:Hin.
  - destruct Hstart as [w' [Hmain [_ [Hfiles _]]]].
    rewrite Hmain in *.
    destruct (main_loop_failed_call env brands p [] [] w' url w1)
      as [Hexit [Hnot Hlast]]; try assumption.
    { intros e []. }
    split; [assumption|]. split; [assumption|]. split; [assumption|].
    intros Hurls Hwrite Hpaths Hholds.
    destruct (main_loop_ledger_origin env Hpaths Hwrite w' brands p [] [] w')
      with (u := url) as [Hp|Hw']; try assumption.
    + unfold main_inputs in Hin.
      destruct (setup_logging env w) as [w2 [[]|e]]; [|discriminate].
      destruct (get_brands env (log INFO MsgInitialization w2))
        as [w3 [[brands'|]|e]]; try discriminate.
      destruct (load_brand_list env
                  (log INFO (MsgTotalBrands (len brands')) w3))
        as [w4 [p'|e]] eqn:Hload; [|discriminate].
      injection Hin as _ <-.
      exact (load_brand_list_ledger_entries _ _ _ _ Hload).
    + eapply Forall_impl; [|exact (Hurls brands p eq_refl)].
      intros b Hb. now apply no_space_ledger_entry.
    + intros u Hu. now right.
    + contradiction.
    + apply (ledger_holds_same url w w'); [|assumption].
      now rewrite Hfiles.
  - destruct Hstart as [_ [Hcalls _]]. rewrite Hcalls in Hcall.
    destruct Hcall.
Qed.

Lemma failed_image_halts_run_witness :
  snd (scrape_brand (fake_env two_site false) (at_host "/audi") failing_call)
  = false /\
  (exists earlier,
      run_calls (main (fake_env two_site false) world0)
      = earlier ++ [(at_host "/audi", failing_call)]) /\
  run_exit (main (fake_env two_site false) world0) = MainFatal /\
  ~ In (at_host "/audi")
       (run_processed (main (fake_env two_site false) world0)) /\
  (ledger_holds (at_host "/audi")
                (run_world (main (fake_env two_site false) world0)) ->
   ledger_holds (at_host "/audi") world0).
Proof.
  destruct (failed_image_halts_run (fake_env two_site false) world0
                                   (at_host "/audi") failing_call)
    as [H1 [H2 [H3 [H4 H5]]]].
  - vm_compute. right. left. reflexivity.
  - apply scrape_brand_exit_none. vm_compute. reflexivity.
  - split; [exact H1|]. split; [exact H2|]. split; [exact H3|].
    split; [exact H4|].
    apply H5.
    + intros brands p H. vm_compute in H. injection H as <- _.
      repeat constructor.
    + intros w' e kept. discriminate.
    + apply fake_env_image_paths.
Defined.

(** * Further properties of the code *)

(** ** Fetcher: attempts, delays and log *)

Section FetcherMore.

Variable env : Env.

Lemma repeat_snoc_app {A : Type} (x : A) (n : nat) (l : list A) :
  repeat x n ++ x :: l = repeat x (S n) ++ l.
Proof.
  induction n as [|n IH]; [reflexivity|].
  cbn [repeat app]. rewrite IH. reflexivity.
Qed.

Lemma get_response_loop_paced (attempts : list Z) (url : str) :
  forall w : World,
    exists n,
      (n <= List.length attempts)%nat /\
      (attempts <> [] -> (1 <= n)%nat) /\
      requested (fst (get_response_loop env attempts url w))
      = repeat url n ++ requested w /\
      slept (fst (get_response_loop env attempts url w))
      = repeat SLEEP_TIME n ++ slept w /\
      files (fst (get_response_loop env attempts url w)) = files w /\
      folders (fst (get_response_loop env attempts url w)) = folders w /\
      workbooks (fst (get_response_loop env attempts url w)) = workbooks w.
Proof.
  induction attempts as [|a rest IH]; intro w; cbn [get_response_loop].
  - exists 0%nat. simpl. repeat split; try reflexivity; try lia.
    intro H. now contradiction H.
  - destruct (requests_get env w url) as [r|].
    + exists 1%nat.
      destruct (negb (status_code r =? codes_ok)%Z); simpl;
        repeat split; try reflexivity; lia.
    + destruct (IH (sleep SLEEP_TIME (do_request url w)))
        as [n [Hn [_ [Hreq [Hsl [Hf [Hd Hb]]]]]]].
      exists (S n). cbn [List.length].
      split; [lia|]. split; [intros _; lia|].
      rewrite Hreq, Hsl, Hf, Hd, Hb. cbn [requested slept files folders
                                           workbooks sleep do_request].
      rewrite !repeat_snoc_app. repeat split; reflexivity.
Qed.

Lemma get_response_loop_logged (attempts : list Z) (url : str) :
  forall w : World,
    match snd (get_response_loop env attempts url w) with
    | Some r =>
        status_code r = codes_ok /\
        logged (fst (get_response_loop env attempts url w)) = logged w
    | None =>
        exists m,
          logged (fst (get_response_loop env attempts url w))
          = (ERROR, m) :: logged w /\
          (m = MsgCantExecute url \/
           exists status, status <> codes_ok /\ m = MsgHttpError status url)
    end.
Proof.
  induction attempts as [|a rest IH]; intro w; cbn [get_response_loop].
  - simpl. exists (MsgCantExecute url). split; [reflexivity | now left].
  - destruct (requests_get env w url) as [r|].
    + destruct (Z.eqb_spec (status_code r) codes_ok) as [E|E]; simpl.
      * now split.
      * exists (MsgHttpError (status_code r) url). split; [reflexivity|].
        right. now exists (status_code r).
    + specialize (IH (sleep SLEEP_TIME (do_request url w))).
      destruct (get_response_loop env rest url
                  (sleep SLEEP_TIME (do_request url w))) as [w' [r|]];
        exact IH.
Qed.

Lemma retry_world_step (url : str) (k : nat) (w : World) :
  retry_world url k (sleep SLEEP_TIME (do_request url w))
  = retry_world url (S k) w.
Proof. unfold retry_world. now rewrite Nat.iter_succ_r. Qed.

Lemma get_response_loop_after_failures (url : str) (r : Response) (k : nat) :
  forall (attempts : list Z) (w : World),
    (k < List.length attempts)%nat ->
    (forall i, (i < k)%nat ->
               requests_get env (retry_world url i w) url = None) ->
    requests_get env (retry_world url k w) url = Some r ->
    get_response_loop env attempts url w
    = if (status_code r =? codes_ok)%Z
      then (retry_world url (S k) w, Some r)
      else (log ERROR (MsgHttpError (status_code r) url)
                (retry_world url (S k) w), None).
Proof.
  induction k as [|k IH]; intros attempts w Hlen Hfail Hresp;
    destruct attempts as [|a rest]; cbn [List.length] in Hlen; try lia;
    cbn [get_response_loop].
  - change (retry_world url 0 w) with w in Hresp. rewrite Hresp.
    destruct (status_code r =? codes_ok)%Z; reflexivity.
  - assert (H0 : requests_get env w url = None)
      by (apply (Hfail 0%nat); lia).
    rewrite H0.
    rewrite (IH rest (sleep SLEEP_TIME (do_request url w))).
    + now rewrite !retry_world_step.
    + lia.
    + intros i Hi. rewrite retry_world_step. apply Hfail. lia.
    + now rewrite retry_world_step.
Qed.

End FetcherMore.

(** X1.  Every call of [get_response] makes at least one and at most
    [MAX_RETRIES] requests, all for the given URL, sleeps [SLEEP_TIME] once
    per request and leaves the disk as it is. *)
Theorem get_response_attempts (env : Env) (url : str) (w : World) :
  exists n,
    (1 <= n <= 3)%nat /\
    requested (fst (get_response env url w)) = repeat url n ++ requested w /\
    slept (fst (get_response env url w)) = repeat SLEEP_TIME n ++ slept w /\
    files (fst (get_response env url w)) = files w /\
    folders (fst (get_response env url w)) = folders w /\
    workbooks (fst (get_response env url w)) = workbooks w.
Proof.
  unfold get_response.
  destruct (get_response_loop_paced env (range 0 MAX_RETRIES) url w)
    as [n [Hn [Hpos H]]].
  exists n. split; [|exact H].
  split; [apply Hpos; discriminate | exact Hn].
Qed.

(** X2.  [get_response] returns a response only when its status is 200,
    and then logs nothing; when it returns [None] it has logged exactly one
    error, either that the request cannot be executed or the status that is
    not 200. *)
Theorem get_response_result_and_log (env : Env) (url : str) (w : World) :
  match snd (get_response env url w) with
  | Some r =>
      status_code r = codes_ok /\
      logged (fst (get_response env url w)) = logged w
  | None =>
      exists m,
        logged (fst (get_response env url w)) = (ERROR, m) :: logged w /\
        (m = MsgCantExecute url \/
         exists status, status <> codes_ok /\ m = MsgHttpError status url)
  end.
Proof. unfold get_response. apply get_response_loop_logged. Qed.

(** X3.  When the first [k] attempts (k below [MAX_RETRIES]) raise a
    transport error and the next one gets a response, that response ends
    the call after k+1 requests and sleeps: it is returned when its status
    is 200, and otherwise its status is logged and [None] is returned. *)
Theorem get_response_after_failures (env : Env) (url : str) (w : World)
  (k : nat) (r : Response)
  (Hk : (k < 3)%nat)
  (Hfail : forall i, (i < k)%nat ->
                     requests_get env (retry_world url i w) url = None)
  (Hresp : requests_get env (retry_world url k w) url = Some r) :
  get_response env url w
  = if (status_code r =? codes_ok)%Z
    then (retry_world url (S k) w, Some r)
    else (log ERROR (MsgHttpError (status_code r) url)
              (retry_world url (S k) w), None).
Proof.
  unfold get_response.
  apply get_response_loop_after_failures; assumption.
Qed.

Lemma get_response_after_failures_witness :
  get_response (flaky_env 2 [(BRANDS_URL, picture 7 9)]) BRANDS_URL world0
  = if (status_code (picture 7 9) =? codes_ok)%Z
    then (retry_world BRANDS_URL 3 world0, Some (picture 7 9))
    else (log ERROR (MsgHttpError (status_code (picture 7 9)) BRANDS_URL)
              (retry_world BRANDS_URL 3 world0), None).
Proof.
  apply (get_response_after_failures
           (flaky_env 2 [(BRANDS_URL, picture 7 9)]) BRANDS_URL world0 2
           (picture 7 9)).
  - lia.
  - intros i Hi. destruct i as [|[|i]]; [reflexivity | reflexivity | lia].
  - reflexivity.
Defined.

(** ** Image store: what [save_image] leaves behind *)

(** X4.  [save_image] returns [True] only when a response with status 200
    came and the file was written whole; the file then holds the bytes of
    the response and nothing is logged.  When it returns [False] it has
    logged an error, and the file is as before (it could not be opened), or
    is empty (no response came: the file was open when [r.content] raised),
    or holds a leading part of the bytes of the response (writing raised). *)
Theorem save_image_outcome (env : Env) (url filename : str) (w : World) :
  if snd (save_image env url filename w)
  then
    exists r,
      snd (get_response env url w) = Some r /\
      status_code r = codes_ok /\
      lookup_file filename (files (fst (save_image env url filename w)))
      = Some (content r) /\
      logged (fst (save_image env url filename w)) = logged w
  else
    (exists m,
        hd_error (logged (fst (save_image env url filename w)))
        = Some (ERROR, m) /\
        (m = MsgCantSaveImage \/ exists e, m = MsgImageRetrieval e)) /\
    (files (fst (save_image env url filename w)) = files w
     \/
     (snd (get_response env url w) = None /\
      lookup_file filename (files (fst (save_image env url filename w)))
      = Some [])
     \/
     (exists r kept,
         snd (get_response env url w) = Some r /\
         lookup_file filename (files (fst (save_image env url filename w)))
         = Some (firstn kept (content r)))).
Proof.
  assert (Hexc : forall e w0,
             snd (save_image_except e w0) = false /\
             files (fst (save_image_except e w0)) = files w0 /\
             exists m,
               hd_error (logged (fst (save_image_except e w0)))
               = Some (ERROR, m) /\
               (m = MsgCantSaveImage \/ exists e, m = MsgImageRetrieval e)).
  { intros e w0. unfold save_image_except. destruct (is_OSError e);
      (split; [reflexivity|]; split; [reflexivity|]; eexists;
       split; [reflexivity|]); [now left | right; now exists e]. }
  unfold save_image.
  pose proof (get_response_loop_logged env (range 0 MAX_RETRIES) url w) as Hlog.
  destruct (get_response_loop_paced env (range 0 MAX_RETRIES) url w)
    as [n [_ [_ [_ [_ [Hf _]]]]]].
  fold (get_response env url w) in Hlog, Hf.
  destruct (get_response env url w) as [w1 r]. cbn [fst snd] in *.
  destruct (write_outcome env w1 filename) as [|e|e kept], r as [r|].
  - cbn [fst snd]. exists r. destruct Hlog as [Hs Hl].
    repeat split; try assumption. apply lookup_file_written.
  - destruct (Hexc AttributeError (write_file filename [] w1))
      as [-> [Ef Em]].
    split; [exact Em|]. right. left. split; [reflexivity|].
    rewrite Ef. apply lookup_file_written.
  - destruct (Hexc e w1) as [-> [Ef Em]].
    split; [exact Em|]. left. congruence.
  - destruct (Hexc e w1) as [-> [Ef Em]].
    split; [exact Em|]. left. congruence.
  - destruct (Hexc e (write_file filename (firstn kept (content r)) w1))
      as [-> [Ef Em]].
    split; [exact Em|]. right. right. exists r, kept.
    split; [reflexivity|]. rewrite Ef. apply lookup_file_written.
  - destruct (Hexc AttributeError (write_file filename [] w1))
      as [-> [Ef Em]].
    split; [exact Em|]. right. left. split; [reflexivity|].
    rewrite Ef. apply lookup_file_written.
Qed.

(** ** Image file names: what holds for every caption *)

Lemma existsb_outside (cls : char -> bool) (s : str) :
  outside cls s <-> existsb cls s = false.
Proof.
  unfold outside. induction s as [|c s IH]; simpl.
  - split; [reflexivity | constructor].
  - rewrite orb_false_iff, <- IH. split.
    + intro H. inversion H; subst. now split.
    + intros [Hc Hs]. now constructor.
Qed.

Lemma re_sub_class_is_outside (cls : char -> bool) (s : str) :
  cls ch_dash = false -> outside cls (re_sub_class cls s).
Proof.
  intro Hd. unfold outside, re_sub_class. apply Forall_map.
  apply Forall_forall. intros c _. now destruct (cls c) eqn:E.
Qed.

Lemma re_sub_runs_keeps_outside (cls2 cls : char -> bool) (s : str) :
  cls2 ch_dash = false -> outside cls2 s ->
  forall f, outside cls2 (re_sub_runs cls f s).
Proof.
  intros Hd H. induction H as [|c s Hc Hs IH]; intro f; simpl.
  - constructor.
  - destruct (cls c), f;
      first [ apply IH
            | constructor; [exact Hd | apply IH]
            | constructor; [exact Hc | apply IH] ].
Qed.

Lemma re_sub_runs_is_outside (cls : char -> bool) (s : str) :
  cls ch_dash = false -> forall f, outside cls (re_sub_runs cls f s).
Proof.
  intro Hd. induction s as [|c s IH]; intro f; simpl.
  - constructor.
  - destruct (cls c) eqn:E; [destruct f|];
      first [ apply IH
            | constructor; [exact Hd | apply IH]
            | constructor; [exact E | apply IH] ].
Qed.

(** After the dash runs are replaced, no two dashes are next to each other;
    inside a run the result does not start with a dash. *)
Lemma re_sub_dashes_no_double (s : str) :
  forall f,
    has_double_dash (re_sub_runs is_dash f s) = false /\
    (f = true ->
     match re_sub_runs is_dash f s with
     | d :: _ => is_dash d = false
     | [] => True
     end).
Proof.
  induction s as [|c s IH]; intro f; cbn [re_sub_runs].
  - split; [reflexivity | trivial].
  - destruct (is_dash c) eqn:E.
    + destruct f.
      * apply IH.
      * split; [|discriminate].
        destruct (IH true) as [Hdd Hhd]. specialize (Hhd eq_refl).
        destruct (re_sub_runs is_dash true s) as [|d t]; [reflexivity|].
        cbn [has_double_dash] in *.
        rewrite Hhd in Hdd. rewrite Hhd, andb_false_r. cbn [orb]. exact Hdd.
    + split; [|intros _; exact E].
      destruct (IH false) as [Hdd _].
      destruct (re_sub_runs is_dash false s) as [|d t]; [reflexivity|].
      cbn [has_double_dash] in *.
      rewrite E. cbn [andb orb]. exact Hdd.
Qed.

Lemma has_double_dash_prefix (p rest : str) :
  has_double_dash (p ++ rest) = false -> has_double_dash p = false.
Proof.
  induction p as [|c p IH]; [reflexivity|].
  destruct p as [|d p]; [reflexivity|].
  change (has_double_dash ((c :: d :: p) ++ rest))
    with ((is_dash c && is_dash d) || has_double_dash ((d :: p) ++ rest)).
  change (has_double_dash (c :: d :: p))
    with ((is_dash c && is_dash d) || has_double_dash (d :: p)).
  rewrite !orb_false_iff. intros [H1 H2]. split; [assumption | now apply IH].
Qed.

(** Without white space in the string, the last substitution cuts a tail
    off or changes nothing. *)
Lemma re_sub_ellipsis_prefix (s : str) :
  outside is_space s -> exists rest, s = re_sub_ellipsis s ++ rest.
Proof.
  induction 1 as [|c s Hc Hs IH].
  - now exists [].
  - cbn [re_sub_ellipsis].
    destruct (str_eqb (c :: s) (lit "-...")) eqn:E1.
    + now exists (c :: s).
    + destruct (str_eqb (c :: s) (lit "-..." ++ [ch_nl])) eqn:E2.
      * exfalso. apply str_eqb_eq in E2.
        assert (Hall : outside is_space (c :: s)) by now constructor.
        rewrite E2 in Hall. unfold outside in Hall.
        rewrite Forall_forall in Hall.
        assert (Hnl : is_space ch_nl = false)
          by (apply Hall; simpl; tauto).
        discriminate Hnl.
      * destruct IH as [rest IH]. exists rest. simpl. now rewrite <- IH.
Qed.

(** X5.  Whatever the brand, the model and the submodel are, the name that
    [save_item] derives before the extension holds no forbidden character,
    no white space and no two dashes next to each other. *)
Theorem image_stem_clean (brand model submodel : str) :
  has_forbidden (image_stem brand model submodel) = false /\
  existsb is_space (image_stem brand model submodel) = false /\
  has_double_dash (image_stem brand model submodel) = false.
Proof.
  unfold image_stem, has_forbidden.
  set (s0 := brand ++ lit "-" ++ model ++ lit "-" ++ submodel).
  set (s1 := re_sub_class FORBIDDEN_CHAR_RE s0).
  set (s2 := re_sub_runs is_space false s1).
  set (s3 := re_sub_runs is_dash false s2).
  assert (H1 : outside FORBIDDEN_CHAR_RE s1)
    by now apply re_sub_class_is_outside.
  assert (H2f : outside FORBIDDEN_CHAR_RE s2)
    by now apply re_sub_runs_keeps_outside.
  assert (H2s : outside is_space s2) by now apply re_sub_runs_is_outside.
  assert (H3f : outside FORBIDDEN_CHAR_RE s3)
    by now apply re_sub_runs_keeps_outside.
  assert (H3s : outside is_space s3) by now apply re_sub_runs_keeps_outside.
  assert (H3d : has_double_dash s3 = false)
    by apply (re_sub_dashes_no_double s2 false).
  destruct (re_sub_ellipsis_prefix s3 H3s) as [rest E].
  rewrite E in H3f, H3s, H3d.
  unfold outside in H3f, H3s. apply Forall_app in H3f, H3s.
  split; [apply existsb_outside; tauto|].
  split; [apply existsb_outside; tauto|].
  now apply has_double_dash_prefix with (rest := rest).
Qed.

(** X6.  The file name of an image ends with the extension of its URL: what
    follows the last dot of the file name is what follows the last dot of
    the image URL (the whole URL when it has no dot). *)
Theorem image_name_keeps_extension (item : Item) :
  image_ext (image_name item) = image_ext (item_image_url item) /\
  ~ In ch_dot (image_ext (item_image_url item)).
Proof.
  split; [|apply image_ext_no_dot].
  unfold image_name. change (lit ".") with [ch_dot].
  apply image_ext_after_last_dot. apply image_ext_no_dot.
Qed.

(** ** Page extractor *)

Lemma strip_prefix_app (p r : str) : strip_prefix p (p ++ r) = Some r.
Proof.
  induction p as [|x p IH]; [reflexivity|].
  simpl. now rewrite N.eqb_refl.
Qed.

Lemma strip_prefix_spec (p : str) :
  forall s r, strip_prefix p s = Some r -> s = p ++ r.
Proof.
  induction p as [|x p IH]; intros s r H; simpl in H.
  - now injection H as ->.
  - destruct s as [|y s]; [discriminate H|].
    destruct (N.eqb_spec x y) as [->|]; [|discriminate H].
    simpl. f_equal. now apply IH.
Qed.

Lemma existsb_newline (t : str) :
  existsb (N.eqb ch_nl) t = false <-> ~ In ch_nl t.
Proof.
  induction t as [|c t IH]; cbn [existsb In].
  - split; [intros _ [] | reflexivity].
  - rewrite orb_false_iff, IH. split.
    + intros [Hc Ht] [E|Hin]; [|now apply Ht].
      apply N.eqb_neq in Hc. congruence.
    + intro H. split.
      * apply N.eqb_neq. intro E. apply H. now left.
      * intro Hin. apply H. now right.
Qed.

Lemma rev_eq_cons {A : Type} (l t : list A) (c : A) :
  rev l = c :: t -> l = rev t ++ [c].
Proof.
  intro H. rewrite <- (rev_involutive l), H. reflexivity.
Qed.

(** X7.  [IMAGE_RE] finds the path of a style that is exactly
    background-image:url(path), with or without a newline at its end, when
    the path holds no newline. *)
Theorem IMAGE_RE_finds_path (path : str) (Hline : ~ In ch_nl path) :
  IMAGE_RE (lit "background-image:url(" ++ path ++ lit ")") = [path] /\
  IMAGE_RE (lit "background-image:url(" ++ path ++ lit ")" ++ [ch_nl])
  = [path].
Proof.
  assert (Hnl : existsb (N.eqb ch_nl) (rev path) = false).
  { apply existsb_newline. now rewrite <- in_rev. }
  unfold IMAGE_RE. rewrite !strip_prefix_app.
  change (lit ")") with [ch_rparen].
  split.
  - rewrite rev_unit.
    change (N.eqb ch_rparen ch_nl) with false. cbv iota.
    rewrite rev_unit, N.eqb_refl, Hnl. cbn [andb negb].
    now rewrite rev_involutive.
  - rewrite app_assoc, rev_unit, N.eqb_refl, rev_involutive.
    rewrite rev_unit, N.eqb_refl, Hnl. cbn [andb negb].
    now rewrite rev_involutive.
Qed.

Lemma IMAGE_RE_finds_path_witness :
  IMAGE_RE (lit "background-image:url(" ++ lit "/img/a4.png" ++ lit ")")
  = [lit "/img/a4.png"] /\
  IMAGE_RE (lit "background-image:url(" ++ lit "/img/a4.png" ++ lit ")"
            ++ [ch_nl])
  = [lit "/img/a4.png"].
Proof.
  apply (IMAGE_RE_finds_path (lit "/img/a4.png")).
  intro H. simpl in H.
  repeat (destruct H as [H|H]; [discriminate H|]). exact H.
Defined.

(** X8.  [IMAGE_RE] finds nothing else: a match is the only one, it holds
    no newline, and the style is background-image:url(, the match and a
    closing parenthesis, with at most one newline after it. *)
Theorem IMAGE_RE_match_shape (style path : str) (others : list str)
  (Hmatch : IMAGE_RE style = path :: others) :
  others = [] /\
  ~ In ch_nl path /\
  (style = lit "background-image:url(" ++ path ++ lit ")" \/
   style = lit "background-image:url(" ++ path ++ lit ")" ++ [ch_nl]).
Proof.
  unfold IMAGE_RE in Hmatch.
  destruct (strip_prefix (lit "background-image:url(") style) as [rest|] eqn:P;
    [|discriminate Hmatch].
  apply strip_prefix_spec in P. subst style.
  change (lit ")") with [ch_rparen].
  assert (Hend : forall body,
            match rev body with
            | c :: t =>
                if N.eqb c ch_rparen && negb (existsb (N.eqb ch_nl) t)
                then [rev t] else []
            | [] => []
            end = path :: others ->
            others = [] /\ ~ In ch_nl path /\ body = path ++ [ch_rparen]).
  { intros body H. destruct (rev body) as [|c t] eqn:R; [discriminate H|].
    destruct (N.eqb_spec c ch_rparen) as [->|]; [|discriminate H].
    destruct (existsb (N.eqb ch_nl) t) eqn:X; [discriminate H|].
    cbn [andb negb] in H. injection H as <- <-.
    apply existsb_newline in X.
    split; [reflexivity|]. split; [now rewrite <- in_rev|].
    now apply rev_eq_cons. }
  destruct (rev rest) as [|c t] eqn:R.
  - rewrite R in Hmatch. discriminate Hmatch.
  - destruct (N.eqb_spec c ch_nl) as [->|Hc].
    + apply Hend in Hmatch. destruct Hmatch as [Ho [Hp Hb]].
      apply rev_eq_cons in R. rewrite Hb in R.
      split; [assumption|]. split; [assumption|].
      right. rewrite R. now rewrite <- !app_assoc.
    + apply Hend in Hmatch. destruct Hmatch as [Ho [Hp Hb]].
      split; [assumption|]. split; [assumption|].
      left. now rewrite Hb.
Qed.

Lemma IMAGE_RE_match_shape_witness :
  [] = @nil str /\
  ~ In ch_nl (lit "/img/a4.png") /\
  (lit "background-image:url(/img/a4.png)"
   = lit "background-image:url(" ++ lit "/img/a4.png" ++ lit ")" \/
   lit "background-image:url(/img/a4.png)"
   = lit "background-image:url(" ++ lit "/img/a4.png" ++ lit ")" ++ [ch_nl]).
Proof.
  apply (IMAGE_RE_match_shape (lit "background-image:url(/img/a4.png)")
                              (lit "/img/a4.png") []).
  reflexivity.
Defined.

Lemma page_items_anchors (anchors : list Anchor) :
  forall l, page_items anchors = Ret l -> Forall2 item_from_anchor anchors l.
Proof.
  induction anchors as [|a anchors IH]; intros l H; cbn [page_items] in H.
  - injection H as <-. constructor.
  - destruct (page_item a) as [i|e] eqn:Ha; [|discriminate H].
    destruct (page_items anchors) as [l'|e]; [|discriminate H].
    injection H as <-. constructor; [|now apply IH].
    unfold page_item in Ha.
    destruct (a_href a) as [href|] eqn:Hh; [|discriminate Ha].
    destruct (a_div a) as [[style|]|] eqn:Hd; try discriminate Ha.
    destruct (IMAGE_RE style) as [|path others] eqn:Hre; [discriminate Ha|].
    destruct (a_p a) as [text|] eqn:Hp; [|discriminate Ha].
    injection Ha as <-.
    exists href, style, path, others, text. repeat split; assumption.
Qed.

(** X9.  When [scrape_page] extracts a page, no anchor of the listing is
    skipped: the items are the anchors, one to one and in their order, each
    with its URL and image URL under [HOST_URL] and its caption stripped;
    the two captions of the page are the stripped texts of the last
    breadcrumb link and of the active breadcrumb. *)
Theorem extract_page_complete (s : Soup) (p : Page)
  (Hpage : extract_page s = Ret p) :
  (exists before crumb,
      breadcrumps s = before ++ [crumb] /\
      previous_caption p = strip crumb) /\
  (exists active,
      breadcrump_active s = Some active /\
      current_caption p = strip active) /\
  (exists anchors,
      listing s = Some anchors /\
      Forall2 item_from_anchor anchors (items p)).
Proof.
  unfold extract_page in Hpage.
  destruct (rev (breadcrumps s)) as [|crumb t] eqn:R; [discriminate Hpage|].
  destruct (breadcrump_active s) as [active|]; [|discriminate Hpage].
  destruct (listing s) as [anchors|]; [|discriminate Hpage].
  destruct (page_items anchors) as [l|e] eqn:Hl; [|discriminate Hpage].
  injection Hpage as <-. cbn [previous_caption current_caption items].
  split; [|split].
  - exists (rev t), crumb. split; [now apply rev_eq_cons | reflexivity].
  - now exists active.
  - exists anchors. split; [reflexivity | now apply page_items_anchors].
Qed.

Lemma extract_page_complete_witness :
  (exists before crumb,
      breadcrumps (mkSoup [lit "Home"; lit "Chip tuning"] (Some (lit " Audi "))
                          (Some [tile "/audi/a4" "/img/a4.png" "A4"]))
      = before ++ [crumb] /\
      previous_caption
        (mkPage (lit "Chip tuning") (lit "Audi")
                [mkPageItem (lit "A4") (at_host "/audi/a4")
                            (at_host "/img/a4.png")])
      = strip crumb) /\
  (exists active,
      breadcrump_active
        (mkSoup [lit "Home"; lit "Chip tuning"] (Some (lit " Audi "))
                (Some [tile "/audi/a4" "/img/a4.png" "A4"]))
      = Some active /\
      current_caption
        (mkPage (lit "Chip tuning") (lit "Audi")
                [mkPageItem (lit "A4") (at_host "/audi/a4")
                            (at_host "/img/a4.png")])
      = strip active) /\
  (exists anchors,
      listing (mkSoup [lit "Home"; lit "Chip tuning"] (Some (lit " Audi "))
                      (Some [tile "/audi/a4" "/img/a4.png" "A4"]))
      = Some anchors /\
      Forall2 item_from_anchor anchors
              (items (mkPage (lit "Chip tuning") (lit "Audi")
                             [mkPageItem (lit "A4") (at_host "/audi/a4")
                                         (at_host "/img/a4.png")]))).
Proof.
  apply (extract_page_complete
           (mkSoup [lit "Home"; lit "Chip tuning"] (Some (lit " Audi "))
                   (Some [tile "/audi/a4" "/img/a4.png" "A4"]))).
  reflexivity.
Defined.

Lemma brand_items_anchors (anchors : list Anchor) :
  forall l, brand_items anchors = Ret l -> Forall2 brand_from_anchor anchors l.
Proof.
  induction anchors as [|a anchors IH]; intros l H; cbn [brand_items] in H.
  - injection H as <-. constructor.
  - destruct (brand_item a) as [b|e] eqn:Ha; [|discriminate H].
    destruct (brand_items anchors) as [l'|e]; [|discriminate H].
    injection H as <-. constructor; [|now apply IH].
    unfold brand_item in Ha.
    destruct (a_href a) as [href|] eqn:Hh; [|discriminate Ha].
    destruct (a_p a) as [text|] eqn:Hp; [|discriminate Ha].
    injection Ha as <-. exists href, text. repeat split; assumption.
Qed.

(** X10.  When [get_brands] returns a list, the catalogue page came with
    status 200 and the brands are the anchors of its listing, one to one
    and in their order, each with its URL under [HOST_URL] and its caption
    stripped. *)
Theorem get_brands_complete (env : Env) (w w' : World) (brands : list Brand)
  (Hbrands : get_brands env w = (w', Ret (Some brands))) :
  exists r anchors,
    get_response env BRANDS_URL w = (w', Some r) /\
    status_code r = codes_ok /\
    listing (soup r) = Some anchors /\
    Forall2 brand_from_anchor anchors brands.
Proof.
  unfold get_brands in Hbrands.
  pose proof (get_response_loop_logged env (range 0 MAX_RETRIES) BRANDS_URL w)
    as Hlog.
  fold (get_response env BRANDS_URL w) in Hlog.
  destruct (get_response env BRANDS_URL w) as [w1 [r|]];
    [|discriminate Hbrands].
  cbn [fst snd] in Hlog. destruct Hlog as [Hs _].
  destruct (listing (soup r)) as [anchors|] eqn:Hl; [|discriminate Hbrands].
  destruct (brand_items anchors) as [l|e] eqn:Hb; [|discriminate Hbrands].
  injection Hbrands as <- <-.
  exists r, anchors. repeat split; try assumption.
  now apply brand_items_anchors.
Qed.

Lemma get_brands_complete_witness :
  exists r anchors,
    get_response (fake_env audi_site false) BRANDS_URL world0
    = (fst (get_brands (fake_env audi_site false) world0), Some r) /\
    status_code r = codes_ok /\
    listing (soup r) = Some anchors /\
    Forall2 brand_from_anchor anchors [mkBrand (lit "Audi") (at_host "/audi")].
Proof.
  apply (get_brands_complete (fake_env audi_site false) world0
           (fst (get_brands (fake_env audi_site false) world0))
           [mkBrand (lit "Audi") (at_host "/audi")]).
  reflexivity.
Defined.

(** ** Orchestrator: the ledger and the calls of a run *)

Section OrchestratorMore.

Variable env : Env.

(** The calls that the loop adds: none on a URL of the ledger, none twice,
    all on brands of the catalogue; the ledger grows by the URLs of the
    calls that returned [True]. *)
Lemma main_loop_calls (brands : list Brand) :
  forall (p : list str) (s : list (str * BrandExit)) (c : list (str * World))
         (w : World),
    exists new,
      run_scraped (main_loop env brands p s c w) = s ++ new /\
      run_processed (main_loop env brands p s c w)
      = p ++ map fst (filter call_ok new) /\
      (forall u, In u (map fst new) ->
                 ~ In u p /\ In u (map brand_url brands)) /\
      NoDup (map fst new).
Proof.
  assert (Hnone : forall (bs : list Brand) (p : list str)
                         (s : list (str * BrandExit)),
            s = s ++ [] /\
            p = p ++ map fst (filter call_ok []) /\
            (forall u, In u (map fst (@nil (str * BrandExit))) ->
                       ~ In u p /\ In u (map brand_url bs)) /\
            NoDup (map fst (@nil (str * BrandExit)))).
  { intros bs p s. cbn [map filter]. rewrite !app_nil_r.
    split; [reflexivity|]. split; [reflexivity|].
    split; [intros u [] | constructor]. }
  assert (Hone : forall (b : Brand) (rest : list Brand) (p : list str)
                        (s : list (str * BrandExit)) (x : BrandExit),
            ~ In (brand_url b) p ->
            s ++ [(brand_url b, x)] = s ++ [(brand_url b, x)] /\
            (if exit_value x then p ++ [brand_url b] else p)
            = p ++ map fst (filter call_ok [(brand_url b, x)]) /\
            (forall u, In u (map fst [(brand_url b, x)]) ->
                       ~ In u p /\ In u (map brand_url (b :: rest))) /\
            NoDup (map fst [(brand_url b, x)])).
  { intros b rest p s x Hb. cbn [map filter fst]. unfold call_ok. cbn [snd].
    split; [reflexivity|].
    split; [destruct (exit_value x); cbn [map fst];
            [reflexivity | now rewrite app_nil_r]|].
    split.
    - intros u [<-|[]]. split; [assumption | now left].
    - constructor; [intros [] | constructor]. }
  induction brands as [|b rest IH]; intros p s c w; cbn [main_loop].
  - exists []. apply Hnone.
  - destruct (str_mem (brand_url b) p) eqn:Hmem; cbn [negb].
    + destruct (len p >? 4)%Z.
      * exists []. apply Hnone.
      * destruct (IH p s c w) as [new [Hs [Hp [Hu Hnd]]]].
        exists new.
        split; [assumption|]. split; [assumption|].
        split; [|assumption].
        intros u Hin. split; [now apply Hu|]. right. now apply Hu.
    + apply str_mem_not_In in Hmem.
      destruct (scrape_brand_exit env (brand_url b) w) as [w1 x].
      pose proof (Hone b rest p s x Hmem) as Hx.
      destruct (exit_value x) eqn:Ex.
      * destruct (save_brand_list env (p ++ [brand_url b]) w1)
          as [w2 [saved|e]]; [|exists [(brand_url b, x)]; exact Hx].
        destruct (len (p ++ [brand_url b]) >? 4)%Z.
        -- exists [(brand_url b, x)]. exact Hx.
        -- destruct (IH (p ++ [brand_url b]) (s ++ [(brand_url b, x)])
                        (c ++ [(brand_url b, w)]) w2)
             as [new [Hs [Hp [Hu Hnd]]]].
           exists ((brand_url b, x) :: new).
           rewrite Hs, Hp, <- !app_assoc.
           cbn [map filter fst app]. unfold call_ok at 2. cbn [snd].
           rewrite Ex. cbn [map fst].
           split; [reflexivity|]. split; [reflexivity|].
           split.
           ++ intros u [<-|Hin].
              ** split; [assumption | now left].
              ** split; [|right; now apply Hu].
                 intro Hp'. apply (Hu u Hin). apply in_or_app. now left.
           ++ constructor; [|assumption].
              intro Hin. apply (Hu _ Hin). apply in_or_app. right. now left.
      * exists [(brand_url b, x)]. exact Hx.
Qed.

(** An exception that leaves [save_brand_list] is no [OSError]. *)
Lemma save_brand_list_raise (brands : list str) (w w' : World) (e : Exn) :
  save_brand_list env brands w = (w', Raise e) -> is_OSError e = false.
Proof.
  pose proof (save_brand_list_cases env brands w) as H.
  destruct (write_outcome env w PROCESSED_BRANDS_FILENAME) as [|e'|e' kept];
    rewrite H; try discriminate;
    destruct (is_OSError e') eqn:E; try discriminate;
    intro H'; injection H' as _ <-; exact E.
Qed.

(** Every call but the last returned [True]; the run ends at the fatal
    return exactly when the last call returned [False], and by an exception
    when [save_brand_list] raises after a call that returned [True]. *)
Lemma main_loop_exit (brands : list Brand) :
  forall (p : list str) (s : list (str * BrandExit)) (c : list (str * World))
         (w : World),
    Forall (fun e => call_ok e = true) s ->
    match run_exit (main_loop env brands p s c w) with
    | MainFatal =>
        exists before u x,
          run_scraped (main_loop env brands p s c w) = before ++ [(u, x)] /\
          exit_value x = false /\
          Forall (fun e => call_ok e = true) before
    | MainComplete =>
        Forall (fun e => call_ok e = true)
               (run_scraped (main_loop env brands p s c w))
    | MainRaised e =>
        Forall (fun e => call_ok e = true)
               (run_scraped (main_loop env brands p s c w)) /\
        is_OSError e = false /\
        exists before u w1,
          run_calls (main_loop env brands p s c w) = before ++ [(u, w1)] /\
          exit_value (snd (scrape_brand_exit env u w1)) = true /\
          save_brand_list env (run_processed (main_loop env brands p s c w))
                          (fst (scrape_brand_exit env u w1))
          = (run_world (main_loop env brands p s c w), Raise e)
    | MainNoBrands => False
    end.
Proof.
  induction brands as [|b rest IH]; intros p s c w Hs; cbn [main_loop].
  - exact Hs.
  - destruct (str_mem (brand_url b) p); cbn [negb].
    + destruct (len p >? 4)%Z; [exact Hs | now apply IH].
    + destruct (scrape_brand_exit env (brand_url b) w) as [w1 x] eqn:Hb.
      destruct (exit_value x) eqn:Hx.
      * assert (Hs' : Forall (fun e => call_ok e = true)
                             (s ++ [(brand_url b, x)])).
        { apply Forall_app. split; [assumption|]. now repeat constructor. }
        destruct (save_brand_list env (p ++ [brand_url b]) w1)
          as [w2 [saved|e]] eqn:Hsave.
        -- destruct (len (p ++ [brand_url b]) >? 4)%Z;
             [exact Hs' | now apply IH].
        -- cbn [run_exit run_scraped run_processed run_world run_calls].
           split; [exact Hs'|].
           split; [exact (save_brand_list_raise _ _ _ _ Hsave)|].
           exists c, (brand_url b), w. rewrite Hb. cbn [fst snd].
           repeat split; assumption.
      * cbn [run_exit run_scraped]. now exists s, (brand_url b), x.
Qed.

(** When writing the ledger never fails, a loop that ends normally leaves
    the ledger file with the text of the ledger, unless it called nothing. *)
Lemma main_loop_ledger_file (brands : list Brand) :
  (forall w, write_outcome env w PROCESSED_BRANDS_FILENAME = Written) ->
  forall (p : list str) (s : list (str * BrandExit)) (c : list (str * World))
         (w : World),
    s = [] \/
    lookup_file PROCESSED_BRANDS_FILENAME (files w)
    = Some (ledger_text env p) ->
    run_exit (main_loop env brands p s c w) = MainComplete ->
    run_scraped (main_loop env brands p s c w) = [] \/
    lookup_file PROCESSED_BRANDS_FILENAME
                (files (run_world (main_loop env brands p s c w)))
    = Some (ledger_text env (run_processed (main_loop env brands p s c w))).
Proof.
  intro Hwrite.
  induction brands as [|b rest IH]; intros p s c w Hinv Hexit;
    cbn [main_loop] in *.
  - exact Hinv.
  - destruct (str_mem (brand_url b) p); cbn [negb] in *.
    + destruct (len p >? 4)%Z; [exact Hinv | now apply IH].
    + destruct (scrape_brand_exit env (brand_url b) w) as [w1 x].
      destruct (exit_value x); [|discriminate Hexit].
      pose proof (save_brand_list_cases env (p ++ [brand_url b]) w1) as Hsave.
      rewrite Hwrite in Hsave. rewrite Hsave in *.
      destruct (len (p ++ [brand_url b]) >? 4)%Z.
      * right. cbn [run_world run_processed files log].
        apply lookup_file_written.
      * apply IH; [|assumption]. right. apply lookup_file_written.
Qed.

End OrchestratorMore.

(** X11.  At the end of a run that read its catalogue and its ledger,
    [processed_brands] is the ledger that was loaded followed by the URLs of
    the calls of [scrape_brand] that returned [True], in the order of the
    calls. *)
Theorem processed_brands_grow_by_successes (env : Env) (w : World)
  (brands : list Brand) (loaded : list str)
  (Hinputs : main_inputs env w = Some (brands, loaded)) :
  run_processed (main env w)
  = loaded ++ map fst (filter call_ok (run_scraped (main env w))).
Proof.
  pose proof (main_start env w) as Hstart. rewrite Hinputs in Hstart.
  destruct Hstart as [w' [-> _]].
  destruct (main_loop_calls env brands loaded [] [] w')
    as [new [Hs [Hp _]]].
  rewrite Hp, Hs. reflexivity.
Qed.

Lemma processed_brands_grow_by_successes_witness :
  run_processed (main (fake_env six_site false)
                      (world_with_ledger (at_host "/b2" ++ [ch_nl])))
  = [at_host "/b2"]
    ++ map fst (filter call_ok
                       (run_scraped
                          (main (fake_env six_site false)
                                (world_with_ledger (at_host "/b2" ++ [ch_nl]))))).
Proof.
  apply (processed_brands_grow_by_successes
           (fake_env six_site false)
           (world_with_ledger (at_host "/b2" ++ [ch_nl]))
           (map (fun b => mkBrand (lit b) (at_host b)) six_brands)).
  vm_compute. reflexivity.
Defined.

(** X12.  A run never calls [scrape_brand] on a URL that the loaded ledger
    holds, never calls it twice on the same URL (even when the catalogue
    lists a brand twice), and calls it only on URLs of the catalogue. *)
Theorem brands_scraped_once (env : Env) (w : World)
  (brands : list Brand) (loaded : list str)
  (Hinputs : main_inputs env w = Some (brands, loaded)) :
  NoDup (map fst (run_scraped (main env w))) /\
  forall u, In u (map fst (run_scraped (main env w))) ->
            ~ In u loaded /\ In u (map brand_url brands).
Proof.
  pose proof (main_start env w) as Hstart. rewrite Hinputs in Hstart.
  destruct Hstart as [w' [-> _]].
  destruct (main_loop_calls env brands loaded [] [] w')
    as [new [Hs [_ [Hu Hnd]]]].
  rewrite Hs. cbn [app]. split; assumption.
Qed.

Lemma brands_scraped_once_witness :
  NoDup (map fst (run_scraped
                    (main (fake_env six_site false)
                          (world_with_ledger (at_host "/b2" ++ [ch_nl]))))) /\
  forall u,
    In u (map fst (run_scraped
                     (main (fake_env six_site false)
                           (world_with_ledger (at_host "/b2" ++ [ch_nl]))))) ->
    ~ In u [at_host "/b2"] /\
    In u (map brand_url
              (map (fun b => mkBrand (lit b) (at_host b)) six_brands)).
Proof.
  apply (brands_scraped_once
           (fake_env six_site false)
           (world_with_ledger (at_host "/b2" ++ [ch_nl]))).
  vm_compute. reflexivity.
Defined.

(** X13.  In every run, each call of [scrape_brand] but the last returned
    [True], and the run ends at the fatal return of line 91 exactly when its
    last call returned [False], whatever the reason.  A run ends by an
    exception in four ways: the log file cannot be opened; the catalogue
    page could not be fetched and [len(None)] raises; [load_brand_list]
    raises an exception that is no [OSError]; or [save_brand_list] does,
    after a call of [scrape_brand] that returned [True]. *)
Theorem run_exit_and_calls (env : Env) (w : World) :
  match run_exit (main env w) with
  | MainFatal =>
      exists before u x,
        run_scraped (main env w) = before ++ [(u, x)] /\
        exit_value x = false /\
        Forall (fun e => call_ok e = true) before
  | MainComplete =>
      Forall (fun e => call_ok e = true) (run_scraped (main env w))
  | MainNoBrands => run_scraped (main env w) = []
  | MainRaised e =>
      Forall (fun e => call_ok e = true) (run_scraped (main env w)) /\
      (snd (setup_logging env w) = Raise e
       \/
       (e = TypeError /\
        snd (get_response env BRANDS_URL
               (log INFO MsgInitialization (fst (setup_logging env w))))
        = None)
       \/
       (is_OSError e = false /\ run_scraped (main env w) = [] /\
        exists w1 brands,
          get_brands env
            (log INFO MsgInitialization (fst (setup_logging env w)))
          = (w1, Ret (Some brands)) /\
          load_brand_list env (log INFO (MsgTotalBrands (len brands)) w1)
          = (run_world (main env w), Raise e))
       \/
       (is_OSError e = false /\
        exists before u w1,
          run_calls (main env w) = before ++ [(u, w1)] /\
          exit_value (snd (scrape_brand_exit env u w1)) = true /\
          save_brand_list env (run_processed (main env w))
                          (fst (scrape_brand_exit env u w1))
          = (run_world (main env w), Raise e)))
  end.
Proof.
  unfold main.
  destruct (setup_logging env w) as [w0 [[]|e]]; cbn [fst snd run_exit];
    [|split; [constructor | now left]].
  destruct (get_brands env (log INFO MsgInitialization w0))
    as [w1 [[brands|]|e]] eqn:Hget.
  - destruct (load_brand_list env (log INFO (MsgTotalBrands (len brands)) w1))
      as [w3 [p|e]] eqn:Hload.
    + pose proof (main_loop_exit env brands p [] []
                    (log INFO (MsgAlreadyScraped (len p)) w3)
                    (Forall_nil _)) as Hloop.
      destruct (run_exit (main_loop env brands p [] []
                            (log INFO (MsgAlreadyScraped (len p)) w3)));
        try contradiction; try exact Hloop.
      destruct Hloop as [Hok [He Hsave]].
      split; [exact Hok|]. right. right. right. now split.
    + cbn [run_exit run_scraped run_world]. split; [constructor|].
      right. right. left.
      split; [|split; [reflexivity|]].
      * unfold load_brand_list in Hload.
        destruct (os_path_exists PROCESSED_BRANDS_FILENAME _);
          [|discriminate Hload].
        destruct (lookup_file PROCESSED_BRANDS_FILENAME _);
          [|discriminate Hload].
        destruct (read_raises env _ PROCESSED_BRANDS_FILENAME) as [e'|];
          [|discriminate Hload].
        destruct (is_OSError e') eqn:E; [discriminate Hload|].
        now injection Hload as _ <-.
      * exists w1, brands. now split.
  - cbn [run_exit run_scraped]. split; [constructor|]. right. left.
    split; [reflexivity|].
    unfold get_brands in Hget.
    destruct (get_response env BRANDS_URL (log INFO MsgInitialization w0))
      as [w2 [r|]]; [|reflexivity].
    destruct (listing (soup r)) as [anchors|]; [|discriminate Hget].
    destruct (brand_items anchors); discriminate Hget.
  - reflexivity.
Qed.

(** X14.  When writing the ledger file never fails, a run that ends
    normally after at least one call of [scrape_brand] leaves the ledger
    file with exactly the text of its final [processed_brands], one URL per
    line. *)
Theorem ledger_file_after_run (env : Env) (w : World)
  (Hwrite : forall w',
      write_outcome env w' PROCESSED_BRANDS_FILENAME = Written)
  (Hexit : run_exit (main env w) = MainComplete)
  (Hcalls : run_scraped (main env w) <> []) :
  lookup_file PROCESSED_BRANDS_FILENAME (files (run_world (main env w)))
  = Some (ledger_text env (run_processed (main env w))).
Proof.
  pose proof (main_start env w) as Hstart.
  destruct (main_inputs env w) as [[brands p]|].
  - destruct Hstart as [w' [Hmain _]]. rewrite Hmain in *.
    destruct (main_loop_ledger_file env brands Hwrite p [] [] w')
      as [H|H]; try assumption; [now left | contradiction].
  - destruct Hstart as [Hs _]. contradiction.
Qed.

Lemma ledger_file_after_run_witness :
  lookup_file PROCESSED_BRANDS_FILENAME
              (files (run_world
                        (main (fake_env six_site false)
                              (world_with_ledger (at_host "/b2" ++ [ch_nl])))))
  = Some (ledger_text
            (fake_env six_site false)
            (run_processed
               (main (fake_env six_site false)
                     (world_with_ledger (at_host "/b2" ++ [ch_nl]))))).
Proof.
  apply (ledger_file_after_run
           (fake_env six_site false)
           (world_with_ledger (at_host "/b2" ++ [ch_nl]))).
  - intro w'. reflexivity.
  - vm_compute. reflexivity.
  - vm_compute. discriminate.
Defined.

(** ** Progress ledger: what [load_brand_list] returns *)

(** X15.  Every entry that [load_brand_list] returns is one stripped line:
    it holds no newline and no carriage return, and stripping it again
    changes nothing; an exception that leaves the call is no [OSError].
    The call changes nothing in the world but the log. *)
Theorem load_brand_list_entries (env : Env) (w : World) :
  match snd (load_brand_list env w) with
  | Ret brands =>
      Forall (fun brand =>
                ~ In ch_nl brand /\ ~ In ch_cr brand /\ strip brand = brand)
             brands
  | Raise e => is_OSError e = false
  end /\
  requested (fst (load_brand_list env w)) = requested w /\
  files (fst (load_brand_list env w)) = files w /\
  folders (fst (load_brand_list env w)) = folders w /\
  workbooks (fst (load_brand_list env w)) = workbooks w.
Proof.
  destruct (load_brand_list_frame env w) as [Hr [_ [Hf [Hd [Hb _]]]]].
  split; [|repeat split; assumption].
  destruct (load_brand_list env w) as [w' [p|e]] eqn:Hload; cbn [snd].
  - exact (load_brand_list_ledger_entries env w w' p Hload).
  - unfold load_brand_list in Hload.
    destruct (os_path_exists PROCESSED_BRANDS_FILENAME w);
      [|discriminate Hload].
    destruct (lookup_file PROCESSED_BRANDS_FILENAME (files w));
      [|discriminate Hload].
    destruct (read_raises env w PROCESSED_BRANDS_FILENAME) as [e'|];
      [|discriminate Hload].
    destruct (is_OSError e') eqn:E; [discriminate Hload|].
    now injection Hload as _ <-.
Qed.

(** ** The requests of a run *)

Section Crawl.

Variable env : Env.
Variable P : str -> Prop.
Hypothesis P_host : forall path, P (HOST_URL ++ path).

Lemma crawled_refl (w : World) : crawled P w w.
Proof. exists []. repeat split. constructor. Qed.

Lemma crawled_trans (w1 w2 w3 : World) :
  crawled P w1 w2 -> crawled P w2 w3 -> crawled P w1 w3.
Proof.
  intros [u1 [R1 [S1 F1]]] [u2 [R2 [S2 F2]]].
  exists (u2 ++ u1). split; [|split].
  - now rewrite R2, R1, app_assoc.
  - now rewrite S2, S1, length_app, repeat_app, app_assoc.
  - apply Forall_app. now split.
Qed.

Lemma crawled_same (w w1 w2 : World) :
  crawled P w w1 -> requested w2 = requested w1 -> slept w2 = slept w1 ->
  crawled P w w2.
Proof.
  intros [u [R [S F]]] HR HS. exists u. rewrite HR, HS. now repeat split.
Qed.

Lemma get_response_crawled (url : str) (w : World) :
  P url -> crawled P w (fst (get_response env url w)).
Proof.
  intro Hurl. unfold get_response.
  destruct (get_response_loop_paced env (range 0 MAX_RETRIES) url w)
    as [n [_ [_ [HR [HS _]]]]].
  exists (repeat url n). rewrite repeat_length.
  split; [assumption|]. split; [assumption|].
  apply Forall_forall. intros x Hx. apply repeat_spec in Hx. now subst x.
Qed.

Lemma save_image_crawled (url filename : str) (w : World) :
  P url -> crawled P w (fst (save_image env url filename w)).
Proof.
  intro Hurl. unfold save_image.
  pose proof (get_response_crawled url w Hurl) as H.
  destruct (get_response env url w) as [w1 r]. cbn [fst] in H.
  assert (Hexc : forall e w0,
             requested (fst (save_image_except e w0)) = requested w0 /\
             slept (fst (save_image_except e w0)) = slept w0).
  { intros e w0. unfold save_image_except. now destruct (is_OSError e). }
  destruct (write_outcome env w1 filename) as [|e|e kept], r as [r|];
    cbn [fst];
    try (eapply crawled_same; [exact H | |]; reflexivity);
    match goal with
    | |- context [save_image_except ?e ?w0] =>
        destruct (Hexc e w0) as [ER ES];
        eapply crawled_same; [exact H | rewrite ER | rewrite ES]; reflexivity
    end.
Qed.

Lemma page_items_urls (anchors : list Anchor) :
  forall l, page_items anchors = Ret l ->
            Forall (fun i => P (pi_url i) /\ P (pi_image_url i)) l.
Proof.
  induction anchors as [|a anchors IH]; intros l H; cbn [page_items] in H.
  - injection H as <-. constructor.
  - destruct (page_item a) as [i|e] eqn:Ha; [|discriminate H].
    destruct (page_items anchors) as [l'|e]; [|discriminate H].
    injection H as <-. constructor; [|now apply IH].
    unfold page_item in Ha.
    destruct (a_href a) as [href|]; [|discriminate Ha].
    destruct (a_div a) as [[style|]|]; try discriminate Ha.
    destruct (IMAGE_RE style) as [|path others]; [discriminate Ha|].
    destruct (a_p a) as [text|]; [|discriminate Ha].
    injection Ha as <-. split; apply P_host.
Qed.

Lemma scrape_page_crawled (url : str) (w : World) :
  P url ->
  crawled P w (fst (scrape_page env url w)) /\
  forall page, snd (scrape_page env url w) = Ret (Some page) ->
               Forall (fun i => P (pi_url i) /\ P (pi_image_url i))
                      (items page).
Proof.
  intro Hurl. unfold scrape_page.
  pose proof (get_response_crawled url w Hurl) as H.
  destruct (get_response env url w) as [w1 [r|]]; cbn [fst] in H.
  - destruct (extract_page (soup r)) as [p|e] eqn:Hp; cbn [fst snd].
    + split; [assumption|]. intros page E. injection E as <-.
      unfold extract_page in Hp.
      destruct (rev (breadcrumps (soup r))); [discriminate Hp|].
      destruct (breadcrump_active (soup r)); [|discriminate Hp].
      destruct (listing (soup r)) as [anchors|]; [|discriminate Hp].
      destruct (page_items anchors) as [its|e'] eqn:Hl; [|discriminate Hp].
      injection Hp as <-. now apply page_items_urls with (anchors := anchors).
    + split; [assumption | discriminate].
  - split; [assumption | discriminate].
Qed.

Lemma save_item_crawled (item : Item) (ws : Worksheet) (row mw : Z)
  (w : World) :
  P (item_image_url item) ->
  crawled P w (fst (save_item env item ws row mw w)).
Proof.
  intro Hurl. unfold save_item.
  set (path := os_path_join env (item_brand item) (image_name item)).
  set (made :=
         if negb (os_path_exists (item_brand item) w)
         then
           if mkdir_raises env w (item_brand item)
           then (log ERROR (MsgCantCreateFolder (item_brand item)) w, false)
           else (mkdir (item_brand item) w, true)
         else (w, true)).
  assert (Hmade : crawled P w (fst made)).
  { unfold made. destruct (negb (os_path_exists (item_brand item) w));
      [destruct (mkdir_raises env w (item_brand item))|]; cbn [fst];
      (eapply crawled_same; [apply crawled_refl | |]); reflexivity. }
  destruct made as [w0 ok]. cbn [fst] in Hmade.
  destruct ok; cbn [negb]; [|exact Hmade].
  pose proof (save_image_crawled (item_image_url item) path w0 Hurl) as H.
  destruct (save_image env (item_image_url item) path w0) as [w1 saved].
  cbn [fst] in H. pose proof (crawled_trans _ _ _ Hmade H) as H1.
  destruct saved; cbn [negb]; [|exact H1].
  destruct (image_open_size env path w1) as [w2 [[width height]|e]] eqn:Hi.
  - apply image_open_size_ret in Hi. destruct Hi as [-> _].
    destruct (sheet_calls env _ _ ws) as [ws1 [e|]]; cbn [fst];
      (eapply crawled_same; [exact H1 | |]); reflexivity.
  - apply image_open_size_raise in Hi. subst w2. exact H1.
Qed.

Lemma submodels_loop_crawled (page : Page) (submodels : list PageItem) :
  Forall (fun i => P (pi_url i) /\ P (pi_image_url i)) submodels ->
  forall (v : Locals) (w : World),
    crawled P w (fst (submodels_loop env page submodels v w)).
Proof.
  induction 1 as [|s submodels [_ Hs] Hrest IH]; intros v w;
    cbn [submodels_loop].
  - apply crawled_refl.
  - match goal with
    | |- context [save_item env ?i ?a ?b ?c w] =>
        pose proof (save_item_crawled i a b c w Hs) as H;
        destruct (save_item env i a b c w) as [w1 [ws1 [[mw1|]|e]]]
    end; cbn [fst] in *; try exact H.
    eapply crawled_trans; [exact H | apply IH].
Qed.

Lemma models_loop_crawled (models : list PageItem) :
  Forall (fun i => P (pi_url i) /\ P (pi_image_url i)) models ->
  forall (v : Locals) (w : World),
    crawled P w (fst (models_loop env models v w)).
Proof.
  induction 1 as [|m models [Hm _] Hrest IH]; intros v w;
    cbn [models_loop].
  - apply crawled_refl.
  - set (w0 := log INFO (MsgScrapingModel (pi_url m)) w).
    assert (H0 : crawled P w w0)
      by (eapply crawled_same; [apply crawled_refl | |]; reflexivity).
    destruct (scrape_page_crawled (pi_url m) w0 Hm) as [H Hitems].
    destruct (scrape_page env (pi_url m) w0) as [w1 [[page|]|e]];
      cbn [fst snd] in *;
      pose proof (crawled_trans _ _ _ H0 H) as H1; try exact H1.
    pose proof (submodels_loop_crawled page (items page)
                  (Hitems page eq_refl) v w1) as H2.
    destruct (submodels_loop env page (items page) v w1)
      as [w2 [[| |e] v2]]; cbn [fst] in *;
      pose proof (crawled_trans _ _ _ H1 H2) as H3; try exact H3.
    eapply crawled_trans; [exact H3 | apply IH].
Qed.

Lemma finish_brand_scraping_crawled (xlsx : str) (ws : Worksheet) (rc : Z)
  (w0 w : World) :
  crawled P w0 w ->
  crawled P w0 (fst (finish_brand_scraping env xlsx ws rc w)).
Proof.
  intro H. unfold finish_brand_scraping.
  destruct (close_raises env w xlsx); cbn [fst];
    (eapply crawled_same; [exact H | |]); reflexivity.
Qed.

Lemma scrape_brand_exit_crawled (url : str) (w : World) :
  P url -> crawled P w (fst (scrape_brand_exit env url w)).
Proof.
  intro Hurl. unfold scrape_brand_exit.
  set (w0 := log INFO (MsgBeginBrand url) w).
  assert (H0 : crawled P w w0)
    by (eapply crawled_same; [apply crawled_refl | |]; reflexivity).
  destruct (scrape_page_crawled url w0 Hurl) as [H _].
  destruct (scrape_page env url w0) as [w1 [[page|]|e]]; cbn [fst] in *;
    pose proof (crawled_trans _ _ _ H0 H) as H1;
    try (eapply crawled_same; [exact H1 | |]; reflexivity).
  set (w2 := log INFO (MsgTotalModels (len (items page))) w1).
  assert (H2 : crawled P w w2)
    by (eapply crawled_same; [exact H1 | |]; reflexivity).
  destruct (workbook_raises env w2 (current_caption page ++ lit ".xlsx"));
    [cbn [fst]; eapply crawled_same; [exact H2 | |]; reflexivity|].
  destruct (scrape_page_crawled url w2 Hurl) as [H3 Hitems].
  assert (Hloop :
    crawled P w
      (fst (match scrape_page env url w2 with
            | (w, Raise e) => (w, (LoopRaised e, mkLocals header_worksheet 0 0))
            | (w, Ret None) =>
                (w, (LoopRaised TypeError, mkLocals header_worksheet 0 0))
            | (w, Ret (Some p)) =>
                models_loop env (items p) (mkLocals header_worksheet 0 0) w
            end))).
  { destruct (scrape_page env url w2) as [w3 [[p|]|e]]; cbn [fst snd] in *;
      pose proof (crawled_trans _ _ _ H2 H3) as H4; try exact H4.
    eapply crawled_trans; [exact H4|].
    apply models_loop_crawled. now apply Hitems. }
  destruct (match scrape_page env url w2 with
            | (w, Raise e) => (w, (LoopRaised e, mkLocals header_worksheet 0 0))
            | (w, Ret None) =>
                (w, (LoopRaised TypeError, mkLocals header_worksheet 0 0))
            | (w, Ret (Some p)) =>
                models_loop env (items p) (mkLocals header_worksheet 0 0) w
            end) as [w4 [[| |e] v4]]; cbn [fst] in Hloop.
  - pose proof (finish_brand_scraping_crawled
                  (current_caption page ++ lit ".xlsx") (l_worksheet v4)
                  (l_row_count v4) w w4 Hloop) as Hf.
    destruct (finish_brand_scraping env _ _ _ w4). exact Hf.
  - pose proof (finish_brand_scraping_crawled
                  (current_caption page ++ lit ".xlsx") (l_worksheet v4)
                  (l_row_count v4) w w4 Hloop) as Hf.
    destruct (finish_brand_scraping env _ _ _ w4). exact Hf.
  - assert (Hl : crawled P w (log ERROR (MsgModelFailure e) w4))
      by (eapply crawled_same; [exact Hloop | |]; reflexivity).
    pose proof (finish_brand_scraping_crawled
                  (current_caption page ++ lit ".xlsx") (l_worksheet v4)
                  (l_row_count v4) w _ Hl) as Hf.
    destruct (finish_brand_scraping env _ _ _ _). exact Hf.
Qed.

Lemma save_brand_list_crawled (brands : list str) (w0 w : World) :
  crawled P w0 w -> crawled P w0 (fst (save_brand_list env brands w)).
Proof.
  intro H. pose proof (save_brand_list_cases env brands w) as Hc.
  destruct (write_outcome env w PROCESSED_BRANDS_FILENAME) as [|e|e kept];
    rewrite Hc; try destruct (is_OSError e); cbn [fst];
    (eapply crawled_same; [exact H | |]); reflexivity.
Qed.

Lemma load_brand_list_crawled (w0 w : World) :
  crawled P w0 w -> crawled P w0 (fst (load_brand_list env w)).
Proof.
  intro H. unfold load_brand_list.
  destruct (os_path_exists PROCESSED_BRANDS_FILENAME w); [|exact H].
  destruct (lookup_file PROCESSED_BRANDS_FILENAME (files w));
    [destruct (read_raises env w PROCESSED_BRANDS_FILENAME) as [e|];
     [destruct (is_OSError e)|]|]; cbn [fst];
    try exact H; (eapply crawled_same; [exact H | |]); reflexivity.
Qed.

Lemma main_loop_crawled (brands : list Brand) :
  Forall (fun b => P (brand_url b)) brands ->
  forall (p : list str) (s : list (str * BrandExit)) (c : list (str * World))
         (w0 w : World),
    crawled P w0 w ->
    crawled P w0 (run_world (main_loop env brands p s c w)).
Proof.
  induction 1 as [|b rest Hb Hrest IH]; intros p s c w0 w H;
    cbn [main_loop].
  - cbn [run_world]. eapply crawled_same; [exact H | |]; reflexivity.
  - destruct (str_mem (brand_url b) p); cbn [negb].
    + destruct (len p >? 4)%Z; [|now apply IH].
      cbn [run_world]. eapply crawled_same; [exact H | |]; reflexivity.
    + pose proof (scrape_brand_exit_crawled (brand_url b) w Hb) as H1.
      destruct (scrape_brand_exit env (brand_url b) w) as [w1 x].
      cbn [fst] in H1. pose proof (crawled_trans _ _ _ H H1) as H2.
      destruct (exit_value x).
      * pose proof (save_brand_list_crawled (p ++ [brand_url b]) w0 w1 H2)
          as H3.
        destruct (save_brand_list env (p ++ [brand_url b]) w1)
          as [w2 [saved|e]]; cbn [fst] in H3; [|exact H3].
        destruct (len (p ++ [brand_url b]) >? 4)%Z; [|now apply IH].
        cbn [run_world]. eapply crawled_same; [exact H3 | |]; reflexivity.
      * cbn [run_world]. eapply crawled_same; [exact H2 | |]; reflexivity.
Qed.

Lemma brand_items_urls (anchors : list Anchor) :
  forall l, brand_items anchors = Ret l ->
            Forall (fun b => P (brand_url b)) l.
Proof.
  induction anchors as [|a anchors IH]; intros l H; cbn [brand_items] in H.
  - injection H as <-. constructor.
  - destruct (brand_item a) as [b|e] eqn:Ha; [|discriminate H].
    destruct (brand_items anchors) as [l'|e]; [|discriminate H].
    injection H as <-. constructor; [|now apply IH].
    unfold brand_item in Ha.
    destruct (a_href a) as [href|]; [|discriminate Ha].
    destruct (a_p a) as [text|]; [|discriminate Ha].
    injection Ha as <-. apply P_host.
Qed.

Lemma setup_logging_crawled (w : World) :
  crawled P w (fst (setup_logging env w)).
Proof.
  destruct (setup_logging_frame env w) as [Hr [Hs _]].
  eapply crawled_same; [apply crawled_refl | |]; assumption.
Qed.

Lemma main_crawled (w : World) : crawled P w (run_world (main env w)).
Proof.
  unfold main, get_brands.
  pose proof (setup_logging_crawled w) as Hs.
  destruct (setup_logging env w) as [ws [[]|e]]; cbn [fst] in Hs;
    [|exact Hs].
  set (w0 := log INFO MsgInitialization ws).
  assert (H0 : crawled P w w0)
    by (eapply crawled_same; [exact Hs | |]; reflexivity).
  pose proof (get_response_crawled BRANDS_URL w0 (P_host _)) as H.
  destruct (get_response env BRANDS_URL w0) as [w1 [r|]]; cbn [fst] in H;
    pose proof (crawled_trans _ _ _ H0 H) as H1; [|exact H1].
  destruct (listing (soup r)) as [anchors|];
    [|cbn [run_world]; eapply crawled_same; [exact H1 | |]; reflexivity].
  destruct (brand_items anchors) as [brands|e] eqn:Hb;
    [|cbn [run_world]; eapply crawled_same; [exact H1 | |]; reflexivity].
  assert (H2 : crawled P w (log INFO (MsgTotalBrands (len brands)) w1))
    by (eapply crawled_same; [exact H1 | |]; reflexivity).
  pose proof (load_brand_list_crawled w _ H2) as H3.
  destruct (load_brand_list env (log INFO (MsgTotalBrands (len brands)) w1))
    as [w3 [p|e]]; cbn [fst] in H3; [|exact H3].
  apply main_loop_crawled; [now apply brand_items_urls with (anchors := anchors)|].
  eapply crawled_same; [exact H3 | |]; reflexivity.
Qed.

End Crawl.

(** X16.  Rate limiting holds for a whole run: the run only adds requests
    and sleeps, and it sleeps [SLEEP_TIME] seconds exactly once for every
    request it makes, whatever the site and the disk do. *)
Theorem run_requests_paced (env : Env) (w : World) :
  exists urls,
    requested (run_world (main env w)) = urls ++ requested w /\
    slept (run_world (main env w))
    = repeat SLEEP_TIME (List.length urls) ++ slept w.
Proof.
  destruct (main_crawled env (fun _ => True) (fun _ => I) w)
    as [urls [HR [HS _]]].
  now exists urls.
Qed.

(** X17.  Every URL that a run gives to [requests.get] is the text of
    [HOST_URL] followed by more text: the path of the catalogue page, an
    [href] of a page or the image path of a style.  The script builds its
    URLs by joining the two texts and requests no link as the page gives
    it.  This is a fact about the text of the URL, not about the host that
    the URL names: a page could give an [href] that begins with an at
    sign. *)
Theorem run_requests_begin_with_HOST_URL (env : Env) (w : World) :
  exists urls,
    requested (run_world (main env w)) = urls ++ requested w /\
    Forall begins_with_HOST_URL urls.
Proof.
  destruct (main_crawled env begins_with_HOST_URL
              (fun rest => ex_intro _ rest eq_refl) w)
    as [urls [HR [_ HF]]].
  now exists urls.
Qed.

(** ** One brand: the brand page is fetched twice *)

Lemma count_url_app (url : str) (a b : list str) :
  count_url url (a ++ b) = (count_url url a + count_url url b)%nat.
Proof. unfold count_url. now rewrite filter_app, length_app. Qed.

Lemma count_url_repeat (url : str) (n : nat) :
  count_url url (repeat url n) = n.
Proof.
  unfold count_url. induction n as [|n IH]; [reflexivity|].
  cbn [repeat filter]. rewrite str_eqb_refl. cbn [List.length]. now rewrite IH.
Qed.

Section BrandPage.

Variable env : Env.
Variable url : str.

Lemma fetched_same (k : nat) (w w1 w2 : World) :
  fetched url k w w1 -> requested w2 = requested w1 -> fetched url k w w2.
Proof. unfold fetched. now intros H ->. Qed.

Lemma fetched_crawled (k : nat) (w w1 w2 : World) :
  fetched url k w w1 -> crawled (fun _ => True) w1 w2 -> fetched url k w w2.
Proof.
  unfold fetched. intros H [urls [HR _]]. rewrite HR, count_url_app. lia.
Qed.

Lemma fetched_scrape_page (k : nat) (w w1 : World) :
  fetched url k w w1 -> fetched url (S k) w (fst (scrape_page env url w1)).
Proof.
  unfold fetched. intro H.
  assert (E : fst (scrape_page env url w1) = fst (get_response env url w1)).
  { unfold scrape_page.
    destruct (get_response env url w1) as [w2 [r|]]; [|reflexivity].
    now destruct (extract_page (soup r)). }
  rewrite E. unfold get_response.
  destruct (get_response_loop_paced env (range 0 MAX_RETRIES) url w1)
    as [n [_ [Hn [HR _]]]].
  rewrite HR, count_url_app, count_url_repeat.
  assert (1 <= n)%nat by (apply Hn; discriminate). lia.
Qed.

Lemma fetched_finish (k : nat) (w w1 : World) (xlsx : str) (ws : Worksheet)
  (rc : Z) :
  fetched url k w w1 ->
  fetched url k w (fst (finish_brand_scraping env xlsx ws rc w1)).
Proof.
  intro H. unfold finish_brand_scraping.
  destruct (close_raises env w1 xlsx); cbn [fst];
    (eapply fetched_same; [exact H|]); reflexivity.
Qed.

Lemma scrape_brand_exit_fetched (w : World) :
  fetched url (match snd (scrape_brand_exit env url w) with
           | ExitInitialPage | ExitWorkbook => 1
           | _ => 2
           end) w (fst (scrape_brand_exit env url w)).
Proof.
  unfold scrape_brand_exit.
  set (w0 := log INFO (MsgBeginBrand url) w).
  assert (H0 : fetched url 0 w w0) by (unfold fetched; simpl; lia).
  pose proof (fetched_scrape_page 0 w w0 H0) as H1.
  destruct (scrape_page env url w0) as [w1 [[page|]|e]]; cbn [fst snd] in *;
    try (eapply fetched_same; [exact H1|]; reflexivity).
  set (w2 := log INFO (MsgTotalModels (len (items page))) w1).
  assert (H2 : fetched url 1 w w2)
    by (eapply fetched_same; [exact H1|]; reflexivity).
  destruct (workbook_raises env w2 (current_caption page ++ lit ".xlsx"));
    [cbn [fst snd]; eapply fetched_same; [exact H2|]; reflexivity|].
  pose proof (fetched_scrape_page 1 w w2 H2) as H3.
  assert (Hloop :
    fetched url 2 w
      (fst (match scrape_page env url w2 with
            | (w, Raise e) => (w, (LoopRaised e, mkLocals header_worksheet 0 0))
            | (w, Ret None) =>
                (w, (LoopRaised TypeError, mkLocals header_worksheet 0 0))
            | (w, Ret (Some p)) =>
                models_loop env (items p) (mkLocals header_worksheet 0 0) w
            end))).
  { destruct (scrape_page_crawled env (fun _ => True) (fun _ => I) url w2 I)
      as [_ Hitems].
    destruct (scrape_page env url w2) as [w3 [[p|]|e]]; cbn [fst snd] in *;
      try exact H3.
    eapply fetched_crawled; [exact H3|].
    apply models_loop_crawled; [exact (fun _ => I)|]. now apply Hitems. }
  destruct (match scrape_page env url w2 with
            | (w, Raise e) => (w, (LoopRaised e, mkLocals header_worksheet 0 0))
            | (w, Ret None) =>
                (w, (LoopRaised TypeError, mkLocals header_worksheet 0 0))
            | (w, Ret (Some p)) =>
                models_loop env (items p) (mkLocals header_worksheet 0 0) w
            end) as [w4 [[| |e] v4]]; cbn [fst] in Hloop.
  - pose proof (fetched_finish 2 w w4 (current_caption page ++ lit ".xlsx")
                  (l_worksheet v4) (l_row_count v4) Hloop) as Hf.
    destruct (finish_brand_scraping env _ _ _ w4). exact Hf.
  - pose proof (fetched_finish 2 w w4 (current_caption page ++ lit ".xlsx")
                  (l_worksheet v4) (l_row_count v4) Hloop) as Hf.
    destruct (finish_brand_scraping env _ _ _ w4). exact Hf.
  - assert (Hl : fetched url 2 w (log ERROR (MsgModelFailure e) w4))
      by (eapply fetched_same; [exact Hloop|]; reflexivity).
    pose proof (fetched_finish 2 w _ (current_caption page ++ lit ".xlsx")
                  (l_worksheet v4) (l_row_count v4) Hl) as Hf.
    destruct (finish_brand_scraping env _ _ _ _). exact Hf.
Qed.

End BrandPage.

(** X18.  [scrape_brand] requests the page of the brand at least once, and
    at least twice whenever it gets as far as its loop over the models
    (every return after line 312): the page fetched at line 300 is fetched
    again at line 324. *)
Theorem scrape_brand_fetches_page_twice (env : Env) (url : str) (w : World) :
  (match snd (scrape_brand_exit env url w) with
   | ExitInitialPage | ExitWorkbook => 1
   | _ => 2
   end + count_url url (requested w)
   <= count_url url (requested (fst (scrape_brand_exit env url w))))%nat.
Proof. apply scrape_brand_exit_fetched. Qed.

(** ** Report writer and one brand: rows, workbooks and files *)

Section Rows.

Variable env : Env.

(** What [save_image] returned, read off the world it leaves. *)
Lemma save_image_cases (url filename : str) (w : World) :
  if snd (save_image env url filename w)
  then exists data,
         lookup_file filename (files (fst (save_image env url filename w)))
         = Some data
  else exists m,
         hd_error (logged (fst (save_image env url filename w)))
         = Some (ERROR, m) /\
         (m = MsgCantSaveImage \/ exists e, m = MsgImageRetrieval e).
Proof.
  assert (Hexc : forall e w0,
             snd (save_image_except e w0) = false /\
             exists m,
               hd_error (logged (fst (save_image_except e w0)))
               = Some (ERROR, m) /\
               (m = MsgCantSaveImage \/ exists e, m = MsgImageRetrieval e)).
  { intros e w0. unfold save_image_except. destruct (is_OSError e);
      (split; [reflexivity|]; eexists; split; [reflexivity|]);
      [now left | right; now exists e]. }
  unfold save_image.
  destruct (get_response env url w) as [w1 r].
  destruct (write_outcome env w1 filename) as [|e|e kept], r as [r|];
    try (cbn [fst snd]; exists (content r); apply lookup_file_written);
    match goal with
    | |- context [save_image_except ?e ?w0] =>
        destruct (Hexc e w0) as [-> Hm]; exact Hm
    end.
Qed.

(** The cells, the height, the width and the image of a row whose six
    calls were made. *)
Lemma row_calls_sheet (item : Item) (name path : str) (height row mw : Z)
  (ws : Worksheet) :
  fold_left (fun ws c => sheet_apply c ws)
            (row_calls item name path height row mw) ws
  = mkWorksheet
      ((row, 3%Z, CellText name false)
       :: (row, 1%Z, CellText (item_submodel item) false)
       :: (row, 0%Z,
           CellUrl (item_url item)
                   (item_brand item ++ lit " " ++ item_model item))
       :: cells ws)
      ((row, height) :: row_pixels ws)
      ((2%Z, 2%Z, mw) :: column_pixels ws)
      ((row, 2%Z, path) :: images ws).
Proof. reflexivity. Qed.

(** The calls of a row before one that raises put at most one image on the
    worksheet. *)
Lemma row_calls_started (item : Item) (name path : str) (height row mw : Z)
  (ws : Worksheet) (done rest : list SheetCall) (c : SheetCall) :
  row_calls item name path height row mw = done ++ c :: rest ->
  rows_written (fold_left (fun ws c => sheet_apply c ws) done ws)
  = rows_written ws \/
  rows_written (fold_left (fun ws c => sheet_apply c ws) done ws)
  = (rows_written ws + 1)%Z.
Proof.
  unfold row_calls, rows_written, len.
  destruct done as [|c1 [|c2 [|c3 [|c4 [|c5 [|c6 done]]]]]];
    cbn [app]; intro E; injection E; intros; subst;
    cbn [fold_left sheet_apply ws_write ws_write_url ws_set_row_pixels
         ws_set_column_pixels ws_insert_image images List.length];
    try (now left); try (right; lia).
  destruct done; discriminate.
Qed.

End Rows.

(** X19.  [save_item] has three outcomes.  It returns [None] with the
    worksheet untouched after logging that the folder cannot be created or
    that the image cannot be saved or retrieved.  It returns the new
    maximum width after reading the size of the image and adding exactly
    one row: three cells, the row height, the width of column 2 and the
    image, all at the given row.  It raises when the image just stored
    cannot be decoded, and then the worksheet has no row for it, or when
    one of the six calls on the worksheet raises, and then the worksheet
    keeps what the calls before it wrote of the row. *)
Theorem save_item_outcome (env : Env) (item : Item) (ws : Worksheet)
  (row mw : Z) (w : World) :
  match snd (save_item env item ws row mw w) with
  | (ws', Ret None) =>
      ws' = ws /\
      exists m,
        hd_error (logged (fst (save_item env item ws row mw w)))
        = Some (ERROR, m) /\
        (m = MsgCantCreateFolder (item_brand item) \/
         m = MsgCantSaveImage \/
         exists e, m = MsgImageRetrieval e)
  | (ws', Ret (Some mw')) =>
      exists width height,
        hd_error (opened (fst (save_item env item ws row mw w)))
        = Some (os_path_join env (item_brand item) (image_name item),
                (width, height)) /\
        mw' = Z.max width mw /\
        ws' = fold_left (fun ws c => sheet_apply c ws)
                (row_calls item (image_name item)
                   (os_path_join env (item_brand item) (image_name item))
                   height row mw') ws /\
        images ws'
        = (row, 2%Z, os_path_join env (item_brand item) (image_name item))
          :: images ws /\
        column_width ws' 2 = Some mw'
  | (ws', Raise e) =>
      (ws' = ws /\
       exists data,
         lookup_file (os_path_join env (item_brand item) (image_name item))
                     (files (fst (save_item env item ws row mw w)))
         = Some data /\
         image_size env data = Raise e)
      \/
      (exists width height done c rest,
          hd_error (opened (fst (save_item env item ws row mw w)))
          = Some (os_path_join env (item_brand item) (image_name item),
                  (width, height)) /\
          row_calls item (image_name item)
            (os_path_join env (item_brand item) (image_name item))
            height row (Z.max width mw)
          = done ++ c :: rest /\
          ws' = fold_left (fun ws c => sheet_apply c ws) done ws /\
          sheet_raises env (fst (save_item env item ws row mw w)) ws' c
          = Some e)
  end.
Proof.
  unfold save_item.
  set (path := os_path_join env (item_brand item) (image_name item)).
  destruct (negb (os_path_exists (item_brand item) w)) eqn:Hex;
    [destruct (mkdir_raises env w (item_brand item)) eqn:Hmk|];
    cbn [negb fst snd].
  { split; [reflexivity|]. eexists. split; [reflexivity|]. now left. }
  all: match goal with
       | |- context [save_image ?en ?u ?p ?w0] =>
           pose proof (save_image_cases en u p w0) as Hs;
           destruct (save_image en u p w0) as [w1 saved]
       end;
    cbn [fst snd] in Hs; destruct saved; cbn [negb fst snd];
    [|split; [reflexivity|]; destruct Hs as [m [Hm Hc]]; exists m;
      split; [exact Hm|]; tauto];
    destruct Hs as [data Hdata]; unfold image_open_size; rewrite Hdata;
    (destruct (image_size env data) as [[width height]|e] eqn:Hsize;
     [|cbn [fst snd]; left; split; [reflexivity|]; now exists data]);
    (destruct (sheet_calls env (record_opened path (width, height) w1)
                 (row_calls item (image_name item) path height row
                            (Z.max width mw)) ws) as [ws1 [e|]] eqn:Hc;
     cbn [fst snd];
     [apply sheet_calls_raised in Hc;
      destruct Hc as [done [c [rest [Hrow [Hws Hr]]]]];
      right; exists width, height, done, c, rest;
      repeat split; assumption
     |apply sheet_calls_done in Hc; rewrite row_calls_sheet in Hc;
      exists width, height; subst ws1; repeat split]).
Qed.

Section BrandRows.

Variable env : Env.

(** When [save_item] raises, the worksheet is as it was or has what some
    of the calls of the row did. *)
Lemma save_item_raise (item : Item) (ws ws' : Worksheet) (row mw : Z)
  (w w' : World) (e : Exn) :
  save_item env item ws row mw w = (w', (ws', Raise e)) ->
  ws' = ws \/
  exists width height done c rest,
    row_calls item (image_name item)
      (os_path_join env (item_brand item) (image_name item))
      height row (Z.max width mw)
    = done ++ c :: rest /\
    ws' = fold_left (fun ws c => sheet_apply c ws) done ws.
Proof.
  unfold save_item.
  set (path := os_path_join env (item_brand item) (image_name item)).
  destruct (if negb (os_path_exists (item_brand item) w)
            then
              if mkdir_raises env w (item_brand item)
              then (log ERROR (MsgCantCreateFolder (item_brand item)) w, false)
              else (mkdir (item_brand item) w, true)
            else (w, true)) as [w0 ok].
  destruct ok; cbn [negb]; [|discriminate].
  destruct (save_image env (item_image_url item) path w0) as [w1 saved].
  destruct saved; cbn [negb]; [|discriminate].
  destruct (image_open_size env path w1) as [w2 [[width height]|e']].
  - destruct (sheet_calls env w2
                (row_calls item (image_name item) path height row
                           (Z.max width mw)) ws) as [ws1 [e'|]] eqn:Hc;
      [|discriminate].
    intro H. injection H as _ <- _.
    apply sheet_calls_raised in Hc.
    destruct Hc as [done [c [rest [Hrow [Hws _]]]]].
    right. now exists width, height, done, c, rest.
  - intro H. injection H as _ <- _. now left.
Qed.

Lemma save_item_rows (item : Item) (ws : Worksheet) (row mw : Z) (w : World) :
  match snd (save_item env item ws row mw w) with
  | (ws', Ret (Some _)) => rows_written ws' = (rows_written ws + 1)%Z
  | (ws', Ret None) => ws' = ws
  | (ws', Raise _) =>
      rows_written ws' = rows_written ws \/
      rows_written ws' = (rows_written ws + 1)%Z
  end.
Proof.
  destruct (save_item env item ws row mw w) as [w' [ws' [[mw'|]|e]]] eqn:H;
    cbn [snd].
  - apply save_item_some in H.
    destruct H as [width [height [w1 [_ [_ [_ [_ [_ [_ ->]]]]]]]]].
    rewrite row_calls_sheet. unfold rows_written, len.
    cbn [images List.length]. lia.
  - apply save_item_none in H. now destruct H.
  - apply save_item_raise in H.
    destruct H as [->|[width [height [done [c [rest [Hr ->]]]]]]].
    + now left.
    + exact (row_calls_started _ _ _ _ _ _ ws done rest c Hr).
Qed.

Lemma submodels_loop_rows (page : Page) (submodels : list PageItem) :
  forall (v : Locals) (w : World),
    rows_written (l_worksheet v) = l_row_count v ->
    workbooks (fst (submodels_loop env page submodels v w)) = workbooks w /\
    loop_rows (fst (snd (submodels_loop env page submodels v w)))
              (snd (snd (submodels_loop env page submodels v w))).
Proof.
  induction submodels as [|s submodels IH]; intros v w Hv;
    cbn [submodels_loop].
  - now split.
  - match goal with
    | |- context [save_item env ?i ?a ?b ?c w] =>
        destruct (save_item_books env i a b c w) as [Hb _];
        pose proof (save_item_rows i a b c w) as Hr;
        destruct (save_item env i a b c w) as [w1 [ws1 [[mw1|]|e]]]
    end; cbn [fst snd] in *.
    + destruct (IH (mkLocals ws1 (l_row_count v + 1) mw1) w1) as [Hb' Hr'].
      * cbn [l_worksheet l_row_count]. lia.
      * split; [congruence | assumption].
    + subst ws1. split; [assumption|].
      cbn [loop_rows l_worksheet l_row_count]. lia.
    + split; [assumption|].
      cbn [loop_rows l_worksheet l_row_count]. lia.
Qed.

Lemma scrape_page_books (url : str) (w : World) :
  workbooks (fst (scrape_page env url w)) = workbooks w.
Proof.
  destruct (scrape_page env url w) as [w' res] eqn:H.
  apply scrape_page_disk in H. now destruct H as [_ [_ [Hb _]]].
Qed.

Lemma models_loop_rows (models : list PageItem) :
  forall (v : Locals) (w : World),
    rows_written (l_worksheet v) = l_row_count v ->
    workbooks (fst (models_loop env models v w)) = workbooks w /\
    loop_rows (fst (snd (models_loop env models v w)))
              (snd (snd (models_loop env models v w))).
Proof.
  induction models as [|m models IH]; intros v w Hv; cbn [models_loop].
  - now split.
  - pose proof (scrape_page_books (pi_url m)
                  (log INFO (MsgScrapingModel (pi_url m)) w)) as Hb.
    cbn [workbooks log] in Hb.
    destruct (scrape_page env (pi_url m)
                (log INFO (MsgScrapingModel (pi_url m)) w))
      as [w1 [[page|]|e]]; cbn [fst snd] in *;
      try (split; [assumption | now left]).
    destruct (submodels_loop_rows page (items page) v w1 Hv) as [Hb' Hr].
    destruct (submodels_loop env page (items page) v w1)
      as [w2 [[| |e] v2]]; cbn [fst snd] in *.
    + destruct (IH v2 w2 Hr) as [Hb'' Hr'']. split; [congruence | assumption].
    + split; [congruence | assumption].
    + split; [congruence | assumption].
Qed.

(** What [finish_brand_scraping] leaves: the error of the close, or the
    total and the workbook. *)
Lemma finish_brand_scraping_books (xlsx : str) (ws : Worksheet) (rc : Z)
  (w0 w : World) :
  workbooks w = workbooks w0 ->
  (hd_error (logged (fst (finish_brand_scraping env xlsx ws rc w)))
   = Some (ERROR, MsgCantSaveWorkbook xlsx XlsxWriterException) /\
   workbooks (fst (finish_brand_scraping env xlsx ws rc w)) = workbooks w0) \/
  (hd_error (logged (fst (finish_brand_scraping env xlsx ws rc w)))
   = Some (INFO, MsgTotalItems rc) /\
   workbooks (fst (finish_brand_scraping env xlsx ws rc w))
   = (xlsx, ws) :: workbooks w0).
Proof.
  intro H. unfold finish_brand_scraping.
  destruct (close_raises env w xlsx); cbn [fst].
  - left. split; [reflexivity | exact H].
  - right. split; [reflexivity|]. cbn [workbooks write_workbook log].
    now rewrite H.
Qed.

End BrandRows.

(** X20.  [scrape_brand] writes no workbook when it ends before its loops
    (lines 304 and 312).  On every later [return] the page of the brand was
    scraped at line 300 and the workbook, named after the caption of that
    page, is closed once, as the last act: either the close fails, which is
    logged, and no workbook is written, or the workbook is written under
    that name and the total is logged.  The workbook written holds as many
    rows with an image as the total when the brand succeeded, and one row
    less when [save_item] returned [None]: a failed brand leaves its
    partial workbook, and its total counts the failed item. *)
Theorem scrape_brand_workbook (env : Env) (url : str) (w : World) :
  match snd (scrape_brand_exit env url w) with
  | ExitInitialPage | ExitWorkbook =>
      workbooks (fst (scrape_brand_exit env url w)) = workbooks w
  | x =>
      exists w1 page,
        scrape_page env url (log INFO (MsgBeginBrand url) w)
        = (w1, Ret (Some page)) /\
        ((hd_error (logged (fst (scrape_brand_exit env url w)))
          = Some (ERROR,
                  MsgCantSaveWorkbook (current_caption page ++ lit ".xlsx")
                                      XlsxWriterException) /\
          workbooks (fst (scrape_brand_exit env url w)) = workbooks w)
         \/
         (exists ws total,
             hd_error (logged (fst (scrape_brand_exit env url w)))
             = Some (INFO, MsgTotalItems total) /\
             workbooks (fst (scrape_brand_exit env url w))
             = (current_caption page ++ lit ".xlsx", ws) :: workbooks w /\
             exit_rows x ws total))
  end.
Proof.
  unfold scrape_brand_exit.
  pose proof (scrape_page_books env url (log INFO (MsgBeginBrand url) w))
    as H1.
  cbn [workbooks log] in H1.
  destruct (scrape_page env url (log INFO (MsgBeginBrand url) w))
    as [w1 [[page|]|e]]; cbn [fst snd] in *; try exact H1.
  set (w2 := log INFO (MsgTotalModels (len (items page))) w1).
  destruct (workbook_raises env w2 (current_caption page ++ lit ".xlsx"));
    [exact H1|].
  assert (Hloop :
    workbooks
      (fst (match scrape_page env url w2 with
            | (w, Raise e) => (w, (LoopRaised e, mkLocals header_worksheet 0 0))
            | (w, Ret None) =>
                (w, (LoopRaised TypeError, mkLocals header_worksheet 0 0))
            | (w, Ret (Some p)) =>
                models_loop env (items p) (mkLocals header_worksheet 0 0) w
            end)) = workbooks w /\
    loop_rows
      (fst (snd (match scrape_page env url w2 with
                 | (w, Raise e) =>
                     (w, (LoopRaised e, mkLocals header_worksheet 0 0))
                 | (w, Ret None) =>
                     (w, (LoopRaised TypeError, mkLocals header_worksheet 0 0))
                 | (w, Ret (Some p)) =>
                     models_loop env (items p)
                                 (mkLocals header_worksheet 0 0) w
                 end)))
      (snd (snd (match scrape_page env url w2 with
                 | (w, Raise e) =>
                     (w, (LoopRaised e, mkLocals header_worksheet 0 0))
                 | (w, Ret None) =>
                     (w, (LoopRaised TypeError, mkLocals header_worksheet 0 0))
                 | (w, Ret (Some p)) =>
                     models_loop env (items p)
                                 (mkLocals header_worksheet 0 0) w
                 end)))).
  { pose proof (scrape_page_books env url w2) as H3.
    unfold w2 in H3 at 2. cbn [workbooks log] in H3.
    destruct (scrape_page env url w2) as [w3 [[p|]|e]]; cbn [fst snd] in *;
      try (split; [congruence | now left]).
    destruct (models_loop_rows env (items p) (mkLocals header_worksheet 0 0)
                w3 eq_refl) as [Hb Hr].
    split; [congruence | assumption]. }
  destruct (match scrape_page env url w2 with
            | (w, Raise e) => (w, (LoopRaised e, mkLocals header_worksheet 0 0))
            | (w, Ret None) =>
                (w, (LoopRaised TypeError, mkLocals header_worksheet 0 0))
            | (w, Ret (Some p)) =>
                models_loop env (items p) (mkLocals header_worksheet 0 0) w
            end) as [w4 [[| |e] v4]]; cbn [fst snd] in Hloop;
    destruct Hloop as [Hb Hr].
  - destruct (finish_brand_scraping_books env
                (current_caption page ++ lit ".xlsx")
                (l_worksheet v4) (l_row_count v4) w w4 Hb) as [Hf|[Hl Hw]];
      destruct (finish_brand_scraping env _ _ _ w4) as [w5 res];
      cbn [fst snd] in *; exists w1, page; (split; [reflexivity|]);
      [now left|].
    right. now exists (l_worksheet v4), (l_row_count v4).
  - destruct (finish_brand_scraping_books env
                (current_caption page ++ lit ".xlsx")
                (l_worksheet v4) (l_row_count v4) w w4 Hb) as [Hf|[Hl Hw]];
      destruct (finish_brand_scraping env _ _ _ w4) as [w5 res];
      cbn [fst snd] in *; exists w1, page; (split; [reflexivity|]);
      [now left|].
    right. now exists (l_worksheet v4), (l_row_count v4).
  - destruct (finish_brand_scraping_books env
                (current_caption page ++ lit ".xlsx")
                (l_worksheet v4) (l_row_count v4) w
                (log ERROR (MsgModelFailure e) w4) Hb) as [Hf|[Hl Hw]];
      destruct (finish_brand_scraping env _ _ _ _) as [w5 res];
      cbn [fst snd] in *; exists w1, page; (split; [reflexivity|]);
      [now left|].
    right. now exists (l_worksheet v4), (l_row_count v4).
Qed.

(** ** From one run to the next *)

Lemma lookup_file_exists (path : str) (l : list (str * str)) (data : str) :
  lookup_file path l = Some data -> str_mem path (map fst l) = true.
Proof.
  unfold str_mem. induction l as [|[p d] l IH]; simpl; [discriminate|].
  destruct (str_eqb path p); [reflexivity|]. exact IH.
Qed.

(** X21.  Resuming works across runs: when writing the ledger never fails
    and a run ends normally after at least one call of [scrape_brand], a
    later [load_brand_list] that finds the files of that run and can read
    the ledger returns exactly the final [processed_brands] of the run,
    provided no URL in it holds white space. *)
Theorem next_run_loads_processed (env : Env) (w w' : World)
  (Hwrite : forall w0,
      write_outcome env w0 PROCESSED_BRANDS_FILENAME = Written)
  (Hexit : run_exit (main env w) = MainComplete)
  (Hcalls : run_scraped (main env w) <> [])
  (Hurls : Forall no_space (run_processed (main env w)))
  (Hfiles : files w' = files (run_world (main env w)))
  (Hread : read_raises env w' PROCESSED_BRANDS_FILENAME = None) :
  snd (load_brand_list env w') = Ret (run_processed (main env w)).
Proof.
  assert (Hfile :
    lookup_file PROCESSED_BRANDS_FILENAME (files w')
    = Some (ledger_text env (run_processed (main env w)))).
  { rewrite Hfiles.
    pose proof (main_start env w) as Hstart.
    destruct (main_inputs env w) as [[brands p]|].
    - destruct Hstart as [w0 [Hmain _]]. rewrite Hmain in *.
      destruct (main_loop_ledger_file env brands Hwrite p [] [] w0)
        as [H|H]; try assumption; [now left | contradiction].
    - destruct Hstart as [Hs _]. contradiction. }
  unfold load_brand_list, os_path_exists.
  rewrite (lookup_file_exists _ _ _ Hfile). cbn [orb].
  rewrite Hfile, Hread. cbn [snd]. f_equal.
  apply ledger_text_round_trip.
  eapply Forall_impl; [|exact Hurls].
  intros b Hb. now apply no_space_ledger_entry.
Qed.

Lemma next_run_loads_processed_witness :
  snd (load_brand_list
         (fake_env six_site false)
         (run_world (main (fake_env six_site false)
                          (world_with_ledger (at_host "/b2" ++ [ch_nl])))))
  = Ret (run_processed (main (fake_env six_site false)
                             (world_with_ledger (at_host "/b2" ++ [ch_nl])))).
Proof.
  apply (next_run_loads_processed
           (fake_env six_site false)
           (world_with_ledger (at_host "/b2" ++ [ch_nl]))).
  - intro w0. reflexivity.
  - vm_compute. reflexivity.
  - vm_compute. discriminate.
  - vm_compute. repeat constructor.
  - reflexivity.
  - reflexivity.
Defined.
